(** * pnad: year specifications, field descriptors, column cache, lazy proxy

    A shallow embedding of the core of the [pnad] package:

    - [pnad/utils.py]            : [select_by_year], [years], [prepare_years],
                                   [filter_years]
    - [pnad/cache.py]            : [Cache.save], [Cache.load], [CacheError]
    - [pnad/transformer/base.py] : [Transformer], [DataFrameProxy], [Field],
                                   [IncomeField], [FunctionField], [sum_na]
    - [pnad/loader.py]           : [load], [load_household], [load_raw]
    - [pnad/transformer/economy.py], [pnad/transformer/person.py] :
                                   the fields, [education_years], [convert]
    - [pnad/enums.py]            : [with_category], [State]

    Numbers held in columns are IEEE binary64 values (the kernel's primitive
    floats), so NaN, infinities and float equality behave as in numpy.
    Exceptions are values of [exn]; a computation that may raise returns a
    [result]. *)

From Stdlib Require Import ZArith Floats Ascii.
From stdpp Require Import gmap strings list sorting pretty.

Open Scope Z_scope.

(** ** Python values shared by the modules *)

Module Py.

(** Python's built-in exceptions, as far as the modelled code raises them
    or lets them through. *)
Inductive builtin : Type :=
| AttributeError (name : string)
| KeyError (key : string)
| ValueError (msg : string)
| TypeError (msg : string)
| AssertionError
| RecursionError
| FileNotFoundError (path : string).

(** An exception: a built-in one, or the package's [CacheError]. *)
Inductive exn : Type :=
| Builtin (e : builtin)
| CacheError (col : string).
Coercion Builtin : builtin >-> exn.

Inductive result (A : Type) : Type :=
| Ok (a : A)
| Raise (e : exn).
Arguments Ok {A} a.
Arguments Raise {A} e.

Definition is_ok {A} (r : result A) : bool :=
  match r with Ok _ => true | Raise _ => false end.

End Py.
Export Py.

(** ** pnad/utils.py *)

Module Utils.

(** One end of a range in a year specification: a year, [...] or [None]. *)
Inductive bound : Type :=
| Year (y : Z)
| Ellipsis
| PyNone.

(** A key of the specification: a single item, or a pair [(a, b)]. *)
Inductive key : Type :=
| Single (item : bound)
| Pair (a b : bound).

(** What a specification maps a range to: [None] (the variable does not
    exist in those years), the name of a raw column, or a literal number. *)
Inductive outcome : Type :=
| Unavailable
| RawColumn (name : string)
| Literal (value : Z).

(** Integers extended with [-float('inf')] and [float('inf')]. *)
Inductive ext : Type :=
| NegInf
| Fin (z : Z)
| PosInf.

Definition ext_eqb (x y : ext) : bool :=
  match x, y with
  | NegInf, NegInf => true
  | Fin a, Fin b => a =? b
  | PosInf, PosInf => true
  | _, _ => false
  end.

Definition ext_ltb (x y : ext) : bool :=
  match x, y with
  | NegInf, NegInf => false
  | NegInf, _ => true
  | Fin a, Fin b => a <? b
  | Fin _, PosInf => true
  | _, _ => false
  end.

Definition ext_leb (x y : ext) : bool := ext_ltb x y || ext_eqb x y.

(** [a = -float('inf') if a in [..., None] else a] *)
Definition lower (a : bound) : ext :=
  match a with Year y => Fin y | Ellipsis | PyNone => NegInf end.

(** [b = float('inf') if b in [..., None] else b] *)
Definition upper (b : bound) : ext :=
  match b with Year y => Fin y | Ellipsis | PyNone => PosInf end.

(** An entry [(a, b, value)] of the normalized list [spec]. *)
Definition triple : Type := ext * ext * outcome.

Definition lo (t : triple) : ext := t.1.1.
Definition hi (t : triple) : ext := t.1.2.
Definition value (t : triple) : outcome := t.2.

(** The body of the normalizing loop, for one [(item, value)]. *)
Definition normalize (entry : key * outcome) : triple :=
  match entry with
  | (Pair a b, v) => (lower a, upper b, v)
  | (Single item, v) => (lower item, upper item, v)
  end.

Definition outcome_eqb (v w : outcome) : bool :=
  match v, w with
  | Unavailable, Unavailable => true
  | RawColumn s, RawColumn t => bool_decide (s = t)
  | Literal a, Literal b => a =? b
  | _, _ => false
  end.

(** Python's [v < w]: strings by code point, numbers by value.  Python's
    [None] and values of different types are not ordered: there the
    comparison raises a [TypeError], and the result here is [None]. *)
Definition outcome_lt (v w : outcome) : option bool :=
  match v, w with
  | RawColumn s, RawColumn t => Some (String.ltb s t)
  | Literal a, Literal b => Some (a <? b)
  | _, _ => None
  end.

(** Python's [x < y] on 3-tuples: the first position where the tuples
    differ decides; equal tuples are not less. *)
Definition tuple_lt (x y : triple) : option bool :=
  if negb (ext_eqb (lo x) (lo y)) then Some (ext_ltb (lo x) (lo y))
  else if negb (ext_eqb (hi x) (hi y)) then Some (ext_ltb (hi x) (hi y))
  else if outcome_eqb (value x) (value y) then Some false
  else outcome_lt (value x) (value y).

(** Insertion of [x] after the entries that are not greater than it. *)
Fixpoint insert_sorted (x : triple) (l : list triple) : list triple :=
  match l with
  | [] => [x]
  | y :: l' =>
      if default false (tuple_lt x y) then x :: l
      else y :: insert_sorted x l'
  end.

Definition sorted_spec (l : list triple) : list triple :=
  foldr insert_sorted [] (reverse l).

(** Every pair of entries can be compared. *)
Definition comparable (l : list triple) : bool :=
  forallb (fun x => forallb (fun y => bool_decide (is_Some (tuple_lt x y))) l) l.

(** [spec.sort()].  A list sort compares the entries by [<].  With all
    pairs comparable the order is total and its ties are equal tuples, so
    the sorted list is the one insertion sort builds.  Two entries with
    the same bounds and outcomes that [<] does not order must meet in some
    comparison, whose [TypeError] leaves the sort. *)
Definition list_sort (l : list triple) : result (list triple) :=
  if comparable l then Ok (sorted_spec l)
  else Raise (TypeError "'<' not supported").

(** [a <= year <= b] *)
Definition contains (year : Z) (t : triple) : bool :=
  ext_leb (lo t) (Fin year) && ext_leb (Fin year) (hi t).

(** The for/else loop over the sorted entries. *)
Fixpoint first_match (year : Z) (spec : list triple) : result outcome :=
  match spec with
  | [] => Raise (ValueError "no valid range for year")
  | t :: rest => if contains year t then Ok (value t) else first_match year rest
  end.

(** [select_by_year(year, D)], with [D] given as its list of items (for
    a dict, [list(D.items())]). *)
Definition select_by_year (year : Z) (D : list (key * outcome)) : result outcome :=
  match list_sort (map normalize D) with
  | Ok spec => first_match year spec
  | Raise e => Raise e
  end.

End Utils.

(** ** Columns and tables (the part of numpy and pandas the code uses) *)

Module Frame.

(** A scalar a cell may hold: [None] or a number. *)
Inductive scalar : Type :=
| SNone
| SNum (x : float).

(** The values of one column.  [Values a] is an array with one number per
    row.  [Broadcast s] is the column that holds [s] in each row of its
    table: what assigning a scalar to a frame column stores, and what
    [np.ones(len(df)) * s] builds.  The number of rows is not part of
    the model, and pandas' alignment of lengths is left out with it. *)
Inductive column : Type :=
| Values (a : list float)
| Broadcast (s : scalar).

(** What a proxy access or a field method returns: [None] or a column. *)
Inductive pyobj : Type :=
| ObjNone
| ObjCol (c : column).

(** A [DataFrame]: its columns in order, by name.  Names are column and
    field names; attribute names of the pandas and transformer classes
    themselves (other than [year]) are not among them. *)
Definition frame : Type := list (string * column).

Definition columns (df : frame) : list string := map fst df.

(** [df[name]] for a name, as an option: [None] is the [KeyError] (or, by
    attribute, the [AttributeError]). *)
Fixpoint get (df : frame) (name : string) : option column :=
  match df with
  | [] => None
  | (k, c) :: rest => if bool_decide (k = name) then Some c else get rest name
  end.

(** [name in df.columns] *)
Definition has (df : frame) (name : string) : bool :=
  bool_decide (is_Some (get df name)).

(** [df[name] = c]: an existing column is replaced where it stands, a new
    one goes last. *)
Fixpoint set (df : frame) (name : string) (c : column) : frame :=
  match df with
  | [] => [(name, c)]
  | (k, c') :: rest =>
      if bool_decide (k = name) then (k, c) :: rest
      else (k, c') :: set rest name c
  end.

(** What [df[name] = v] stores for a Python value: [None] is a scalar and
    fills the column. *)
Definition stored (v : pyobj) : column :=
  match v with
  | ObjNone => Broadcast SNone
  | ObjCol c => c
  end.

(** [df[[c1, ..., cn]]] for names that are all columns of [df]. *)
Definition select (df : frame) (names : list string) : frame :=
  omap (fun name => pair name <$> get df name) names.

(** A Python integer as a column value (exact below 2^53). *)
Definition of_int (z : Z) : float :=
  match z with
  | Z0 => 0%float
  | Zpos _ => PrimFloat.of_uint63 (Uint63.of_Z z)
  | Zneg p => (- PrimFloat.of_uint63 (Uint63.of_Z (Zpos p)))%float
  end.

End Frame.

(** ** pnad/cache.py *)

Module Cache.
Import Frame.

(** The cache directory: file name to saved array. *)
Abbreviation store := (gmap string column).

(** [cache_path(f'cache-{col}-{str(year)}.npy')], relative to the cache
    directory. *)
Definition _path (year : Z) (col : string) : string :=
  "cache-" +:+ col +:+ "-" +:+ pretty year +:+ ".npy".

(** The argument of [save]: a [Series] with its name, or a [DataFrame]. *)
Inductive saved : Type :=
| ASeries (name : string) (c : column)
| AFrame (df : frame).

(** [data.items()], after [pd.DataFrame(data)] for a series. *)
Definition items (data : saved) : frame :=
  match data with
  | ASeries name c => [(name, c)]
  | AFrame df => df
  end.

(** [np.save(path, col.values)] *)
Definition np_save (path : string) (c : column) (st : store) : store :=
  <[path := c]> st.

(** [np.load(path, allow_pickle=True)] *)
Definition np_load (path : string) (st : store) : result column :=
  match st !! path with
  | Some c => Ok c
  | None => Raise (FileNotFoundError path)
  end.

(** [Cache.save(year, data)] *)
Definition save (year : Z) (data : saved) (st : store) : store :=
  foldl (fun st '(name, col) => np_save (_path year name) col st) st (items data).

(** The loop of [Cache.load]: fills the dict [df], or raises
    [CacheError(col)] at the first file that is not found. *)
Fixpoint load_loop (year : Z) (cols : list string) (df : frame) (st : store)
  : result frame :=
  match cols with
  | [] => Ok df
  | col :: rest =>
      match np_load (_path year col) st with
      | Ok c => load_loop year rest (set df col c) st
      | Raise (FileNotFoundError _) => Raise (CacheError col)
      | Raise e => Raise e
      end
  end.

(** [Cache.load(year, cols)]; the last step is
    [pd.DataFrame(df, columns=cols)]. *)
Definition load (year : Z) (cols : list string) (st : store) : result frame :=
  match load_loop year cols [] st with
  | Ok df => Ok (select df cols)
  | Raise e => Raise e
  end.

End Cache.

(** ** pnad/transformer/base.py *)

Module Base.
Import Frame.

(** *** Utility functions on arrays *)

(** [np.isnan(x)] *)
Definition isnan (x : list float) : list bool := map PrimFloat.is_nan x.

(** [np.where(cond, a, x)] for a scalar [a] and an array [x]. *)
Definition where_ (cond : list bool) (a : float) (x : list float) : list float :=
  zip_with (fun (c : bool) v => if c then a else v) cond x.

(** [sum_na(x0, *others)], for arrays of one length. *)
Definition sum_na (x0 : list float) (others : list (list float)) : list float :=
  (* Create mask of null values *)
  let isnull := foldl (fun m x => zip_with andb m (isnan x)) (isnan x0) others in
  (* Sum all inputs assuming nan == 0 *)
  let res :=
    foldl (fun r x => zip_with PrimFloat.add r (where_ (isnan x) 0 x))
          (where_ (isnan x0) 0 x0) others in
  (* Make the entries in which all values are null, null again *)
  zip_with (fun (m : bool) v => if m then nan else v) isnull res.

(** An elementwise function on the numbers of a column. *)
Definition col_map (f : float -> float) (c : column) : column :=
  match c with
  | Values a => Values (map f a)
  | Broadcast (SNum x) => Broadcast (SNum (f x))
  | Broadcast SNone => Broadcast SNone
  end.

(** [np.asfarray(lst)]: [None] becomes NaN. *)
Definition asfarray (c : column) : column :=
  match c with
  | Broadcast SNone => Broadcast (SNum nan)
  | _ => c
  end.

(** [lst[lst == value] = float('nan')] *)
Definition mask_value (value : float) (x : float) : float :=
  if PrimFloat.eqb x value then nan else x.

(** The list [missing] of [IncomeField.remove_missing]. *)
Definition missing_values : list float :=
  [-1; 999999; 9999999; 99999999; 999999999; 999999999999]%float.

(** [IncomeField.remove_missing(lst)] *)
Definition remove_missing (lst : column) : column :=
  foldl (fun lst value => col_map (mask_value value) lst) (asfarray lst) missing_values.

(** [np.where(col == missing, float('nan'), col)] *)
Definition where_missing (missing : float) (col : column) : column :=
  col_map (mask_value missing) col.

(** *** Field descriptors *)

(** [Field.spec]: a column name, a year specification, or anything else. *)
Inductive field_spec : Type :=
| SpecName (name : string)
| SpecYears (D : list (Utils.key * Utils.outcome))
| SpecOther.

(** A [Field]: its specification and missing-value sentinel. *)
Record Field : Type := {
  spec : field_spec;
  missing : option float;
}.

(** [Field(spec)], with the default [missing=-1]. *)
Definition Field_of (spec : field_spec) : Field :=
  {| spec := spec; missing := Some (-1)%float |}.

(** How code reads a column of the proxy: [df.item] or [df[item]]. *)
Inductive access : Type :=
| ByAttr
| ByItem.

(** The body of a function field, as the proxy sees it: it reads fields
    from [df] by attribute or by item, asks whether a name is a column,
    raises a built-in exception, or returns a column or [None].  What it
    computes in between is in the continuations.  Like the functions of
    the catalog, it catches no exception. *)
Inductive prog : Type :=
| Return (v : pyobj)
| Throw (e : builtin)
| Get (by_ : access) (item : string) (k : pyobj -> prog)
| Contains (item : string) (k : bool -> prog).

(** An attribute of a transformer that the proxy may call. *)
Inductive attribute : Type :=
| AField (f : Field)
| AnIncomeField (f : Field)
| AFunction (func : Z -> prog)
| NotCallable.

(** A raw survey table, by variable name. *)
Abbreviation table := (gmap string column).

(** A [Transformer]: [self.year], [self._fields], the fields its class
    declares, and the table [self._loader()] returns.  [_fields] is the
    requested list, or every declared field when none was requested. *)
Record Transformer : Type := {
  year : Z;
  _fields : list string;
  declared : gmap string attribute;
  _loader : table;
}.

(** [getattr(transformer, item)], [None] when [hasattr] is false: the
    instance attribute [year] comes first, then the declared fields. *)
Definition transformer_getattr (T : Transformer) (item : string) : option attribute :=
  if bool_decide (item = "year") then Some NotCallable
  else declared T !! item.

(** *** The proxy session *)

(** The state of a [DataFrameProxy]: the working frame [__data], the raw
    table [__raw] once loaded, and how often the loader was called. *)
Record session : Type := {
  data : frame;
  raw : option table;
  loads : nat;
}.

Definition M (A : Type) : Type := session -> result A * session.

Definition ret {A} (a : A) : M A := fun s => (Ok a, s).
Definition raise {A} (e : exn) : M A := fun s => (Raise e, s).
Definition bind {A B} (m : M A) (k : A -> M B) : M B :=
  fun s => match m s with
           | (Ok a, s') => k a s'
           | (Raise e, s') => (Raise e, s')
           end.

Notation "x <- m ;; k" := (bind m (fun x => k))
  (at level 100, m at next level, right associativity).

(** [self.__data[item] = c] *)
Definition set_data (item : string) (c : column) : M unit :=
  fun s => (Ok tt, {| data := set (data s) item c; raw := raw s; loads := loads s |}).

(** [if self.__raw is None: self.__raw = self.__loader()], then the raw
    table. *)
Definition raw_table (T : Transformer) : M table :=
  fun s => match raw s with
           | Some t => (Ok t, s)
           | None => (Ok (_loader T),
                      {| data := data s; raw := Some (_loader T); loads := S (loads s) |})
           end.

(** [np.array(v)] *)
Definition np_array (v : pyobj) : column := stored v.

Section proxy.
Variable T : Transformer.

(** The proxy as the called code holds it. *)
Variable df : access -> string -> M pyobj.

(** Running the body of a function field. *)
Fixpoint run (p : prog) : M pyobj :=
  match p with
  | Return v => ret v
  | Throw e => raise e
  | Get by_ item k => bind (df by_ item) (fun v => run (k v))
  | Contains item k => fun s => run (k (has (data s) item)) s
  end.

(** The end of [Field.transform]: read [df[field]], clean it. *)
Definition read_field (f : Field) (field : string) : M pyobj :=
  fun s =>
    match df ByItem field s with
    | (Ok v, s') =>
        let col := np_array v in
        let col := match missing f with
                   | Some m => where_missing m col
                   | None => col
                   end in
        (Ok (ObjCol col), s')
    | (Raise (Builtin (KeyError _)), s') => (Ok ObjNone, s')
    | (Raise e, s') => (Raise e, s')
    end.

(** [Field.transform(self, loader, df)] *)
Definition Field_transform (f : Field) : M pyobj :=
  match spec f with
  | SpecName field => read_field f field
  | SpecYears D =>
      match Utils.select_by_year (year T) D with
      | Raise e => raise e
      | Ok Utils.Unavailable => ret ObjNone
      | Ok (Utils.Literal field) => ret (ObjCol (Broadcast (SNum (of_int field))))
      | Ok (Utils.RawColumn field) => read_field f field
      end
  | SpecOther => raise (ValueError "raise invalid data")
  end.

(** [IncomeField.transform(self, loader, df)] *)
Definition IncomeField_transform (f : Field) : M pyobj :=
  lst <- Field_transform f ;;
  match lst with
  | ObjNone => ret (ObjCol (Broadcast (SNum nan)))
  | ObjCol lst => ret (ObjCol (remove_missing lst))
  end.

(** [fn(self)] for [fn = getattr(self.__transformer, item)]. *)
Definition call (fn : attribute) : M pyobj :=
  match fn with
  | AField f => Field_transform f
  | AnIncomeField f => IncomeField_transform f
  | AFunction func => run (func (year T))
  | NotCallable => raise (TypeError "object is not callable")
  end.

(** [DataFrameProxy._fallback(self, item, exc)] *)
Definition _fallback (item : string) (exc : exn) : M pyobj :=
  match transformer_getattr T item with
  | Some fn =>
      col <- call fn ;;
      _ <- set_data item (stored col) ;;
      ret col
  | None =>
      t <- raw_table T ;;
      match t !! item with
      | Some c =>
          _ <- set_data item c ;;
          ret (ObjCol c)
      | None => raise exc
      end
  end.

End proxy.

(** [DataFrameProxy.__getattr__(self, item)] *)
Definition __getattr__ (fallback : string -> exn -> M pyobj) (item : string) : M pyobj :=
  fun s => match get (data s) item with
           | Some c => (Ok (ObjCol c), s)
           | None => fallback item (AttributeError item) s
           end.

(** [DataFrameProxy.__getitem__(self, item)] *)
Definition __getitem__ (fallback : string -> exn -> M pyobj) (item : string) : M pyobj :=
  fun s => match get (data s) item with
           | Some c => (Ok (ObjCol c), s)
           | None => fallback item (KeyError item) s
           end.

(** The proxy with [limit] calls left on the interpreter's stack: the
    field methods it calls get the proxy with one less, and with none
    left every call is a [RecursionError]. *)
Fixpoint proxy (T : Transformer) (limit : nat) (by_ : access) (item : string) : M pyobj :=
  match limit with
  | O => raise RecursionError
  | S n =>
      match by_ with
      | ByAttr => __getattr__ (_fallback T (proxy T n)) item
      | ByItem => __getitem__ (_fallback T (proxy T n)) item
      end
  end.

(** *** The transformer *)

(** [Transformer._load_cached(self)] *)
Fixpoint load_cached_loop (T : Transformer) (attrs : list string) (data : frame)
    (st : Cache.store) : result frame :=
  match attrs with
  | [] => Ok data
  | attr :: rest =>
      if bool_decide (attr = "year") then load_cached_loop T rest data st
      else
        match Cache.load (year T) [attr] st with
        | Ok loaded =>
            match get loaded attr with
            | Some c => load_cached_loop T rest (set data attr c) st
            | None => Raise (KeyError attr)
            end
        | Raise (CacheError _) => load_cached_loop T rest data st
        | Raise e => Raise e
        end
  end.

Definition _load_cached (T : Transformer) (st : Cache.store) : result frame :=
  load_cached_loop T (_fields T) [] st.

(** The loop of [__call__] over [self._fields], with the dict [extra]. *)
Fixpoint resolve_loop (new : access -> string -> M pyobj) (attrs : list string)
    (extra : frame) : M frame :=
  match attrs with
  | [] => ret extra
  | attr :: rest =>
      if bool_decide (attr = "year") then resolve_loop new rest extra
      else fun s =>
        if has (data s) attr then resolve_loop new rest extra s
        else
          match new ByAttr attr s with
          | (Ok ObjNone, s') => resolve_loop new rest extra s'
          | (Ok (ObjCol col), s') =>
              resolve_loop new rest (set extra attr col)
                {| data := set (data s') attr col; raw := raw s'; loads := loads s' |}
          | (Raise e, s') => (Raise e, s')
          end
  end.

(** What a call of the transformer leaves: the table or the exception,
    the cache directory, and the number of calls of the loader. *)
Record outcome : Type := {
  returned : result frame;
  cache : Cache.store;
  loader_calls : nat;
}.

(** [Transformer.__call__(self)], on the cache directory [st]. *)
Definition __call__ (T : Transformer) (limit : nat) (st : Cache.store) : outcome :=
  match _load_cached T st with
  | Raise e => {| returned := Raise e; cache := st; loader_calls := 0 |}
  | Ok df =>
      if (length (columns df) =? length (_fields T))%nat
      then {| returned := Ok df; cache := st; loader_calls := 0 |}
      else
        let new := {| data := df; raw := None; loads := 0 |} in
        match resolve_loop (proxy T limit) (_fields T) [] new with
        | (Raise e, s) => {| returned := Raise e; cache := st; loader_calls := loads s |}
        | (Ok extra, s) =>
            let df :=
              if bool_decide ("year" ∈ _fields T)
              then set (data s) "year" (Broadcast (SNum (of_int (year T))))
              else data s in
            let st :=
              match extra with
              | [] => st
              | _ => Cache.save (year T) (Cache.AFrame extra) st
              end in
            {| returned := Ok (select df (filter (fun c => has df c) (_fields T)));
               cache := st;
               loader_calls := loads s |}
        end
  end.

End Base.

(** ** pnad/utils.py: the years of the survey *)

Module Years.
Import Utils.

(** What the functions on years take for a year specification: [None],
    [...], an int, a tuple of years, [None] and [...], or a list of
    ints. *)
Inductive years_spec : Type :=
| SpecNone
| SpecEllipsis
| SpecInt (y : Z)
| SpecTuple (items : list bound)
| SpecList (ys : list Z).

(** The positional arguments of [years]: none, one specification,
    the two ends of a range, or more than two. *)
Inductive years_args : Type :=
| NoArgs
| OneArg (yrs_range : years_spec)
| TwoArgs (a b : bound)
| MoreArgs.

(** The positional arguments of [prepare_years]: none, one
    specification, or two and more years. *)
Inductive prepare_args : Type :=
| PNoArgs
| POneArg (yrs : years_spec)
| PManyArgs (y1 y2 : Z) (rest : list Z).

(** [a, b = yrs_range], after [yrs_range = None, None] for [None]. *)
Definition unpack (yrs_range : years_spec) : result (bound * bound) :=
  match yrs_range with
  | SpecNone => Ok (PyNone, PyNone)
  | SpecTuple [a; b] => Ok (a, b)
  | SpecList [a; b] => Ok (Year a, Year b)
  | SpecTuple ([] | [_]) | SpecList ([] | [_]) =>
      Raise (ValueError "not enough values to unpack")
  | SpecTuple _ | SpecList _ => Raise (ValueError "too many values to unpack")
  | SpecEllipsis | SpecInt _ => Raise (TypeError "cannot unpack non-iterable object")
  end.

Section years.

(** The data directory: the numbers [int(yy)] of the entries of
    [os.listdir(str(data_path()))] whose names are digits, as listed. *)
Variable data_dir : list Z.

(** [PNAD_YEARS]: the sorted array of those numbers. *)
Definition PNAD_YEARS : list Z := merge_sort Z.le data_dir.

(** The four cases of [years] on the two ends of a range. *)
Definition in_range (a b : bound) : list Z :=
  let a := match a with Ellipsis => PyNone | _ => a end in
  let b := match b with Ellipsis => PyNone | _ => b end in
  match a, b with
  | Year a, Year b => filter (fun y => a <= y <= b) PNAD_YEARS
  | _, Year b => filter (fun y => y <= b) PNAD_YEARS
  | Year a, _ => filter (fun y => a <= y) PNAD_YEARS
  | _, _ => PNAD_YEARS
  end.

(** [years], on its positional arguments. *)
Definition years (args : years_args) : result (list Z) :=
  let yrs_range :=
    match args with
    | NoArgs => Ok SpecNone
    | OneArg yrs_range => Ok yrs_range
    | TwoArgs a b => Ok (SpecTuple [a; b])
    | MoreArgs => Raise (TypeError "accepts 0, 1 or 2 arguments")
    end in
  match yrs_range with
  | Raise e => Raise e
  | Ok yrs_range =>
      match unpack yrs_range with
      | Raise e => Raise e
      | Ok (a, b) => Ok (in_range a b)
      end
  end.

(** [prepare_years], on its positional arguments. *)
Definition prepare_years (args : prepare_args) : result (list Z) :=
  let yrs :=
    match args with
    | PNoArgs => SpecNone
    | POneArg yrs => yrs
    | PManyArgs y1 y2 rest => SpecList (y1 :: y2 :: rest)
    end in
  match yrs with
  | SpecNone | SpecEllipsis => Ok PNAD_YEARS
  | SpecTuple _ => years (OneArg yrs)
  | SpecInt y => Ok [y]
  | SpecList ys => Ok (filter (fun yy => yy ∈ PNAD_YEARS) ys)
  end.

(** [filter_years(years, valid=None)] *)
Definition filter_years (years : years_spec) (valid : option (list Z)) : result (list Z) :=
  match prepare_years (POneArg years) with
  | Raise e => Raise e
  | Ok years =>
      match valid with
      | None => Ok years
      | Some valid => Ok (filter (fun yy => yy ∈ valid) years)
      end
  end.

End years.

End Years.

(** ** pnad/transformer/base.py: the fields of a new transformer *)

Module Init.
Import Base.

(** [attr.startswith('_')] *)
Definition startswith_underscore (attr : string) : bool :=
  match attr with
  | String "_" _ => true
  | _ => false
  end.

(** The alphabetical order of [dir]: strings by their code points. *)
Definition alphabetical (a b : string) : Prop := String.leb a b = true.

#[global] Instance alphabetical_dec (a b : string) : Decision (alphabetical a b) :=
  decide (String.leb a b = true).

(** [_all_fields(self)]: the names of [dir(self)] that do not start with
    an underscore.  [dir] lists, each once and in alphabetical order,
    the attributes of the instance ([year] is the public one when
    [__init__] asks) and of its class. *)
Definition _all_fields (declared : gmap string attribute) : list string :=
  filter (fun attr => startswith_underscore attr = false)
    (merge_sort alphabetical
       (elements ({["year"]} ∪ dom declared : gset string))).

(** [Transformer.__init__(self, year, fields=None, *, loader)], for the
    class that declares [declared]: [fields or self._all_fields()]. *)
Definition __init__ (declared : gmap string attribute) (year : Z)
    (fields : option (list string)) (loader : table) : Transformer :=
  {| year := year;
     _fields := match fields with
                | Some (attr :: rest) => attr :: rest
                | Some [] | None => _all_fields declared
                end;
     declared := declared;
     _loader := loader |}.

End Init.

(** ** pnad/loader.py *)

Module Loader.

Section loader.

(** [str(data_path())] *)
Variable data_path : string.

(** The pickled tables under the data path, by file name. *)
Variable files : gmap string Base.table.

(** What calling an instance of [PersonTransformer] returns, for the
    year, the fields and the loader it is made with. *)
Variable PersonTransformer : Z -> option (list string) -> result Base.table -> result Frame.frame.

(** [{'person': 'pes', 'household': 'dom'}[which]] *)
Definition name (which : string) : result string :=
  if bool_decide (which = "person") then Ok "pes"
  else if bool_decide (which = "household") then Ok "dom"
  else Raise (KeyError which).

(** The file of a year: [f'{data_path()}/{year}/{name[which]}{year}.pnad'] *)
Definition raw_file (year : Z) (name : string) : string :=
  data_path +:+ "/" +:+ pretty year +:+ "/" +:+ name +:+ pretty year +:+ ".pnad".

(** [load_raw(year, which)] *)
Definition load_raw (year : Z) (which : string) : result Base.table :=
  match name which with
  | Raise e => Raise e
  | Ok name =>
      let path := raw_file year name in
      match files !! path with
      | Some t => Ok t
      | None => Raise (FileNotFoundError path)
      end
  end.

(** [{'person': PersonTransformer}[which]] *)
Definition loader_class (which : string)
  : result (Z -> option (list string) -> result Base.table -> result Frame.frame) :=
  if bool_decide (which = "person") then Ok PersonTransformer
  else Raise (KeyError which).

(** [_load(which, year, fields)]; the loader of the transformer is
    [lambda: load_raw(year, which)]. *)
Definition _load (which : string) (year : Z) (fields : option (list string))
  : result Frame.frame :=
  match loader_class which with
  | Raise e => Raise e
  | Ok loader_class => loader_class year fields (load_raw year which)
  end.

(** [load(year, fields=None)] *)
Definition load (year : Z) (fields : option (list string)) : result Frame.frame :=
  _load "person" year fields.

(** [load_household(year, fields=None)] *)
Definition load_household (year : Z) (fields : option (list string)) : result Frame.frame :=
  _load "household" year fields.

End loader.

End Loader.

(** ** pnad/transformer/economy.py and person.py: the catalog *)

Module Catalog.
Import Frame Base Utils.

(** *** What the catalog is written with *)

(** The keys of the year specifications: [(a, ...)], [(..., b)], [(a, b)]
    and a single year [y]. *)
Definition since (a : Z) : key := Pair (Year a) Ellipsis.
Definition upto (b : Z) : key := Pair Ellipsis (Year b).
Definition between (a b : Z) : key := Pair (Year a) (Year b).
Definition only (y : Z) : key := Single (Year y).

(** [Field(spec, descr=...)] and [IncomeField(spec, descr=...)], with the
    default [missing=-1]. *)
Definition field (D : list (key * outcome)) : attribute := AField (Field_of (SpecYears D)).
Definition income_field (D : list (key * outcome)) : attribute :=
  AnIncomeField (Field_of (SpecYears D)).

(** [np.asarray(arg)] of what the proxy returned, when [np.isnan] takes
    it: [None], and a column of [None], have the dtype [object], for
    which [np.isnan] raises a [TypeError]. *)
Definition asarray (arg : pyobj) : option column :=
  match arg with
  | ObjCol (Values a) => Some (Values a)
  | ObjCol (Broadcast (SNum x)) => Some (Broadcast (SNum x))
  | ObjCol (Broadcast SNone) | ObjNone => None
  end.

(** The number of rows of the table the columns belong to, as far as
    they tell: the length of the first array among them. *)
Fixpoint rows (cols : list column) : option nat :=
  match cols with
  | [] => None
  | Values a :: _ => Some (length a)
  | Broadcast _ :: rest => rows rest
  end.

(** A column as an array of [n] rows. *)
Definition expand (n : nat) (c : column) : list float :=
  match c with
  | Values a => a
  | Broadcast (SNum x) => replicate n x
  | Broadcast SNone => []
  end.

(** [sum_na(arg0, ...)] on what the proxy returned, followed by [k].  The
    arrays are those of one table, and [Base.sum_na] adds them; when
    every argument holds one number in each row, one row stands for all
    of them.  The function builds new arrays and changes none of its
    arguments. *)
Definition sum_na (args : list pyobj) (k : pyobj -> prog) : prog :=
  match args with
  | [] => Throw (ValueError "not enough values to unpack")
  | arg0 :: args =>
      match asarray arg0, mapM asarray args with
      | Some x0, Some others =>
          match rows (x0 :: others) with
          | Some n => k (ObjCol (Values (Base.sum_na (expand n x0) (map (expand n) others))))
          | None =>
              let res := Base.sum_na (expand 1 x0) (map (expand 1) others) in
              k (ObjCol (Broadcast (SNum (default nan (head res)))))
          end
      | _, _ => Throw (TypeError "ufunc 'isnan' not supported for the input types")
      end
  end.

(** [df.a] and then [df.b], ... in this order, followed by [k]. *)
Fixpoint attrs (names : list string) (k : list pyobj -> prog) : prog :=
  match names with
  | [] => k []
  | name :: names => Get ByAttr name (fun v => attrs names (fun vs => k (v :: vs)))
  end.

(** A function field that is [return sum_na(df.a, df.b, ...)]. *)
Definition sum_of (names : list string) : attribute :=
  AFunction (fun _ => attrs names (fun args => sum_na args Return)).

(** *** economy.py *)

(** [IncomeDataMixin.income_capital] *)
Definition income_capital (year : Z) : prog :=
  attrs ["income_rent"; "income_investiments"] (fun args =>
  sum_na args (fun total =>
  if year =? 1977
  then attrs ["V94"; "V97"] (fun args => sum_na args (fun _ => Return total))
  else Return total)).

(** The fields of [IncomeDataMixin], as the class declares them, but for
    [income_work]: for the years after 1992 that function cleans the raw
    columns [V7122] and [V7125] with [IncomeField.remove_missing], which
    writes into the array it is given. *)
Definition IncomeDataMixin : gmap string attribute :=
  list_to_map
    [ (* Main job *)
      ("income_work_main_money_fixed", income_field
         [ (since 1992, RawColumn "V9532"); (between 1981 1990, RawColumn "V537");
           (only 1979, RawColumn "V2318"); (only 1978, RawColumn "V2426");
           (only 1977, RawColumn "V75"); (only 1976, RawColumn "V2308") ]);
      ("income_work_main_money_variable", income_field
         [ (since 1981, Unavailable);
           (only 1979, RawColumn "V2338"); (only 1978, RawColumn "V2446");
           (only 1977, RawColumn "V76"); (only 1976, RawColumn "V2358") ]);
      ("income_work_main_products", income_field
         [ (since 1992, RawColumn "V9535"); (between 1981 1990, RawColumn "V538");
           (only 1979, RawColumn "V2339"); (only 1978, RawColumn "V2447");
           (only 1977, RawColumn "V77"); (only 1976, RawColumn "V2359") ]);
      ("income_work_main_money",
         sum_of ["income_work_main_money_variable"; "income_work_main_money_fixed"]);
      ("income_work_main",
         sum_of ["income_work_main_money"; "income_work_main_products"]);
      (* Secondary job *)
      ("income_work_secondary_money_fixed", income_field
         [ (since 1992, RawColumn "V9982"); (between 1980 1990, Unavailable);
           (only 1979, RawColumn "V2427"); (upto 1978, Unavailable) ]);
      ("income_work_secondary_money_variable", income_field
         [ (since 1980, Unavailable); (only 1979, RawColumn "V2457");
           (upto 1978, Unavailable) ]);
      ("income_work_secondary_products", income_field
         [ (since 1992, RawColumn "V9985"); (between 1980 1990, Unavailable);
           (only 1979, RawColumn "V2458"); (upto 1978, Unavailable) ]);
      ("income_work_secondary_money",
         sum_of ["income_work_secondary_money_fixed"; "income_work_secondary_money_variable"]);
      ("income_work_secondary",
         sum_of ["income_work_secondary_money"; "income_work_secondary_products"]);
      (* Other jobs *)
      ("income_work_extra_money_fixed", income_field
         [ (since 1992, RawColumn "V1022"); (between 1981 1990, RawColumn "V549");
           (only 1979, RawColumn "V2319"); (only 1978, RawColumn "V2428");
           (only 1977, RawColumn "V85"); (only 1976, RawColumn "V2362") ]);
      ("income_work_extra_money_variable", income_field
         [ (since 1992, Unavailable); (between 1981 1990, Unavailable);
           (only 1979, RawColumn "V2349"); (only 1978, RawColumn "V2468");
           (only 1977, RawColumn "V86"); (only 1976, Unavailable) ]);
      ("income_work_extra_products", income_field
         [ (since 1992, RawColumn "V1025"); (between 1981 1990, RawColumn "V550");
           (only 1979, RawColumn "V2350"); (only 1978, RawColumn "V2469");
           (only 1977, RawColumn "V87"); (only 1976, Unavailable) ]);
      ("income_work_extra_money",
         sum_of ["income_work_extra_money_fixed"; "income_work_extra_money_variable"]);
      ("income_work_extra",
         sum_of ["income_work_extra_money"; "income_work_extra_products"]);
      ("income_work_other_money",
         sum_of ["income_work_extra_money"; "income_work_secondary_money"]);
      ("income_work_other_products",
         sum_of ["income_work_extra_products"; "income_work_secondary_products"]);
      ("income_work_other",
         sum_of ["income_work_other_money"; "income_work_other_products"]);
      ("income_work_money",
         sum_of ["income_work_extra_money"; "income_work_main_money"]);
      ("income_work_products",
         sum_of ["income_work_extra_products"; "income_work_main_products"]);
      (* Social security *)
      ("income_retirement_main", income_field
         [ (since 1992, RawColumn "V1252"); (between 1981 1990, RawColumn "V578");
           (only 1979, RawColumn "V2350"); (only 1978, RawColumn "V2479");
           (only 1977, RawColumn "V90"); (only 1976, RawColumn "V2365") ]);
      ("income_retirement_other", income_field
         [ (since 1992, RawColumn "V1258"); (upto 1990, Unavailable) ]);
      ("income_pension_main", income_field
         [ (since 1992, RawColumn "V1255"); (between 1981 1990, RawColumn "V579");
           (only 1979, Unavailable); (only 1978, RawColumn "V2480");
           (only 1977, RawColumn "V91"); (only 1976, Unavailable) ]);
      ("income_pension_other", income_field
         [ (since 1992, RawColumn "V1261"); (upto 1990, Unavailable) ]);
      ("income_permanence_bonus", income_field
         [ (since 1992, RawColumn "V1264"); (between 1981 1990, RawColumn "V580");
           (upto 1979, Unavailable) ]);
      ("income_pension", sum_of ["income_pension_main"; "income_pension_other"]);
      ("income_retirement", sum_of ["income_retirement_main"; "income_retirement_other"]);
      ("income_social",
         sum_of ["income_pension"; "income_retirement"; "income_permanence_bonus"]);
      (* Capital income *)
      ("income_rent", income_field
         [ (since 1992, RawColumn "V1267"); (between 1981 1990, RawColumn "V581");
           (only 1979, RawColumn "V2363"); (only 1978, RawColumn "V2482");
           (only 1977, RawColumn "V93"); (only 1976, RawColumn "V2363") ]);
      ("income_investments", income_field
         [ (since 1992, RawColumn "V1273"); (upto 1990, Unavailable);
           (only 1979, RawColumn "V2361"); (only 1978, RawColumn "V2483");
           (only 1977, RawColumn "V95"); (only 1976, Unavailable) ]);
      ("income_capital", AFunction income_capital);
      (* Other income sources *)
      ("income_other", income_field
         [ (since 1992, Unavailable); (between 1981 1990, RawColumn "V582");
           (between 1978 1979, Unavailable); (only 1977, RawColumn "V96");
           (only 1976, RawColumn "V2366") ]);
      ("income_donation", income_field
         [ (since 1992, RawColumn "V1270"); (between 1981 1990, Unavailable);
           (only 1979, RawColumn "V2362"); (only 1978, RawColumn "V2481");
           (only 1977, RawColumn "V92"); (only 1976, RawColumn "V2364") ]);
      ("income_misc", sum_of ["income_donation"; "income_other"]);
      (* Total incomes *)
      ("income",
         sum_of ["income_work"; "income_social"; "income_capital"; "income_misc"]);
      (* Family and household *)
      ("income_household", income_field
         [ (since 1992, RawColumn "V4721"); (between 1981 1990, RawColumn "V410");
           (upto 1979, Unavailable) ]);
      ("income_family", income_field
         [ (since 1992, RawColumn "V4722"); (between 1981 1990, RawColumn "V5010");
           (upto 1979, Unavailable) ]);
      ("income_household_per_capta", income_field
         [ (since 1992, RawColumn "V4742"); (between 1981 1990, Unavailable);
           (upto 1979, Unavailable) ]);
      ("income_family_per_capta", income_field
         [ (since 1992, RawColumn "V4750"); (between 1981 1990, Unavailable);
           (upto 1979, Unavailable) ]) ].

(** The fields of [OccupationDataMixin]. *)
Definition OccupationDataMixin : gmap string attribute :=
  list_to_map
    [ ("occupation_week", field [ (since 1992, RawColumn "V9906"); (upto 1990, RawColumn "V503") ]);
      ("occupation_year", field [ (since 1992, RawColumn "V9971"); (upto 1990, Unavailable) ]);
      ("occupation_secondary", field [ (since 1992, RawColumn "V9990"); (upto 1990, Unavailable) ]);
      ("occupation_previous", field [ (since 1992, RawColumn "V9910"); (upto 1990, Unavailable) ]);
      ("occupation_first", field [ (since 1992, RawColumn "V1298"); (upto 1990, Unavailable) ]);
      ("occupation_father", field [ (since 1992, RawColumn "V1293"); (upto 1990, Unavailable) ]);
      ("occupation_father_previous",
         field [ (since 1992, RawColumn "V1258"); (upto 1990, Unavailable) ]);
      ("is_occupied", field [ (since 1992, RawColumn "V4705"); (upto 1990, Unavailable) ]);
      ("is_active", field [ (since 1992, RawColumn "V4704"); (upto 1990, Unavailable) ]);
      ("work_duration", field [ (since 1992, RawColumn "V4707"); (upto 1990, Unavailable) ]);
      ("occupation", AFunction (fun _ => Get ByAttr "occupation_week" Return)) ].

(** *** person.py *)

(** The fields that the body of [PersonTransformer] declares. *)
Definition PersonTransformer_weights : gmap string attribute :=
  list_to_map
    [ ("weight", field
         [ (since 1992, RawColumn "V4729"); (only 1990, RawColumn "V3091");
           (between 1981 1989, RawColumn "V9991"); (only 1979, RawColumn "V2999");
           (only 1978, RawColumn "V2997"); (only 1977, RawColumn "V187");
           (only 1976, RawColumn "V2997") ]);
      ("weight_family", field
         [ (since 1992, RawColumn "V4732"); (between 1981 1990, RawColumn "V9971");
           (only 1979, RawColumn "V2998"); (only 1978, RawColumn "V2996") ]);
      ("weight_househould", field
         [ (since 1992, RawColumn "V4732"); (only 1990, RawColumn "V1091");
           (between 1981 1989, RawColumn "V9981"); (only 1979, RawColumn "V1997");
           (only 1978, RawColumn "V1995"); (only 1977, RawColumn "V187");
           (only 1976, RawColumn "V1997") ]) ].

(** The three ways of [education_years] to the years of schooling of
    one respondent, from the code [x] of the survey; the last step of
    each is [y_edu[y_edu < 0] = float('nan')]. *)
Definition negative_to_nan (y : float) : float :=
  if PrimFloat.ltb y 0 then nan else y.

Definition edu_1977 (x : float) : float :=
  let y := x in
  let y := if PrimFloat.eqb y 9 then 10%float else y in
  let y := if PrimFloat.eqb y 10 then 12%float else y in
  negative_to_nan y.

Definition edu_before_1992 (data : float) : float :=
  let y := (data - 1)%float in
  let y := if PrimFloat.eqb data 10 then 10%float else y in
  let y := if PrimFloat.eqb data 11 then 12%float else y in
  let y := if PrimFloat.leb 12 data then nan else y in
  negative_to_nan y.

Definition edu_since_1992 (x : float) : float :=
  let y := (x - 1)%float in
  let y := if PrimFloat.leb 16 y then nan else y in
  negative_to_nan y.

(** [data - 1] for what the proxy returned: [None] and a column of
    [None] have no difference with an int. *)
Definition code (v : pyobj) (k : column -> prog) : prog :=
  match stored v with
  | Broadcast SNone => Throw (TypeError "unsupported operand type(s) for -")
  | data => k data
  end.

(** [df[field]] for the outcome of [select_by_year], followed by [k].
    The specifications of [education_years] name a column for every
    range, so that the other outcomes do not occur. *)
Definition column_of (selected : result Utils.outcome) (k : pyobj -> prog) : prog :=
  match selected with
  | Ok (RawColumn field) => Get ByItem field k
  | Ok Unavailable | Ok (Literal _) => Throw (KeyError "field")
  | Raise (Builtin e) => Throw e
  | Raise (CacheError _) => Throw (ValueError "no valid range for year")
  end.

(** [SocialDataMixin.education_years] *)
Definition education_years (year : Z) : prog :=
  if year =? 1977
  then Get ByAttr "V136" (fun v =>
       Return (ObjCol (col_map edu_1977 (asfarray (stored v)))))
  else if year <? 1992
  then column_of (select_by_year year
                    [ (between 1976 1978, RawColumn "V2511");
                      (only 1979, RawColumn "V2507");
                      (since 1981, RawColumn "V318") ]) (fun v =>
       code v (fun data => Return (ObjCol (col_map edu_before_1992 data))))
  else column_of (select_by_year year
                    [ (upto 2006, RawColumn "V4703");
                      (since 2007, RawColumn "V4803") ]) (fun v =>
       code v (fun data => Return (ObjCol (col_map edu_since_1992 data)))).

End Catalog.

(** ** pnad/enums.py *)

Module Enums.

(** A binary literal [0b...], by its digits. *)
Definition binary (digits : string) : Z :=
  foldl (fun n (d : ascii) => 2 * n + (if bool_decide (d = "1"%char) then 1 else 0)) 0
        (String.list_ascii_of_string digits).

(** The members of [State]. *)
Inductive State : Type :=
| UNKNOWN
| RS | SC | PR
| SP | RJ | MG | ES
| MS | MT | GO | DF
| BA | AL | SE | PE | PB | RN | CE | PI | MA
| TO | PA | AP | AM | RR | AC | RO
| SUL | SUDESTE | CENTRO_OESTE | NORDESTE | NORTE
| ANY_REGION | SUL_SUDESTE | NORTE_NORDESTE
| NON_SUL | NON_SUDESTE | NON_CENTRO_OESTE | NON_NORDESTE | NON_NORTE.

(** The value of a member, as the class body computes it. *)
Definition State_value (s : State) : Z :=
  let SUL := binary "1000" in
  let SUDESTE := Z.shiftl (binary "10000") 4 in
  let CENTRO_OESTE := Z.shiftl (binary "10000") 9 in
  let NORDESTE := Z.shiftl (binary "10000") 14 in
  let NORTE := Z.shiftl (binary "10000") 24 in
  let ANY_REGION :=
    Z.lor (Z.lor (Z.lor (Z.lor SUL SUDESTE) CENTRO_OESTE) NORTE) NORDESTE in
  match s with
  | UNKNOWN => binary "0"
  (* Sul *)
  | RS => binary "1001"
  | SC => binary "1010"
  | PR => binary "1100"
  (* Sudeste *)
  | SP => Z.shiftl (binary "10001") 4
  | RJ => Z.shiftl (binary "10010") 4
  | MG => Z.shiftl (binary "10100") 4
  | ES => Z.shiftl (binary "11000") 4
  (* Centro-oeste *)
  | MS => Z.shiftl (binary "10001") 9
  | MT => Z.shiftl (binary "10010") 9
  | GO => Z.shiftl (binary "10100") 9
  | DF => Z.shiftl (binary "11000") 9
  (* Nordeste *)
  | BA => Z.shiftl (binary "1000000001") 14
  | AL => Z.shiftl (binary "1000000010") 14
  | SE => Z.shiftl (binary "1000000100") 14
  | PE => Z.shiftl (binary "1000001000") 14
  | PB => Z.shiftl (binary "1000010000") 14
  | RN => Z.shiftl (binary "1000100000") 14
  | CE => Z.shiftl (binary "1001000000") 14
  | PI => Z.shiftl (binary "1010000000") 14
  | MA => Z.shiftl (binary "1100000000") 14
  (* Norte *)
  | TO => Z.shiftl (binary "10000001") 24
  | PA => Z.shiftl (binary "10000010") 24
  | AP => Z.shiftl (binary "10000100") 24
  | AM => Z.shiftl (binary "10001000") 24
  | RR => Z.shiftl (binary "10010000") 24
  | AC => Z.shiftl (binary "10100000") 24
  | RO => Z.shiftl (binary "11000000") 24
  (* Regions *)
  | SUL => SUL
  | SUDESTE => SUDESTE
  | CENTRO_OESTE => CENTRO_OESTE
  | NORDESTE => NORDESTE
  | NORTE => NORTE
  (* Masks *)
  | ANY_REGION => ANY_REGION
  | SUL_SUDESTE => Z.lor SUL SUDESTE
  | NORTE_NORDESTE => Z.lor NORTE NORDESTE
  | NON_SUL => Z.land ANY_REGION (Z.lnot SUL)
  | NON_SUDESTE => Z.land ANY_REGION (Z.lnot SUDESTE)
  | NON_CENTRO_OESTE => Z.land ANY_REGION (Z.lnot CENTRO_OESTE)
  | NON_NORDESTE => Z.land ANY_REGION (Z.lnot NORDESTE)
  | NON_NORTE => Z.land ANY_REGION (Z.lnot NORTE)
  end.

(** The states, the members that [STATE_NAMES] names. *)
Definition states : list State :=
  [ RO; AC; AM; RR; PA; AP; TO;
    MA; PI; CE; RN; PB; PE; AL; SE; BA;
    MG; ES; RJ; SP;
    PR; SC; RS;
    MS; MT; GO; DF ].

(** [bin(v).count('1')]: the ones among the binary digits of [v]; the
    digits of a negative number are those of its absolute value. *)
Fixpoint ones (p : positive) : nat :=
  match p with
  | xH => 1
  | xO p => ones p
  | xI p => S (ones p)
  end.

Definition count_ones (v : Z) : nat :=
  match v with
  | Z0 => 0
  | Zpos p | Zneg p => ones p
  end.

(** [items.sort(key=lambda x: x[1])]: a stable sort by the value. *)
Fixpoint insert_by_value (x : string * Z) (l : list (string * Z)) : list (string * Z) :=
  match l with
  | [] => [x]
  | y :: l' => if x.2 <? y.2 then x :: l else y :: insert_by_value x l'
  end.

Definition sort_by_value (l : list (string * Z)) : list (string * Z) :=
  foldl (fun sorted x => insert_by_value x sorted) [] l.

Section with_category.

(** What [for x in cls] yields: the name and the value of each member
    that the iteration of the class gives, in its order. *)
Variable cls : list (string * Z).

(** [items], sorted. *)
Definition items : list (string * Z) :=
  sort_by_value (filter (fun x => (count_ones x.2 <= 1)%nat) cls).

(** [to_cat = {y: x for x, y in items}] *)
Definition to_cat : gmap Z string :=
  foldl (fun m '(x, y) => <[y := x]> m) ∅ items.

(** [from_cat = dict(items)] *)
Definition from_cat : gmap string Z :=
  foldl (fun m '(x, y) => <[x := y]> m) ∅ items.

(** The categories of [cls.dtype]: [[x for x, y in items]]. *)
Definition categories : list string := map fst items.

(** [cls.to_category(self)], for the value of [self]; [None] is Python's
    [None]. *)
Definition to_category (value : Z) : option string := to_cat !! value.

(** [cls.from_category(cat)]: the member [cls(from_cat[cat])], by its
    value. *)
Definition from_category (cat : string) : result Z :=
  match from_cat !! cat with
  | Some value => Ok value
  | None => Raise (KeyError cat)
  end.

End with_category.

End Enums.

(** ** pnad/transformer/person.py: the codes of the states *)

Module Person.

(** What [convert] ends with: the array [out], or the [NameError] of a
    name that the module does not define. *)
Inductive converted : Type :=
| Out (out : list Z)
| NameError (name : string).

(** One round of the loop of [convert] for the entry [(prev, final)]:
    [mask_k = (data == prev)], [mask |= mask_k], [out[mask_k] = final]. *)
Definition convert_step (data : list float) (acc : list Z * list bool)
    (entry : Z * Enums.State) : list Z * list bool :=
  let '(out, mask) := acc in
  let '(prev, final) := entry in
  let mask_k := map (fun x => PrimFloat.eqb x (Frame.of_int prev)) data in
  (zip_with (fun (m : bool) o => if m then Enums.State_value final else o) mask_k out,
   zip_with orb mask mask_k).

(** [convert(data, map)] of [GeographicDataMixin.state], for an array
    [data] and the items of the dict [map] in their order.  [count] is
    not a name of the module, so that the call of it raises. *)
Definition convert (data : list float) (map : list (Z * Enums.State)) : converted :=
  let out := replicate (length data) 0 in
  let mask := replicate (length data) false in
  let '(out, mask) := foldl (convert_step data) (out, mask) map in
  if negb (forallb id mask) then NameError "count"
  else Out out.

End Person.

(** * Vocabulary of the statements *)

(** ** Year specifications *)

(** Entries ordered by their lower bound. *)
Definition lo_le (x y : Utils.triple) : Prop :=
  Utils.ext_leb (Utils.lo x) (Utils.lo y) = true.

(** The range of an entry. *)
Definition range (t : Utils.triple) : Utils.ext * Utils.ext := (Utils.lo t, Utils.hi t).

(** The interval of years that a key of a specification stands for, by
    its first and its last year: a single year stands for itself, a
    pair [(a, b)] for the years from [a] to [b], both included.  An end
    that is [None] or [...] is open: the interval has no first year, or
    no last one. *)
Definition year_of (a : Utils.bound) : option Z :=
  match a with Utils.Year y => Some y | _ => None end.

Definition interval (k : Utils.key) : option Z * option Z :=
  match k with
  | Utils.Single item => (year_of item, year_of item)
  | Utils.Pair a b => (year_of a, year_of b)
  end.

(** The year lies in the interval, its ends included. *)
Definition covers (year : Z) (i : option Z * option Z) : bool :=
  match i.1 with Some a => a <=? year | None => true end &&
  match i.2 with Some b => year <=? b | None => true end.

(** The order of the first years, an open start before every year, and
    of the last years, an open end after every year. *)
Definition starts_le (a a' : option Z) : Prop :=
  match a, a' with
  | None, _ => True
  | Some _, None => False
  | Some y, Some y' => y <= y'
  end.

Definition ends_le (b b' : option Z) : Prop :=
  match b, b' with
  | _, None => True
  | None, Some _ => False
  | Some y, Some y' => y <= y'
  end.

(** Intervals in the order of their first years and, for the same first
    year, of their last years. *)
Definition interval_le (i i' : option Z * option Z) : Prop :=
  starts_le i.1 i'.1 /\ (starts_le i'.1 i.1 -> ends_le i.2 i'.2).

(** No year lies in the intervals of two entries of the specification. *)
Definition non_overlapping (D : list (Utils.key * Utils.outcome)) : Prop :=
  forall i j e e' y, i <> j -> D !! i = Some e -> D !! j = Some e' ->
    covers y (interval e.1) = true -> covers y (interval e'.1) = false.

(** Entries of the normalized list in the order of their bounds. *)
Definition bounds_le (x y : Utils.triple) : Prop :=
  Utils.ext_leb (Utils.lo x) (Utils.lo y) = true /\
  (Utils.ext_leb (Utils.lo y) (Utils.lo x) = true ->
   Utils.ext_leb (Utils.hi x) (Utils.hi y) = true).

(** ** Arrays *)

(** The sentinel loop of [remove_missing] on a single number. *)
Definition mask_all (values : list float) (x : float) : float :=
  foldl (fun x value => Base.mask_value value x) x values.

(** The number is one of the sentinels, by [==]. *)
Definition is_sentinel (values : list float) (x : float) : bool :=
  existsb (PrimFloat.eqb x) values.

(** A row of the table: the [i]-th number of each array. *)
Definition row (i : nat) (arrays : list (list float)) (vs : list float) : Prop :=
  Forall2 (fun (x : list float) v => x !! i = Some v) arrays vs.

(** The rule of unit composition for one row, in the spec's words: the
    sum of the inputs with a missing one counted as 0, except that a row
    whose inputs are all missing is missing. *)
Definition na_sum (v0 : float) (vs : list float) : float :=
  if forallb PrimFloat.is_nan (v0 :: vs) then nan
  else foldl (fun r v => r + (if PrimFloat.is_nan v then 0 else v))%float
             (if PrimFloat.is_nan v0 then 0%float else v0) vs.

(** ** File names *)

(** No ["-"] in the string. *)
Fixpoint no_dash (s : string) : Prop :=
  match s with
  | EmptyString => True
  | String a s => a <> "-"%char /\ no_dash s
  end.

(** ** Sessions and calls *)

(** What a session may do to the proxy state: columns of the working
    frame stay as they are, and the loader is called only while there is
    no raw table, once. *)
Definition extends (T : Base.Transformer) (s s' : Base.session) : Prop :=
  (forall k c, Frame.get (Base.data s) k = Some c -> Frame.get (Base.data s') k = Some c) /\
  match Base.raw s with
  | Some t => Base.raw s' = Some t /\ Base.loads s' = Base.loads s
  | None => (Base.raw s' = None /\ Base.loads s' = Base.loads s) \/
            (Base.raw s' = Some (Base._loader T) /\ Base.loads s' = S (Base.loads s))
  end.

Definition no_cache_error {A} (r : result A) : Prop :=
  forall c, r <> Raise (CacheError c).

(** The result and state [x] of a computation started in [s]. *)
Definition good (T : Base.Transformer) {A} (s : Base.session)
    (x : result A * Base.session) : Prop :=
  extends T s x.2 /\ no_cache_error x.1.

(** The field has a file in the cache directory and is not [year]. *)
Definition cached (T : Base.Transformer) (st : Cache.store) (attr : string) : bool :=
  bool_decide (attr <> "year") &&
  bool_decide (is_Some (st !! Cache._path (Base.year T) attr)).

(** Appending a name that is not there yet. *)
Definition add_name (names : list string) (name : string) : list string :=
  if bool_decide (name ∈ names) then names else names ++ [name].

(** The table that [__call__] returns after its loop, from the working
    frame the loop left. *)
Definition sliced (T : Base.Transformer) (df : Frame.frame) : Frame.frame :=
  let df := if bool_decide ("year" ∈ Base._fields T)
            then Frame.set df "year"
                   (Frame.Broadcast (Frame.SNum (Frame.of_int (Base.year T))))
            else df in
  Frame.select df (filter (fun c => Frame.has df c) (Base._fields T)).

(** The call returns a table, and the table has no column [f]. *)
Definition returns_without_column (T : Base.Transformer) (limit : nat) (st : Cache.store)
    (f : string) : Prop :=
  exists out, Base.returned (Base.__call__ T limit st) = Ok out /\ f ∉ Frame.columns out.


(** * Sample data *)

(** The specification of the doctest of [select_by_year]. *)
Definition doctest_spec : list (Utils.key * Utils.outcome) :=
  [ (Utils.Pair Utils.Ellipsis (Utils.Year 1990), Utils.RawColumn "foo");
    (Utils.Single (Utils.Year 1991), Utils.RawColumn "bar");
    (Utils.Pair (Utils.Year 1992) (Utils.Year 2000), Utils.RawColumn "foobar");
    (Utils.Pair (Utils.Year 2001) Utils.Ellipsis, Utils.RawColumn "blah") ].

(** A specification of the catalog for a variable that exists from 1992
    on: [{(1992, ...): name, (..., 1990): None}]. *)
Definition since_1992 (name : string) : Base.field_spec :=
  Base.SpecYears
    [ (Utils.Pair (Utils.Year 1992) Utils.Ellipsis, Utils.RawColumn name);
      (Utils.Pair Utils.Ellipsis (Utils.Year 1990), Utils.Unavailable) ].

(** Fields of [IncomeDataMixin], [OccupationDataMixin] and
    [PersonTransformer], as the catalog declares them. *)
Definition person_fields : gmap string Base.attribute :=
  list_to_map
    [ ("income_retirement_other", Base.AnIncomeField (Base.Field_of (since_1992 "V1258")));
      ("occupation_year", Base.AField (Base.Field_of (since_1992 "V9971")));
      ("occupation_week", Base.AField (Base.Field_of (Base.SpecYears
         [ (Utils.Pair (Utils.Year 1992) Utils.Ellipsis, Utils.RawColumn "V9906");
           (Utils.Pair Utils.Ellipsis (Utils.Year 1990), Utils.RawColumn "V503") ])));
      ("occupation", Base.AFunction (fun _ => Base.Get Base.ByAttr "occupation_week" Base.Return));
      ("weight", Base.AField (Base.Field_of (Base.SpecYears
         [ (Utils.Pair (Utils.Year 1992) Utils.Ellipsis, Utils.RawColumn "V4729");
           (Utils.Single (Utils.Year 1990), Utils.RawColumn "V3091");
           (Utils.Pair (Utils.Year 1981) (Utils.Year 1989), Utils.RawColumn "V9991");
           (Utils.Single (Utils.Year 1979), Utils.RawColumn "V2999");
           (Utils.Single (Utils.Year 1978), Utils.RawColumn "V2997");
           (Utils.Single (Utils.Year 1977), Utils.RawColumn "V187");
           (Utils.Single (Utils.Year 1976), Utils.RawColumn "V2997") ])));
      ("weight_family", Base.AField (Base.Field_of (Base.SpecYears
         [ (Utils.Pair (Utils.Year 1992) Utils.Ellipsis, Utils.RawColumn "V4732");
           (Utils.Pair (Utils.Year 1981) (Utils.Year 1990), Utils.RawColumn "V9971");
           (Utils.Single (Utils.Year 1979), Utils.RawColumn "V2998");
           (Utils.Single (Utils.Year 1978), Utils.RawColumn "V2996") ]))) ].

(** A raw table of three rows for 1985, without the variable [V9971]. *)
Definition raw_1985 : Base.table :=
  list_to_map
    [ ("V9991", Frame.Values [10; -1; 3]%float);
      ("V503", Frame.Values [1; 2; 3]%float) ].

(** The person transformer for 1985 and the requested fields. *)
Definition person_1985 (fields : list string) : Base.Transformer :=
  {| Base.year := 1985; Base._fields := fields;
     Base.declared := person_fields; Base._loader := raw_1985 |}.

(** A frame of two columns. *)
Definition two_columns : Frame.frame :=
  [("age", Frame.Values [30; 41]%float); ("weight", Frame.Values [1; 2]%float)].

(** A transformer with a function field that looks whether another field
    is a column yet: [a] is [df.b if 'b' in df else None], and [b] reads
    the variable [V503]. *)
Definition looking_1985 (fields : list string) : Base.Transformer :=
  {| Base.year := 1985; Base._fields := fields;
     Base.declared :=
       list_to_map
         [ ("a", Base.AFunction (fun _ =>
                   Base.Contains "b" (fun present =>
                     if present then Base.Get Base.ByAttr "b" Base.Return
                     else Base.Return Frame.ObjNone)));
           ("b", Base.AField (Base.Field_of (Base.SpecName "V503"))) ];
     Base._loader := raw_1985 |}.

(** * Vocabulary of the further properties *)

(** The numbers a column holds: those of its array, or the one number
    that stands in every row. *)
Definition numbers (c : Frame.column) : list float :=
  match c with
  | Frame.Values a => a
  | Frame.Broadcast (Frame.SNum x) => [x]
  | Frame.Broadcast Frame.SNone => []
  end.

(** No number of the column is equal to a sentinel of
    [IncomeField.remove_missing]. *)
Definition no_sentinel (c : Frame.column) : Prop :=
  Forall (fun x => is_sentinel Base.missing_values x = false) (numbers c).

(** The column is an array of [n] rows. *)
Definition has_rows (n : nat) (c : Frame.column) : Prop :=
  exists a, c = Frame.Values a /\ length a = n.

(** The name of a raw variable of the survey: [V] and digits.  The data
    frame and the transformer have no attribute of such a name. *)
Definition is_digit (c : ascii) : bool :=
  (48 <=? nat_of_ascii c)%nat && (nat_of_ascii c <=? 57)%nat.

Definition raw_name (item : string) : bool :=
  match item with
  | String "V" (String c rest) => forallb is_digit (c :: String.list_ascii_of_string rest)
  | _ => false
  end.

(** Running the body of a function field reads a name of [dead], or
    raises, before it can return. *)
Inductive stuck (dead : string -> Prop) : Base.prog -> Prop :=
| stuck_throw (e : builtin) : stuck dead (Base.Throw e)
| stuck_dead (by_ : Base.access) (item : string) (k : Frame.pyobj -> Base.prog) :
    dead item -> stuck dead (Base.Get by_ item k)
| stuck_get (by_ : Base.access) (item : string) (k : Frame.pyobj -> Base.prog) :
    (forall v, stuck dead (k v)) -> stuck dead (Base.Get by_ item k)
| stuck_contains (item : string) (k : bool -> Base.prog) :
    (forall b, stuck dead (k b)) -> stuck dead (Base.Contains item k).

(** The names of [dead] cannot be resolved by the proxy of [T]: each is
    neither an attribute of the transformer nor a raw column, or an
    attribute that is not callable, or a function field whose body is
    stuck on the names of [dead]. *)
Definition dead_names (T : Base.Transformer) (dead : string -> Prop) : Prop :=
  forall x, dead x ->
    (Base.transformer_getattr T x = None /\ Base._loader T !! x = None) \/
    Base.transformer_getattr T x = Some Base.NotCallable \/
    exists func, Base.transformer_getattr T x = Some (Base.AFunction func) /\
                 stuck dead (func (Base.year T)).

(** A session of [T] in which no name of [dead] is a column of the
    working frame, and the raw table, if loaded, is the loader's. *)
Definition unresolved (T : Base.Transformer) (dead : string -> Prop) (s : Base.session) : Prop :=
  (forall x, dead x -> Frame.get (Base.data s) x = None) /\
  (Base.raw s = None \/ Base.raw s = Some (Base._loader T)).

(** * Further sample data *)

(** The person transformer for 1980, a year for which [weight] has no
    range, over the same raw table. *)
Definition person_1980 (fields : list string) : Base.Transformer :=
  {| Base.year := 1980; Base._fields := fields;
     Base.declared := person_fields; Base._loader := raw_1985 |}.

(** The year specification of [weight] in [PersonTransformer]. *)
Definition weight_years : list (Utils.key * Utils.outcome) :=
  [ (Utils.Pair (Utils.Year 1992) Utils.Ellipsis, Utils.RawColumn "V4729");
    (Utils.Single (Utils.Year 1990), Utils.RawColumn "V3091");
    (Utils.Pair (Utils.Year 1981) (Utils.Year 1989), Utils.RawColumn "V9991");
    (Utils.Single (Utils.Year 1979), Utils.RawColumn "V2999");
    (Utils.Single (Utils.Year 1978), Utils.RawColumn "V2997");
    (Utils.Single (Utils.Year 1977), Utils.RawColumn "V187");
    (Utils.Single (Utils.Year 1976), Utils.RawColumn "V2997") ].

(** The names on which [income_capital] and [income] depend without
    their being resolvable: [income_capital] reads
    [df.income_investiments], and [income] reads [df.income_capital]. *)
Definition income_dead (x : string) : Prop :=
  x = "income_investiments" \/ x = "income_capital" \/ x = "income".

(** A person transformer for 1985 with the fields of [IncomeDataMixin]. *)
Definition income_1985 (fields : list string) : Base.Transformer :=
  {| Base.year := 1985; Base._fields := fields;
     Base.declared := Catalog.IncomeDataMixin; Base._loader := raw_1985 |}.

(** The raw-mapped fields and the sums of economy.py, and the weights of
    person.py. *)
Definition catalog : gmap string Base.attribute :=
  Catalog.IncomeDataMixin ∪ Catalog.OccupationDataMixin ∪ Catalog.PersonTransformer_weights.

(** The year specification of a [Field] or [IncomeField]. *)
Definition year_spec (a : Base.attribute) : option (list (Utils.key * Utils.outcome)) :=
  match a with
  | Base.AField f | Base.AnIncomeField f =>
      match Base.spec f with
      | Base.SpecYears D => Some D
      | _ => None
      end
  | _ => None
  end.

(** The specification can be sorted, selects an entry for each year from
    1981 to 1990, and has an entry that starts by 1992 and has no end. *)
Definition covers_the_surveys (D : list (Utils.key * Utils.outcome)) : bool :=
  Utils.comparable (map Utils.normalize D) &&
  forallb (fun y => is_ok (Utils.select_by_year y D)) (seqZ 1981 10) &&
  existsb (fun t => Utils.ext_leb (Utils.lo t) (Utils.Fin 1992) &&
                    Utils.ext_eqb (Utils.hi t) Utils.PosInf)
          (map Utils.normalize D).

(** The year specification of [income_investments]. *)
Definition income_investments_years : list (Utils.key * Utils.outcome) :=
  [ (Catalog.since 1992, Utils.RawColumn "V1273"); (Catalog.upto 1990, Utils.Unavailable);
    (Catalog.only 1979, Utils.RawColumn "V2361"); (Catalog.only 1978, Utils.RawColumn "V2483");
    (Catalog.only 1977, Utils.RawColumn "V95"); (Catalog.only 1976, Utils.Unavailable) ].

(** No number of the column is below zero. *)
Definition never_negative (c : Frame.column) : Prop :=
  Forall (fun x => PrimFloat.ltb x 0 = false) (numbers c).

(** The member that the dict [map] of [convert] has for the code [x]:
    that of the last entry whose key is equal to [x]. *)
Definition state_of (map : list (Z * Enums.State)) (x : float) : option Enums.State :=
  foldl (fun found '(prev, final) =>
           if PrimFloat.eqb x (Frame.of_int prev) then Some final else found)
        None map.

#[global] Instance State_eq_dec : EqDecision Enums.State.
Proof. solve_decision. Defined.

(** The states of the five regions. *)
Definition states_of (region : Enums.State) : list Enums.State :=
  match region with
  | Enums.SUL => [Enums.RS; Enums.SC; Enums.PR]
  | Enums.SUDESTE => [Enums.SP; Enums.RJ; Enums.MG; Enums.ES]
  | Enums.CENTRO_OESTE => [Enums.MS; Enums.MT; Enums.GO; Enums.DF]
  | Enums.NORDESTE =>
      [Enums.BA; Enums.AL; Enums.SE; Enums.PE; Enums.PB; Enums.RN; Enums.CE; Enums.PI; Enums.MA]
  | Enums.NORTE => [Enums.TO; Enums.PA; Enums.AP; Enums.AM; Enums.RR; Enums.AC; Enums.RO]
  | _ => []
  end.

(** [state & region] is not zero. *)
Definition in_region (state region : Enums.State) : bool :=
  negb (Z.land (Enums.State_value state) (Enums.State_value region) =? 0).

(** One round of the loop of [convert], for the row of the code [x]. *)
Definition row_step (x : float) (acc : Z * bool) (entry : Z * Enums.State) : Z * bool :=
  let mask_k := PrimFloat.eqb x (Frame.of_int entry.1) in
  (if mask_k then Enums.State_value entry.2 else acc.1, acc.2 || mask_k).

(** * Proofs *)

Example select_by_year_doctest :
  Utils.select_by_year 1990 doctest_spec = Ok (Utils.RawColumn "foo") /\
  Utils.select_by_year 1991 doctest_spec = Ok (Utils.RawColumn "bar") /\
  Utils.select_by_year 1999 doctest_spec = Ok (Utils.RawColumn "foobar") /\
  Utils.select_by_year 2010 doctest_spec = Ok (Utils.RawColumn "blah").
Proof. vm_compute. auto. Qed.

(** ** Facts about [select_by_year] *)

Section select_by_year_facts.
Import Utils.

Lemma ext_leb_refl x : ext_leb x x = true.
Proof. destruct x; unfold ext_leb; simpl; auto. rewrite Z.eqb_refl. apply orb_true_r. Qed.

Lemma ext_leb_trans x y z :
  ext_leb x y = true -> ext_leb y z = true -> ext_leb x z = true.
Proof.
  unfold ext_leb. destruct x, y, z; simpl; try done.
  rewrite !orb_true_iff, !Z.ltb_lt, !Z.eqb_eq. lia.
Qed.

Lemma ext_ltb_leb x y : ext_ltb x y = true -> ext_leb x y = true.
Proof. unfold ext_leb. intros ->. done. Qed.

Lemma ext_not_ltb_leb x y : ext_ltb x y = false -> ext_leb y x = true.
Proof.
  unfold ext_leb. destruct x, y; simpl; try done.
  rewrite Z.ltb_ge, orb_true_iff, Z.ltb_lt, Z.eqb_eq. lia.
Qed.

Lemma ext_eqb_leb x y : ext_eqb x y = true -> ext_leb y x = true.
Proof.
  unfold ext_leb. destruct x, y; simpl; try done.
  rewrite orb_true_iff, !Z.eqb_eq. auto.
Qed.

#[local] Instance lo_le_trans : Transitive lo_le.
Proof. intros x y z. apply ext_leb_trans. Qed.

Lemma tuple_lt_lo x y : default false (tuple_lt x y) = true -> lo_le x y.
Proof.
  unfold tuple_lt, lo_le.
  destruct (ext_eqb (lo x) (lo y)) eqn:E; simpl.
  - intros _. destruct (lo x), (lo y); simpl in *; try done.
    unfold ext_leb; simpl. rewrite E. apply orb_true_r.
  - apply ext_ltb_leb.
Qed.

Lemma tuple_not_lt_lo x y : default false (tuple_lt x y) = false -> lo_le y x.
Proof.
  unfold tuple_lt, lo_le.
  destruct (ext_eqb (lo x) (lo y)) eqn:E; simpl.
  - intros _. by apply ext_eqb_leb.
  - apply ext_not_ltb_leb.
Qed.

Lemma insert_sorted_perm x l : insert_sorted x l ≡ₚ x :: l.
Proof.
  induction l as [|y l IH]; simpl; [done|].
  destruct (default false (tuple_lt x y)); [done|].
  rewrite IH. apply Permutation_swap.
Qed.

Lemma sorted_spec_perm l : sorted_spec l ≡ₚ l.
Proof.
  unfold sorted_spec. rewrite <- (reverse_Permutation l) at 2.
  induction (reverse l) as [|x r IH]; simpl; [done|].
  by rewrite insert_sorted_perm, IH.
Qed.

Lemma insert_sorted_hd x y l :
  lo_le y x -> HdRel lo_le y l -> HdRel lo_le y (insert_sorted x l).
Proof.
  intros Hyx Hl. destruct l as [|z l]; simpl; [by constructor|].
  destruct (default false (tuple_lt x z)); constructor; [done|].
  by inversion Hl.
Qed.

Lemma insert_sorted_sorted x l :
  Sorted lo_le l -> Sorted lo_le (insert_sorted x l).
Proof.
  induction 1 as [|y l Hl IH Hhd]; simpl.
  - repeat constructor.
  - destruct (default false (tuple_lt x y)) eqn:E.
    + constructor; [by constructor|]. constructor. by apply tuple_lt_lo.
    + constructor; [done|]. apply insert_sorted_hd; [|done].
      by apply tuple_not_lt_lo.
Qed.

Lemma sorted_spec_sorted l : StronglySorted lo_le (sorted_spec l).
Proof.
  apply Sorted_StronglySorted; [apply _|].
  unfold sorted_spec. induction (reverse l) as [|x r IH]; simpl.
  - constructor.
  - by apply insert_sorted_sorted.
Qed.

Lemma first_match_find year spec :
  first_match year spec =
    match find (contains year) spec with
    | Some t => Ok (value t)
    | None => Raise (ValueError "no valid range for year")
    end.
Proof.
  induction spec as [|t rest IH]; simpl; [done|].
  by destruct (contains year t).
Qed.

Lemma ext_eqb_eq x y : ext_eqb x y = true <-> x = y.
Proof.
  destruct x as [|a|], y as [|b|]; simpl; try (split; congruence).
  rewrite Z.eqb_eq. split; congruence.
Qed.

Lemma tuple_lt_refl x : tuple_lt x x = Some false.
Proof.
  unfold tuple_lt. rewrite !(proj2 (ext_eqb_eq _ _)) by done. simpl.
  assert (outcome_eqb (value x) (value x) = true) as ->; [|done].
  destruct (value x); simpl; [done|by apply bool_decide_eq_true_2|apply Z.eqb_refl].
Qed.

(** Entries whose ranges all differ can be sorted: the spec's invariant
    of a year specification gives this for ranges that are not empty. *)
Lemma distinct_ranges_comparable (l : list triple) :
  NoDup (map range l) -> comparable l = true.
Proof.
  intros Hnd. unfold comparable. apply forallb_forall. intros x Hx.
  apply forallb_forall. intros y Hy. apply bool_decide_eq_true.
  apply list_elem_of_In in Hx, Hy.
  unfold tuple_lt. destruct (ext_eqb (lo x) (lo y)) eqn:E1; simpl; [|by eexists].
  destruct (ext_eqb (hi x) (hi y)) eqn:E2; simpl; [|by eexists].
  apply ext_eqb_eq in E1, E2.
  assert (range x = range y) as Heq by (unfold range; congruence).
  assert (x = y) as ->.
  { clear -Hnd Hx Hy Heq. induction l as [|z l IH]; [by apply elem_of_nil in Hx|].
    simpl in Hnd. apply NoDup_cons in Hnd as [Hz Hnd].
    apply elem_of_cons in Hx as [->|Hx], Hy as [->|Hy]; [done| | |by apply IH].
    - destruct Hz. rewrite Heq. change (map range l) with (range <$> l).
      by apply list_elem_of_fmap_2.
    - destruct Hz. rewrite <- Heq. change (map range l) with (range <$> l).
      by apply list_elem_of_fmap_2. }
  assert (outcome_eqb (value y) (value y) = true) as ->; [|by eexists].
  destruct (value y); simpl; [done|by apply bool_decide_eq_true_2|apply Z.eqb_refl].
Qed.

Lemma lo_normalize (e : key * outcome) :
  lo (normalize e) = match (interval e.1).1 with Some y => Fin y | None => NegInf end.
Proof. by destruct e as [[[y| |]|[y| |] b] v]. Qed.

Lemma hi_normalize (e : key * outcome) :
  hi (normalize e) = match (interval e.1).2 with Some y => Fin y | None => PosInf end.
Proof. by destruct e as [[[y| |]|a [y| |]] v]. Qed.

Lemma value_normalize (e : key * outcome) : value (normalize e) = e.2.
Proof. by destruct e as [[item|a b] v]. Qed.

Lemma ext_leb_Fin_Fin (a b : Z) : ext_leb (Fin a) (Fin b) = (a <=? b).
Proof.
  unfold ext_leb. simpl.
  destruct (Z.ltb_spec a b), (Z.eqb_spec a b), (Z.leb_spec a b); simpl; try reflexivity; lia.
Qed.

Lemma contains_covers (year : Z) (e : key * outcome) :
  contains year (normalize e) = covers year (interval e.1).
Proof.
  unfold contains, covers. rewrite lo_normalize, hi_normalize.
  destruct (interval e.1) as [[a|] [b|]]; cbn [fst snd]; by rewrite ?ext_leb_Fin_Fin.
Qed.

Lemma bounds_le_interval (e e' : key * outcome) :
  bounds_le (normalize e) (normalize e') -> interval_le (interval e.1) (interval e'.1).
Proof.
  unfold bounds_le, interval_le. rewrite !lo_normalize, !hi_normalize.
  destruct (interval e.1) as [[a|] [b|]], (interval e'.1) as [[a'|] [b'|]]; cbn [fst snd];
    rewrite ?ext_leb_Fin_Fin; unfold starts_le, ends_le; intros [H1 H2];
    (split; [first [done | by apply Z.leb_le]|]); intros H3;
    first [done | apply Z.leb_le, H2; first [done | by apply Z.leb_le]
          | (by discriminate H2; first [done | by apply Z.leb_le]) ].
Qed.

#[local] Instance bounds_le_trans : Transitive bounds_le.
Proof.
  intros x y z [H1 H2] [H3 H4]. split; [by eapply ext_leb_trans|]. intros H5.
  eapply ext_leb_trans.
  - apply H2. by eapply ext_leb_trans.
  - apply H4. by eapply ext_leb_trans.
Qed.

Lemma tuple_lt_bounds (x y : triple) :
  default false (tuple_lt x y) = true -> bounds_le x y.
Proof.
  unfold tuple_lt, bounds_le.
  destruct (ext_eqb (lo x) (lo y)) eqn:E1; simpl.
  - apply ext_eqb_eq in E1. rewrite E1. intros H. split; [apply ext_leb_refl|]. intros _.
    destruct (ext_eqb (hi x) (hi y)) eqn:E2; simpl in H.
    + apply ext_eqb_eq in E2. rewrite E2. apply ext_leb_refl.
    + by apply ext_ltb_leb.
  - intros H. split; [by apply ext_ltb_leb|]. intros H'.
    destruct (lo x), (lo y); simpl in *; try done.
    unfold ext_leb in H'. simpl in H'. rewrite orb_true_iff, Z.ltb_lt, Z.eqb_eq in H'.
    rewrite Z.ltb_lt in H. rewrite Z.eqb_neq in E1. lia.
Qed.

Lemma tuple_not_lt_bounds (x y : triple) :
  default false (tuple_lt x y) = false -> bounds_le y x.
Proof.
  unfold tuple_lt, bounds_le.
  destruct (ext_eqb (lo x) (lo y)) eqn:E1; simpl.
  - apply ext_eqb_eq in E1. rewrite E1. intros H. split; [apply ext_leb_refl|]. intros _.
    destruct (ext_eqb (hi x) (hi y)) eqn:E2; simpl in H.
    + apply ext_eqb_eq in E2. rewrite E2. apply ext_leb_refl.
    + by apply ext_not_ltb_leb.
  - intros H. split; [by apply ext_not_ltb_leb|]. intros H'.
    destruct (lo x), (lo y); simpl in *; try done.
    unfold ext_leb in H'. simpl in H'. rewrite orb_true_iff, Z.ltb_lt, Z.eqb_eq in H'.
    rewrite Z.ltb_ge in H. rewrite Z.eqb_neq in E1. lia.
Qed.

Lemma insert_sorted_bounds_hd (x y : triple) (l : list triple) :
  bounds_le y x -> HdRel bounds_le y l -> HdRel bounds_le y (insert_sorted x l).
Proof.
  intros Hyx Hl. destruct l as [|z l]; simpl; [by constructor|].
  destruct (default false (tuple_lt x z)); constructor; [done|].
  by inversion Hl.
Qed.

Lemma insert_sorted_bounds (x : triple) (l : list triple) :
  Sorted bounds_le l -> Sorted bounds_le (insert_sorted x l).
Proof.
  induction 1 as [|y l Hl IH Hhd]; simpl.
  - repeat constructor.
  - destruct (default false (tuple_lt x y)) eqn:E.
    + constructor; [by constructor|]. constructor. by apply tuple_lt_bounds.
    + constructor; [done|]. apply insert_sorted_bounds_hd; [|done].
      by apply tuple_not_lt_bounds.
Qed.

Lemma sorted_spec_bounds (l : list triple) : StronglySorted bounds_le (sorted_spec l).
Proof.
  apply Sorted_StronglySorted; [apply _|].
  unfold sorted_spec. induction (reverse l) as [|x r IH]; simpl.
  - constructor.
  - by apply insert_sorted_bounds.
Qed.

Lemma sorted_entries (D : list (key * outcome)) :
  exists sorted, sorted ≡ₚ D /\ map normalize sorted = sorted_spec (map normalize D).
Proof.
  destruct (@Permutation_map_inv _ _ normalize (sorted_spec (map normalize D)) D)
    as (sorted & Heq & Hperm); [apply sorted_spec_perm|].
  exists sorted. split; [by symmetry|by symmetry].
Qed.

Lemma sorted_by_interval (l : list (key * outcome)) :
  StronglySorted bounds_le (map normalize l) ->
  StronglySorted (fun e e' => interval_le (interval e.1) (interval e'.1)) l.
Proof.
  induction l as [|e l IH]; simpl; [constructor|].
  intros H. apply StronglySorted_inv in H as [Hl He]. constructor; [by apply IH|].
  apply Forall_forall. intros e' He'. apply bounds_le_interval.
  rewrite Forall_forall in He. apply He.
  change (map normalize l) with (normalize <$> l). by apply list_elem_of_fmap_2.
Qed.

Lemma find_normalize (year : Z) (l : list (key * outcome)) :
  find (contains year) (map normalize l)
  = option_map normalize (find (fun e => covers year (interval e.1)) l).
Proof.
  induction l as [|e l IH]; simpl; [done|].
  rewrite contains_covers. by destruct (covers year (interval e.1)).
Qed.

Lemma distinct_intervals_comparable (D : list (key * outcome)) :
  NoDup (map (fun entry => interval entry.1) D) -> comparable (map normalize D) = true.
Proof.
  intros Hnd. apply distinct_ranges_comparable.
  induction D as [|e D IH]; simpl; [constructor|].
  simpl in Hnd. apply NoDup_cons in Hnd as [He Hnd]. apply NoDup_cons. split; [|by apply IH].
  intros Hin. destruct He.
  change (map range (map normalize D)) with (range <$> (normalize <$> D)) in Hin.
  apply list_elem_of_fmap in Hin as (t & Ht & Hin).
  apply list_elem_of_fmap in Hin as (e' & -> & Hin).
  change (map (fun entry => interval entry.1) D) with ((fun entry => interval entry.1) <$> D).
  apply list_elem_of_fmap. exists e'. split; [|done].
  unfold range in Ht. injection Ht as Hlo Hhi.
  rewrite !lo_normalize in Hlo. rewrite !hi_normalize in Hhi.
  destruct (interval e.1) as [[a|] [b|]], (interval e'.1) as [[a'|] [b'|]];
    cbn [fst snd] in *; congruence.
Qed.

(** Intervals that are not empty and do not overlap are distinct. *)
Lemma non_overlapping_distinct (D : list (key * outcome)) :
  Forall (fun e => exists y, covers y (interval e.1) = true) D ->
  non_overlapping D ->
  NoDup (map (fun entry => interval entry.1) D).
Proof.
  intros Hne Hno. apply NoDup_alt. intros i j x Hi Hj.
  change (map (fun entry => interval entry.1) D)
    with ((fun entry : key * outcome => interval entry.1) <$> D) in Hi, Hj.
  rewrite list_lookup_fmap in Hi, Hj.
  destruct (D !! i) as [e|] eqn:Ei; [|done]. destruct (D !! j) as [e'|] eqn:Ej; [|done].
  simpl in Hi, Hj. injection Hi as Hi. injection Hj as Hj.
  destruct (decide (i = j)) as [|Hij]; [done|]. exfalso.
  destruct (proj1 (Forall_lookup _ D) Hne i e Ei) as [y Hy].
  pose proof (Hno i j e e' y Hij Ei Ej Hy) as Hy'.
  rewrite Hj, <- Hi, Hy in Hy'. discriminate.
Qed.

End select_by_year_facts.

(** C4. For a specification that has one outcome for each interval, no
    two entries standing for the same interval of years (a single year
    [y] is the interval from [y] to [y], and [None] or [...] is an open
    end; intervals that do not overlap are such),
    [select_by_year year D] goes through the entries sorted by
    their first year, an open start first, and for the same first year
    by their last year: it returns the outcome of the first entry whose
    interval [a <= year <= b] contains the year, and raises the
    [ValueError] "no valid range" when none does. *)
Theorem select_by_year_first_interval (year : Z) (D : list (Utils.key * Utils.outcome)) :
  NoDup (map (fun entry => interval entry.1) D) ->
  exists sorted : list (Utils.key * Utils.outcome),
    sorted ≡ₚ D /\
    StronglySorted (fun e e' => interval_le (interval e.1) (interval e'.1)) sorted /\
    Utils.select_by_year year D =
      match find (fun e => covers year (interval e.1)) sorted with
      | Some e => Ok e.2
      | None => Raise (ValueError "no valid range for year")
      end.
Proof.
  intros Hnd. destruct (sorted_entries D) as (sorted & Hperm & Hsorted).
  exists sorted. split; [done|]. split.
  - apply sorted_by_interval. rewrite Hsorted. apply sorted_spec_bounds.
  - unfold Utils.select_by_year, Utils.list_sort.
    rewrite (distinct_intervals_comparable D Hnd), first_match_find, <- Hsorted, find_normalize.
    destruct (find _ sorted) as [e|]; simpl; [|done]. by rewrite value_normalize.
Qed.

Lemma select_by_year_first_interval_witness :
  exists sorted : list (Utils.key * Utils.outcome),
    sorted ≡ₚ doctest_spec /\
    StronglySorted (fun e e' => interval_le (interval e.1) (interval e'.1)) sorted /\
    Utils.select_by_year 1999 doctest_spec =
      match find (fun e => covers 1999 (interval e.1)) sorted with
      | Some e => Ok e.2
      | None => Raise (ValueError "no valid range for year")
      end.
Proof.
  apply (select_by_year_first_interval 1999 doctest_spec).
  apply (bool_decide_unpack _). vm_compute. reflexivity.
Defined.

(** Why each interval needs one outcome: the sort compares the outcomes
    of two entries for the same interval, and [<] does not order [None]
    and a column name, so that the [TypeError] leaves the call. *)
Example select_by_year_unordered :
  Utils.select_by_year 1990
    [ (Utils.Single (Utils.Year 1990), Utils.Unavailable);
      (Utils.Pair (Utils.Year 1990) (Utils.Year 1990), Utils.RawColumn "V1") ]
  = Raise (TypeError "'<' not supported").
Proof. reflexivity. Qed.

(** ** Facts about the array functions *)

Section array_facts.
Import Frame Base.

Lemma mask_all_nan values : mask_all values nan = nan.
Proof.
  induction values as [|v values IH]; simpl; [done|].
  unfold mask_all in *. simpl. unfold mask_value at 2.
  by destruct (PrimFloat.eqb nan v).
Qed.

Lemma mask_all_spec values x :
  mask_all values x = if is_sentinel values x then nan else x.
Proof.
  revert x. induction values as [|v values IH]; intros x; simpl; [done|].
  unfold mask_all in *. simpl. unfold mask_value at 2.
  destruct (PrimFloat.eqb x v); simpl.
  - apply mask_all_nan.
  - apply IH.
Qed.

Lemma col_map_fold values a :
  foldl (fun lst value => col_map (mask_value value) lst) (Values a) values
  = Values (map (mask_all values) a).
Proof.
  revert a. induction values as [|v values IH]; intros a; simpl.
  - by rewrite map_id.
  - rewrite IH, map_map. done.
Qed.

Lemma where_isnan x :
  where_ (isnan x) 0 x = map (fun v => if PrimFloat.is_nan v then 0%float else v) x.
Proof.
  unfold where_, isnan. induction x as [|v x IH]; simpl; [done|]. by rewrite IH.
Qed.

Lemma fold_zip_with_lookup {A B} (g : A -> B -> A) (h : list float -> list B)
    (h1 : float -> B) (i : nat) others vs acc a :
  (forall x v, x !! i = Some v -> h x !! i = Some (h1 v)) ->
  row i others vs ->
  acc !! i = Some a ->
  foldl (fun r x => zip_with g r (h x)) acc others !! i
  = Some (foldl (fun r v => g r (h1 v)) a vs).
Proof.
  intros Hh Hrow. revert acc a.
  induction Hrow as [|x v others vs Hx _ IH]; intros acc a Hacc; simpl; [done|].
  apply IH. rewrite lookup_zip_with, Hacc. simpl.
  by rewrite (Hh _ _ Hx).
Qed.

Lemma fold_zip_with_length {A B} (g : A -> B -> A) (h : list float -> list B)
    (n : nat) others (acc : list A) :
  (forall x, length (h x) = length x) ->
  Forall (fun x : list float => length x = n) others ->
  length acc = n ->
  length (foldl (fun r x => zip_with g r (h x)) acc others) = n.
Proof.
  intros Hh Hall. revert acc.
  induction Hall as [|x others Hx _ IH]; intros acc Hacc; simpl; [done|].
  apply IH. rewrite length_zip_with, Hh. lia.
Qed.

End array_facts.

Lemma fold_andb_forallb (b : bool) (vs : list float) :
  foldl (fun r v => r && PrimFloat.is_nan v) b vs = b && forallb PrimFloat.is_nan vs.
Proof.
  revert b. induction vs as [|v vs IH]; intros b; simpl.
  - by rewrite andb_true_r.
  - by rewrite IH, andb_assoc.
Qed.

(** C1. For arrays of one length, [sum_na] has that length and each of
    its rows is the sum of the inputs of the row with NaN counted as 0,
    or NaN when every input of the row is NaN; so [nan, 5, nan] and
    [nan, nan, 3] compose to [nan, 5, 3], and [nan, nan] with [nan, nan]
    to [nan, nan]. *)
Theorem sum_na_rows (x0 : list float) (others : list (list float)) :
  Forall (fun x : list float => length x = length x0) others ->
  length (Base.sum_na x0 others) = length x0 /\
  (forall i v0 vs, x0 !! i = Some v0 -> row i others vs ->
     Base.sum_na x0 others !! i = Some (na_sum v0 vs)) /\
  Base.sum_na [nan; 5; nan]%float [[nan; nan; 3]%float] = [nan; 5; 3]%float /\
  Base.sum_na [nan; nan] [[nan; nan]] = [nan; nan].
Proof.
  intros Hlen. split; [|split; [|by vm_compute]].
  - unfold Base.sum_na. rewrite length_zip_with.
    rewrite (fold_zip_with_length andb Base.isnan (length x0)); try done.
    + rewrite (fold_zip_with_length PrimFloat.add
                 (fun x => Base.where_ (Base.isnan x) 0 x) (length x0)); try done.
      * lia.
      * intros x. by rewrite where_isnan, length_map.
      * by rewrite where_isnan, length_map.
    + intros x. unfold Base.isnan. by rewrite length_map.
    + unfold Base.isnan. by rewrite length_map.
  - intros i v0 vs Hv0 Hrow. unfold Base.sum_na.
    rewrite lookup_zip_with.
    rewrite (fold_zip_with_lookup andb Base.isnan PrimFloat.is_nan i others vs
               _ (PrimFloat.is_nan v0)); try done.
    + rewrite (fold_zip_with_lookup PrimFloat.add
                 (fun x => Base.where_ (Base.isnan x) 0 x)
                 (fun v => if PrimFloat.is_nan v then 0%float else v) i others vs
                 _ (if PrimFloat.is_nan v0 then 0%float else v0)); try done.
      * simpl. unfold na_sum. simpl. by rewrite fold_andb_forallb.
      * intros x v Hx. rewrite where_isnan.
        change (map ?f x) with (f <$> x). by rewrite list_lookup_fmap, Hx.
      * rewrite where_isnan.
        change (map ?f x0) with (f <$> x0). by rewrite list_lookup_fmap, Hv0.
    + intros x v Hx. unfold Base.isnan.
      change (map ?f x) with (f <$> x). by rewrite list_lookup_fmap, Hx.
    + unfold Base.isnan.
      change (map ?f x0) with (f <$> x0). by rewrite list_lookup_fmap, Hv0.
Qed.

Lemma sum_na_rows_witness :
  length (Base.sum_na [nan; 5; nan]%float [[nan; nan; 3]%float]) = 3%nat /\
  (forall i v0 vs, [nan; 5; nan]%float !! i = Some v0 -> row i [[nan; nan; 3]%float] vs ->
     Base.sum_na [nan; 5; nan]%float [[nan; nan; 3]%float] !! i = Some (na_sum v0 vs)) /\
  Base.sum_na [nan; 5; nan]%float [[nan; nan; 3]%float] = [nan; 5; 3]%float /\
  Base.sum_na [nan; nan] [[nan; nan]] = [nan; nan].
Proof.
  apply (sum_na_rows [nan; 5; nan]%float [[nan; nan; 3]%float]).
  repeat constructor.
Defined.

(** C5. [IncomeField.remove_missing] turns each number equal to one of
    [-1, 999999, 9999999, 99999999, 999999999, 999999999999] into NaN and
    leaves every other number as it is; the cleaning of [Field.transform]
    does the same for the one sentinel of the field; [10, -1, 999999, 42]
    becomes [10, nan, nan, 42]. *)
Theorem remove_missing_sentinels :
  (forall a : list float,
     Base.remove_missing (Frame.Values a)
     = Frame.Values (map (fun x => if is_sentinel Base.missing_values x then nan else x) a)) /\
  (forall df (f : Base.Field) field m a s s',
     Base.missing f = Some m ->
     df Base.ByItem field s = (Ok (Frame.ObjCol (Frame.Values a)), s') ->
     Base.read_field df f field s
     = (Ok (Frame.ObjCol (Frame.Values (map (fun x => if PrimFloat.eqb x m then nan else x) a))), s')) /\
  Base.remove_missing (Frame.Values [10; -1; 999999; 42]%float)
  = Frame.Values [10; nan; nan; 42]%float.
Proof.
  split; [|split; [|by vm_compute]].
  - intros a. unfold Base.remove_missing. simpl Base.asfarray.
    rewrite col_map_fold. f_equal. apply map_ext. intros x. apply mask_all_spec.
  - intros df f field m a s s' Hm Hdf. unfold Base.read_field.
    by rewrite Hdf, Hm.
Qed.

(** ** Facts about file names *)

Section path_facts.

Lemma str_app_nil (s : string) : "" +:+ s = s.
Proof. reflexivity. Qed.

Lemma str_app_cons (a : ascii) (s t : string) : String a s +:+ t = String a (s +:+ t).
Proof. reflexivity. Qed.

Lemma str_app_assoc (a b c : string) : (a +:+ b) +:+ c = a +:+ b +:+ c.
Proof. induction a as [|x a IH]; [done|]. by rewrite !str_app_cons, IH. Qed.

Lemma str_app_length (a b : string) :
  String.length (a +:+ b) = (String.length a + String.length b)%nat.
Proof. induction a as [|x a IH]; [done|]. rewrite str_app_cons. simpl. by rewrite IH. Qed.

Lemma str_app_inj_r (a b t : string) : a +:+ t = b +:+ t -> a = b.
Proof.
  revert b. induction a as [|x a IH]; intros [|y b] H.
  - done.
  - apply (f_equal String.length) in H. rewrite !str_app_length in H. simpl in H. lia.
  - apply (f_equal String.length) in H. rewrite !str_app_length in H. simpl in H. lia.
  - rewrite !str_app_cons in H. injection H as -> H. f_equal. by apply IH.
Qed.

Lemma no_dash_app (a b : string) : no_dash (a +:+ "-" +:+ b) -> False.
Proof.
  induction a as [|x a IH].
  - rewrite str_app_nil. simpl. intros [H _]. by apply H.
  - rewrite str_app_cons. simpl. intros [_ H]. by apply IH.
Qed.

Lemma pretty_N_go_no_dash (x : N) (s : string) : no_dash s -> no_dash (pretty_N_go x s).
Proof.
  revert s. induction (N.lt_wf_0 x) as [x _ IH]; intros s Hs.
  assert (x = 0 ∨ 0 < x)%N as [->|?] by lia.
  - by rewrite pretty_N_go_0.
  - rewrite pretty_N_go_step by done. apply IH.
    { by apply N.div_lt. }
    simpl. split; [|done]. unfold pretty_N_char. by repeat case_match.
Qed.

Lemma pretty_nonneg_no_dash (year : Z) : 0 <= year -> no_dash (pretty year).
Proof.
  intros Hy. destruct year as [|p|p]; [done| |lia].
  unfold pretty, pretty_Z, pretty, pretty_positive, pretty, pretty_N.
  case_decide; [done|]. by apply pretty_N_go_no_dash.
Qed.

Lemma dash_split (c c' d d' : string) :
  no_dash d -> no_dash d' ->
  c +:+ "-" +:+ d = c' +:+ "-" +:+ d' -> c = c' /\ d = d'.
Proof.
  intros Hd Hd'. revert c'. induction c as [|x c IH]; intros [|y c'] H;
    repeat (rewrite str_app_cons in H || rewrite str_app_nil in H).
  - by injection H.
  - injection H as _ H. subst d. by apply no_dash_app in Hd.
  - injection H as _ H. subst d'. by apply no_dash_app in Hd'.
  - injection H as -> H.
    destruct (IH c') as [-> ->]; [|done].
    by repeat (rewrite str_app_cons || rewrite str_app_nil).
Qed.

(** In one year, different columns have different files. *)
Lemma path_inj_col (year : Z) (c c' : string) :
  Cache._path year c = Cache._path year c' -> c = c'.
Proof.
  unfold Cache._path. intros H. apply (inj _) in H.
  by apply str_app_inj_r in H.
Qed.

(** From year 0 on, different keys have different files. *)
Lemma path_inj (year year' : Z) (c c' : string) :
  0 <= year -> 0 <= year' ->
  Cache._path year c = Cache._path year' c' -> year = year' /\ c = c'.
Proof.
  unfold Cache._path. intros Hy Hy' H. apply (inj _) in H.
  rewrite <- !(str_app_assoc _ "-"), <- !(str_app_assoc _ _ ".npy") in H.
  apply str_app_inj_r in H. rewrite !str_app_assoc in H.
  apply dash_split in H as [-> H]; [|by apply pretty_nonneg_no_dash..].
  by apply (inj _) in H.
Qed.

End path_facts.

(** ** Facts about frames *)

Section frame_facts.
Import Frame.

Lemma get_set_eq (df : frame) (k : string) (c : column) : get (set df k c) k = Some c.
Proof.
  induction df as [|[k' c'] df IH]; simpl.
  - by rewrite bool_decide_eq_true_2.
  - case_bool_decide as Hk; simpl; rewrite ?bool_decide_eq_true_2 by done; [done|].
    by rewrite bool_decide_eq_false_2.
Qed.

Lemma get_set_ne (df : frame) (k k' : string) (c : column) : k <> k' -> get (set df k c) k' = get df k'.
Proof.
  intros Hne. induction df as [|[k0 c0] df IH]; simpl.
  - by rewrite bool_decide_eq_false_2.
  - case_bool_decide as Hk; simpl.
    + subst k0. by rewrite !bool_decide_eq_false_2.
    + case_bool_decide; [done|]. apply IH.
Qed.

Lemma get_set (df : frame) (k k' : string) (c : column) :
  get (set df k c) k' = if bool_decide (k = k') then Some c else get df k'.
Proof.
  case_bool_decide as H; [subst; apply get_set_eq|by apply get_set_ne].
Qed.

Lemma get_Some_columns (df : frame) (k : string) (c : column) : get df k = Some c -> k ∈ columns df.
Proof.
  induction df as [|[k' c'] df IH]; simpl; [done|].
  case_bool_decide as Hk.
  - subst. intros _. apply list_elem_of_here.
  - intros H. apply list_elem_of_further. by apply IH.
Qed.

Lemma get_None_columns (df : frame) (k : string) : get df k = None <-> k ∉ columns df.
Proof.
  induction df as [|[k' c'] df IH]; simpl.
  - split; [intros _; apply not_elem_of_nil|done].
  - rewrite not_elem_of_cons. case_bool_decide as Hk.
    + subst k'. split; [done|]. intros [Hk _]. by destruct Hk.
    + rewrite IH. split; [intros ?; split; [congruence|done]|by intros [_ ?]].
Qed.

Lemma has_true (df : frame) (k : string) : has df k = true <-> k ∈ columns df.
Proof.
  unfold has. rewrite bool_decide_eq_true. split.
  - intros [c Hc]. by eapply get_Some_columns.
  - intros Hin. destruct (get df k) eqn:E; [by eexists|].
    by apply get_None_columns in E.
Qed.

Lemma has_false (df : frame) (k : string) : has df k = false <-> get df k = None.
Proof.
  unfold has. rewrite bool_decide_eq_false. split.
  - intros H. destruct (get df k); [|done]. destruct H. by eexists.
  - intros ->. by intros [? ?].
Qed.

Lemma columns_set_present (df : frame) (k : string) (c : column) :
  k ∈ columns df -> columns (set df k c) = columns df.
Proof.
  induction df as [|[k' c'] df IH]; simpl; [by intros ?%elem_of_nil|].
  case_bool_decide as Hk; simpl; [by subst|].
  intros [?|Hin]%elem_of_cons; [by subst|]. by rewrite IH.
Qed.

Lemma columns_set_absent (df : frame) (k : string) (c : column) :
  k ∉ columns df -> columns (set df k c) = columns df ++ [k].
Proof.
  induction df as [|[k' c'] df IH]; simpl; [done|].
  rewrite not_elem_of_cons. intros [Hne Hin].
  rewrite bool_decide_eq_false_2 by done. simpl. by rewrite IH.
Qed.

Lemma select_all (df : frame) (names : list string) (vs : list column) :
  Forall2 (fun name v => get df name = Some v) names vs ->
  select df names = zip names vs.
Proof.
  unfold select. induction 1 as [|name v names vs Hv _ IH]; csimpl; [done|].
  by rewrite Hv, IH.
Qed.

Lemma select_columns (df : frame) (names : list string) :
  Forall (fun name => name ∈ columns df) names ->
  columns (select df names) = names.
Proof.
  unfold select, columns. induction 1 as [|name names Hin _ IH]; csimpl; [done|].
  apply has_true in Hin. unfold has in Hin. apply bool_decide_eq_true in Hin as [c Hc].
  rewrite Hc. csimpl. by rewrite IH.
Qed.

Lemma get_select (df : frame) (names : list string) (k : string) :
  k ∈ names -> get (select df names) k = get df k.
Proof.
  unfold select. induction names as [|name names IH]; [by intros ?%elem_of_nil|].
  csimpl. destruct (get df name) as [c|] eqn:E; csimpl.
  - case_bool_decide as Hk; [by subst|].
    intros [?|Hin]%elem_of_cons; [by subst|]. by apply IH.
  - intros [?|Hin]%elem_of_cons; [|by apply IH]. subst k. rewrite E.
    clear IH. induction names as [|n names IH]; csimpl; [done|].
    destruct (get df n) eqn:En; csimpl; [|done].
    case_bool_decide; [|done]. subst. congruence.
Qed.

End frame_facts.

(** ** Facts about the cache *)

Section cache_facts.
Import Frame Cache.

Lemma save_other (year : Z) (data : frame) (st : store) (p : string) :
  p ∉ map (_path year) (columns data) ->
  save year (AFrame data) st !! p = st !! p.
Proof.
  unfold save. simpl. revert st.
  induction data as [|[k c] data IH]; intros st Hp; simpl; [done|].
  simpl in Hp. apply not_elem_of_cons in Hp as [Hne Hp].
  rewrite IH by done. unfold np_save. by rewrite lookup_insert_ne.
Qed.

Lemma save_in (year : Z) (data : frame) (st : store) (name : string) (c : column) :
  NoDup (columns data) ->
  get data name = Some c ->
  save year (AFrame data) st !! _path year name = Some c.
Proof.
  unfold save. simpl. revert st.
  induction data as [|[k c'] data IH]; intros st Hnd Hget; simpl in *; [done|].
  apply NoDup_cons in Hnd as [Hk Hnd].
  case_bool_decide as Hkn.
  - injection Hget as ->. subst k.
    change (foldl _ ?s data) with (save year (AFrame data) s).
    rewrite save_other.
    + unfold np_save. by rewrite lookup_insert_eq.
    + intros (k & Heq & Hin)%list_elem_of_fmap.
      apply path_inj_col in Heq. by subst.
  - by apply IH.
Qed.

(** The dict that the loop of [load] fills agrees with the directory. *)
Lemma load_loop_ok (year : Z) (cols : list string) (df : frame) (st : store) :
  Forall (fun c => is_Some (st !! _path year c)) cols ->
  (forall c v, get df c = Some v -> st !! _path year c = Some v) ->
  exists df', load_loop year cols df st = Ok df' /\
    (forall c v, get df' c = Some v -> st !! _path year c = Some v) /\
    (forall c, c ∈ cols -> is_Some (get df' c)).
Proof.
  intros Hall. revert df.
  induction Hall as [|c cols [v Hv] _ IH]; intros df Hdf; simpl.
  - exists df. split; [done|]. split; [done|]. by intros c ?%elem_of_nil.
  - unfold np_load. rewrite Hv.
    destruct (IH (set df c v)) as (df' & Hrun & Hagree & Hin).
    { intros c' v'. rewrite get_set. case_bool_decide; [|by apply Hdf].
      subst c'. by intros [= <-]. }
    exists df'. split; [done|]. split; [done|].
    intros c' [->|Hc']%elem_of_cons; [|by apply Hin].
    destruct cols as [|c1 cols].
    + simpl in Hrun. injection Hrun as <-. rewrite get_set_eq. by eexists.
    + clear -Hrun Hv. revert Hrun. generalize (c1 :: cols). intros l.
      assert (is_Some (get (set df c v) c)) as Hsome by (rewrite get_set_eq; by eexists).
      revert Hsome. generalize (set df c v). induction l as [|x l IHl]; intros d Hd; simpl.
      * by intros [= <-].
      * unfold np_load. destruct (st !! _path year x) as [vx|]; [|done].
        apply IHl. rewrite get_set. by case_bool_decide.
Qed.

Lemma load_ok (year : Z) (cols : list string) (vs : list column) (st : store) :
  Forall2 (fun c v => st !! _path year c = Some v) cols vs ->
  load year cols st = Ok (zip cols vs).
Proof.
  intros Hall. unfold load.
  destruct (load_loop_ok year cols [] st) as (df' & -> & Hagree & Hin).
  { eapply Forall2_Forall_l; [exact Hall|]. apply Forall_true. intros c v Hv. by eexists. }
  { done. }
  f_equal. apply select_all.
  clear -Hall Hagree Hin. induction Hall as [|c v cols vs Hv _ IH]; constructor.
  - destruct (Hin c) as [v' Hv']; [apply list_elem_of_here|].
    rewrite Hv'. apply Hagree in Hv'. congruence.
  - apply IH. intros c' Hc'. apply Hin. by apply list_elem_of_further.
Qed.

Lemma load_miss (year : Z) (pre : list string) (c : string) (post : list string) (st : store) :
  Forall (fun x => is_Some (st !! _path year x)) pre ->
  st !! _path year c = None ->
  load year (pre ++ c :: post) st = Raise (CacheError c).
Proof.
  intros Hpre Hc. unfold load.
  assert (forall df, load_loop year (pre ++ c :: post) df st = Raise (CacheError c)) as ->; [|done].
  induction Hpre as [|x pre [v Hv] _ IH]; intros df; simpl.
  - unfold np_load. by rewrite Hc.
  - unfold np_load. rewrite Hv. apply IH.
Qed.

Lemma columns_values (data : frame) (cols : list string) :
  cols ⊆ columns data ->
  exists vs, Forall2 (fun c v => get data c = Some v) cols vs.
Proof.
  induction cols as [|c cols IH]; intros Hsub.
  - exists []. constructor.
  - destruct IH as [vs Hvs]; [set_solver|].
    assert (has data c = true) as Hc by (apply has_true; set_solver).
    apply bool_decide_eq_true in Hc as [v Hv].
    exists (v :: vs). by constructor.
Qed.

Lemma load_saved (year : Z) (data : frame) (cols : list string) (st : store) :
  NoDup (columns data) ->
  cols ⊆ columns data ->
  load year cols (save year (AFrame data) st) = Ok (select data cols).
Proof.
  intros Hnd Hsub. destruct (columns_values data cols Hsub) as [vs Hvs].
  rewrite (select_all _ _ _ Hvs). apply load_ok.
  eapply Forall2_impl; [exact Hvs|]. intros c v Hv. by apply save_in.
Qed.

End cache_facts.

(** C10. After [Cache.save(year, data)] for a frame whose columns have
    different names, [Cache.load(year, cols)] for names [cols] among them
    returns those columns, in the order of [cols], with the saved values,
    whatever the directory held before; a second [save] replaces what the
    first one wrote; and from year 0 on the file of every other
    (year, column) is left as it was. *)
Theorem cache_save_load (year : Z) (data : Frame.frame) (st : Cache.store) :
  NoDup (Frame.columns data) ->
  (forall cols, cols ⊆ Frame.columns data ->
     Cache.load year cols (Cache.save year (Cache.AFrame data) st)
       = Ok (Frame.select data cols) /\
     Frame.columns (Frame.select data cols) = cols /\
     (forall c, c ∈ cols -> Frame.get (Frame.select data cols) c = Frame.get data c)) /\
  (forall data' cols, NoDup (Frame.columns data') -> cols ⊆ Frame.columns data' ->
     Cache.load year cols
       (Cache.save year (Cache.AFrame data') (Cache.save year (Cache.AFrame data) st))
       = Ok (Frame.select data' cols)) /\
  (forall year' col', 0 <= year -> 0 <= year' ->
     year' <> year \/ col' ∉ Frame.columns data ->
     Cache.save year (Cache.AFrame data) st !! Cache._path year' col'
       = st !! Cache._path year' col').
Proof.
  intros Hnd. split; [|split].
  - intros cols Hsub. split; [by apply load_saved|]. split.
    + apply select_columns. apply Forall_forall. intros c Hc. by apply Hsub.
    + intros c Hc. by apply get_select.
  - intros data' cols Hnd' Hsub. by apply load_saved.
  - intros year' col' Hy Hy' Hne. apply save_other.
    intros (k & Heq & Hin)%list_elem_of_fmap.
    apply path_inj in Heq as [-> ->]; [|done..]. by destruct Hne.
Qed.

Lemma cache_save_load_witness :
  Cache.load 1985 ["weight"; "age"] (Cache.save 1985 (Cache.AFrame two_columns) ∅)
  = Ok [("weight", Frame.Values [1; 2]%float); ("age", Frame.Values [30; 41]%float)].
Proof.
  assert (NoDup (Frame.columns two_columns)) as Hnd by (by apply (bool_decide_eq_true_1 (NoDup (Frame.columns two_columns)))).
  destruct (cache_save_load 1985 two_columns ∅ Hnd) as [Hload _].
  destruct (Hload ["weight"; "age"]) as [-> _]; [|reflexivity].
  intros c. rewrite !elem_of_cons. simpl. rewrite !elem_of_cons. tauto.
Defined.

(** Before year 0 the sign takes the place of the separator: two keys,
    one file name. *)
Example negative_year_file_name : Cache._path (-5) "a" = Cache._path 5 "a-".
Proof. vm_compute. reflexivity. Qed.

(** ** Invariants of a proxy session *)

Section session_facts.
Import Frame Base.
Variable T : Transformer.

Lemma extends_refl s : extends T s s.
Proof. split; [done|]. destruct (raw s); auto. Qed.

Lemma extends_trans s1 s2 s3 : extends T s1 s2 -> extends T s2 s3 -> extends T s1 s3.
Proof.
  intros [Hd1 Hr1] [Hd2 Hr2]. split; [by auto|].
  destruct (raw s1) as [t|].
  - destruct Hr1 as [Hr1 Hl1]. rewrite Hr1 in Hr2. destruct Hr2 as [-> ->]. auto.
  - destruct Hr1 as [[Hr1 Hl1]|[Hr1 Hl1]]; rewrite Hr1 in Hr2.
    + destruct Hr2 as [[-> ->]|[-> ->]]; [left|right]; auto.
    + destruct Hr2 as [-> ->]. right. auto.
Qed.

Lemma good_ok {A} s (a : A) : good T s (Ok a, s).
Proof. split; [apply extends_refl|done]. Qed.

Lemma good_builtin {A} s (e : builtin) : good T (A := A) s (Raise e, s).
Proof. split; [apply extends_refl|done]. Qed.

Lemma good_bind {A B} (m : M A) (k : A -> M B) s :
  good T s (m s) ->
  (forall a s', m s = (Ok a, s') -> good T s' (k a s')) ->
  good T s (bind m k s).
Proof.
  intros [Hext Herr] Hk. unfold bind. destruct (m s) as [[a|e] s'] eqn:E; simpl in *.
  - destruct (Hk a s' eq_refl) as [Hext' Herr']. split; [|done].
    by eapply extends_trans.
  - split; [done|]. intros c [= ->]. by apply (Herr c).
Qed.

Lemma good_step {A} s s' (x : result A * session) :
  extends T s s' -> good T s' x -> good T s x.
Proof. intros Hext [Hext' Herr]. split; [by eapply extends_trans|done]. Qed.

Section with_df.
Variable df : access -> string -> M pyobj.
Hypothesis df_good : forall by_ item s, good T s (df by_ item s).

Lemma run_good p s : good T s (run df p s).
Proof.
  revert s. induction p as [v|e|by_ item k IH|item k IH]; intros s; simpl.
  - apply good_ok.
  - apply good_builtin.
  - apply good_bind; [apply df_good|]. intros v s' _. apply IH.
  - apply IH.
Qed.

Lemma read_field_good f field s : good T s (read_field df f field s).
Proof.
  unfold read_field. destruct (df_good ByItem field s) as [Hext Herr].
  destruct (df ByItem field s) as [[v|e] s']; simpl in *.
  - destruct (missing f); split; simpl; done.
  - destruct e as [[]|c]; split; simpl; done.
Qed.

Lemma Field_transform_good f s : good T s (Field_transform T df f s).
Proof.
  unfold Field_transform. destruct (spec f) as [field|D|].
  - apply read_field_good.
  - unfold Utils.select_by_year, Utils.list_sort.
    destruct (Utils.comparable _); [|apply good_builtin].
    destruct (Utils.first_match _ _) as [[|field|z]|e] eqn:E.
    + apply good_ok.
    + apply read_field_good.
    + apply good_ok.
    + assert (exists b : builtin, e = b) as [b ->]; [|apply good_builtin].
      clear -E. induction (Utils.sorted_spec _) as [|t l IH]; simpl in E.
      * injection E as <-. by eexists.
      * destruct (Utils.contains _ t); [done|]. by apply IH.
  - apply good_builtin.
Qed.

Lemma IncomeField_transform_good f s : good T s (IncomeField_transform T df f s).
Proof.
  unfold IncomeField_transform. apply good_bind; [apply Field_transform_good|].
  intros [|lst] s' _; apply good_ok.
Qed.

Lemma call_good fn s : good T s (call T df fn s).
Proof.
  destruct fn as [f|f|func|]; simpl.
  - apply Field_transform_good.
  - apply IncomeField_transform_good.
  - apply run_good.
  - apply good_builtin.
Qed.

Lemma set_data_extends item c s :
  get (data s) item = None -> extends T s (set_data item c s).2.
Proof.
  intros Hnone. split; simpl.
  - intros k c' Hk. rewrite get_set_ne; [done|]. intros ->. congruence.
  - destruct (raw s); auto.
Qed.

Lemma raw_table_extends s : extends T s (raw_table T s).2.
Proof.
  unfold raw_table, extends. destruct (raw s) as [t|] eqn:E; simpl;
    (split; [done|]); rewrite ?E; auto.
Qed.

Lemma fallback_good item (exc : builtin) s :
  get (data s) item = None -> good T s (_fallback T df item exc s).
Proof.
  intros Hnone. unfold _fallback.
  destruct (transformer_getattr T item) as [fn|].
  - destruct (call_good fn s) as [Hext Herr]. unfold bind.
    destruct (call T df fn s) as [[col|e] s1]; simpl in *; [|done].
    split; [|done]. simpl. split; simpl.
    + intros k c Hk. rewrite get_set_ne; [by apply Hext|]. intros ->. congruence.
    + destruct Hext as [_ Hraw]. destruct (raw s); auto.
  - pose proof (raw_table_extends s) as Hext. unfold bind.
    destruct (raw_table T s) as [[t|e] s1] eqn:E; simpl in *.
    + destruct (t !! item) as [c|]; simpl.
      * split; [|done]. simpl. split; simpl.
        -- intros k c' Hk. rewrite get_set_ne; [by apply Hext|]. intros ->. congruence.
        -- destruct Hext as [_ Hraw]. destruct (raw s); auto.
      * split; [done|]. done.
    + unfold raw_table in E. by destruct (raw s).
Qed.

End with_df.

Lemma proxy_good limit by_ item s : good T s (proxy T limit by_ item s).
Proof.
  revert by_ item s. induction limit as [|n IH]; intros by_ item s; simpl.
  - apply good_builtin.
  - destruct by_; unfold __getattr__, __getitem__;
      (destruct (get (data s) item) eqn:E; [apply good_ok|by apply fallback_good]).
Qed.

End session_facts.

(** ** Facts about the transformer *)

Section transformer_facts.
Import Frame Base.
Variable T : Transformer.

Lemma columns_set (df : frame) (k : string) (c : column) :
  columns (set df k c) = add_name (columns df) k.
Proof.
  unfold add_name. case_bool_decide.
  - by apply columns_set_present.
  - by apply columns_set_absent.
Qed.

Lemma NoDup_add_name (names : list string) (name : string) :
  NoDup names -> NoDup (add_name names name).
Proof.
  intros Hnd. unfold add_name. case_bool_decide; [done|].
  apply NoDup_app. split; [done|]. split.
  - intros x Hx [->|[]%elem_of_nil]%elem_of_cons. done.
  - apply NoDup_singleton.
Qed.

Lemma NoDup_columns_set (df : frame) (k : string) (c : column) :
  NoDup (columns df) -> NoDup (columns (set df k c)).
Proof. rewrite columns_set. apply NoDup_add_name. Qed.

Lemma load_single (attr : string) (st : Cache.store) :
  Cache.load (year T) [attr] st =
    match st !! Cache._path (year T) attr with
    | Some c => Ok [(attr, c)]
    | None => Raise (CacheError attr)
    end.
Proof.
  unfold Cache.load. simpl. unfold Cache.np_load.
  destruct (st !! _) as [c|]; [|done].
  unfold select. csimpl. by rewrite bool_decide_eq_true_2.
Qed.

Lemma load_cached_loop_spec (attrs : list string) (st : Cache.store) (data : frame) :
  exists data', load_cached_loop T attrs data st = Ok data' /\
    columns data' = foldl add_name (columns data) (filter (fun a => cached T st a = true) attrs) /\
    (forall k, get data' k =
       if bool_decide (k ∈ attrs) && cached T st k
       then st !! Cache._path (year T) k else get data k).
Proof.
  revert data. induction attrs as [|attr attrs IH]; intros data; cbn [load_cached_loop].
  - exists data. split; [done|]. split; [done|]. intros k.
    by rewrite bool_decide_eq_false_2 by apply not_elem_of_nil.
  - case_bool_decide as Hy.
    + destruct (IH data) as (data' & -> & Hcols & Hget). exists data'.
      split; [done|]. split.
      * rewrite filter_cons_False; [done|]. unfold cached.
        rewrite bool_decide_eq_false_2; [done|]. by intros [].
      * intros k. rewrite Hget. destruct (decide (k = attr)) as [->|Hne].
        -- unfold cached. rewrite (bool_decide_eq_false_2 (attr <> "year")) by (by intros []).
           by rewrite !andb_false_r.
        -- destruct (decide (k ∈ attrs)).
           ++ by rewrite !bool_decide_eq_true_2 by (try apply list_elem_of_further; done).
           ++ rewrite !bool_decide_eq_false_2; [done| |done].
              rewrite elem_of_cons. by intros [?|?].
    + rewrite load_single. destruct (st !! Cache._path (year T) attr) as [c|] eqn:E.
      * simpl. rewrite bool_decide_eq_true_2 by done.
        destruct (IH (set data attr c)) as (data' & -> & Hcols & Hget). exists data'.
        split; [done|]. split.
        -- rewrite filter_cons_True.
           ++ by rewrite Hcols, columns_set.
           ++ unfold cached. rewrite E. rewrite andb_true_iff, !bool_decide_eq_true.
              split; [done|by eexists].
        -- intros k. rewrite Hget. rewrite get_set.
           destruct (decide (k = attr)) as [->|Hne].
           ++ rewrite (bool_decide_eq_true_2 (attr ∈ attr :: attrs)) by apply list_elem_of_here.
              assert (cached T st attr = true) as ->.
              { unfold cached. rewrite E. rewrite andb_true_iff, !bool_decide_eq_true.
                split; [done|by eexists]. }
              rewrite (bool_decide_eq_true_2 (attr = attr)) by done. simpl. rewrite E.
              by destruct (bool_decide (attr ∈ attrs)).
           ++ rewrite (bool_decide_eq_false_2 (attr = k)) by done.
              destruct (decide (k ∈ attrs)).
              ** by rewrite !bool_decide_eq_true_2 by (try apply list_elem_of_further; done).
              ** rewrite !bool_decide_eq_false_2; [done| |done].
                 rewrite elem_of_cons. by intros [?|?].
      * destruct (IH data) as (data' & -> & Hcols & Hget). exists data'.
        split; [done|]. split.
        -- rewrite filter_cons_False; [done|]. unfold cached. rewrite E.
           rewrite andb_true_iff, !bool_decide_eq_true. intros [_ [? ?]]. done.
        -- intros k. rewrite Hget. destruct (decide (k = attr)) as [->|Hne].
           ++ assert (cached T st attr = false) as ->.
              { unfold cached. rewrite E. rewrite andb_false_iff. right.
                apply bool_decide_eq_false. by intros [? ?]. }
              by rewrite !andb_false_r.
           ++ destruct (decide (k ∈ attrs)).
              ** by rewrite !bool_decide_eq_true_2 by (try apply list_elem_of_further; done).
              ** rewrite !bool_decide_eq_false_2; [done| |done].
                 rewrite elem_of_cons. by intros [?|?].
Qed.

Lemma _load_cached_spec (st : Cache.store) :
  exists df, _load_cached T st = Ok df /\
    columns df = foldl add_name [] (filter (fun a => cached T st a = true) (_fields T)) /\
    (forall k, get df k =
       if bool_decide (k ∈ _fields T) && cached T st k
       then st !! Cache._path (year T) k else None).
Proof. apply (load_cached_loop_spec (_fields T) st []). Qed.

Lemma foldl_add_name_length (acc l : list string) :
  (length (foldl add_name acc l) <= length acc + length l)%nat.
Proof.
  revert acc. induction l as [|a l IH]; intros acc; simpl; [lia|].
  etrans; [apply IH|]. unfold add_name. case_bool_decide; [lia|].
  rewrite length_app. simpl. lia.
Qed.

Lemma foldl_add_name_full (acc l : list string) :
  length (foldl add_name acc l) = (length acc + length l)%nat ->
  foldl add_name acc l = acc ++ l.
Proof.
  revert acc. induction l as [|a l IH]; intros acc; simpl.
  - by rewrite app_nil_r.
  - unfold add_name at 2 4. case_bool_decide.
    + intros Hlen. pose proof (foldl_add_name_length acc l). lia.
    + intros Hlen. rewrite IH; [by rewrite <- app_assoc|].
      rewrite length_app. simpl. lia.
Qed.

Lemma filter_full (P : string -> bool) (l : list string) :
  length (filter (fun a => P a = true) l) = length l ->
  filter (fun a => P a = true) l = l.
Proof.
  induction l as [|a l IH]; [done|].
  destruct (P a) eqn:E.
  - rewrite filter_cons_True by done. simpl. intros [= Hlen]. f_equal. by apply IH.
  - rewrite filter_cons_False by congruence. simpl. intros Hlen.
    pose proof (length_filter (fun a => P a = true) l). lia.
Qed.

(** When every field came from the cache, the cached frame has exactly
    the fields as its columns. *)
Lemma fast_path_columns (st : Cache.store) (df : frame) :
  _load_cached T st = Ok df ->
  length (columns df) = length (_fields T) ->
  columns df = _fields T /\ Forall (fun a => cached T st a = true) (_fields T).
Proof.
  intros Hdf Hlen. destruct (_load_cached_spec st) as (df' & Hdf' & Hcols & _).
  rewrite Hdf in Hdf'. injection Hdf' as <-.
  pose proof (foldl_add_name_length [] (filter (fun a => cached T st a = true) (_fields T))) as H1.
  pose proof (length_filter (fun a => cached T st a = true) (_fields T)) as H2.
  rewrite Hcols in Hlen. simpl in H1.
  assert (filter (fun a => cached T st a = true) (_fields T) = _fields T) as Hf.
  { apply filter_full. lia. }
  split.
  - rewrite Hcols, Hf. rewrite foldl_add_name_full; [done|]. simpl. rewrite Hf in Hlen. lia.
  - rewrite <- Hf. apply Forall_forall. intros a Ha. by apply list_elem_of_filter in Ha as [? _].
Qed.

Lemma resolve_loop_spec (new : access -> string -> M pyobj)
    (attrs : list string) (extra : frame) (s : session) :
  (forall by_ item s, good T s (new by_ item s)) ->
  extends T s (resolve_loop new attrs extra s).2 /\
  no_cache_error (resolve_loop new attrs extra s).1 /\
  forall extra', (resolve_loop new attrs extra s).1 = Ok extra' ->
    (forall k c, get extra k = Some c -> get (data s) k = Some c) ->
    (forall k c, get extra' k = Some c ->
       get (data (resolve_loop new attrs extra s).2) k = Some c) /\
    (forall k, k ∈ columns extra' ->
       k ∈ columns extra \/ (get (data s) k = None /\ k <> "year" /\ k ∈ attrs)).
Proof.
  intros Hnew. revert extra s.
  induction attrs as [|attr attrs IH]; intros extra s; cbn [resolve_loop].
  - split; [apply extends_refl|]. split; [done|].
    intros extra' [= <-] Hinv. split; [done|]. auto.
  - case_bool_decide as Hy.
    { destruct (IH extra s) as (Hext & Herr & Hok). split; [done|]. split; [done|].
      intros extra' Hres Hinv. destruct (Hok extra' Hres Hinv) as [H1 H2].
      split; [done|]. intros k Hk. destruct (H2 k Hk) as [?|(? & ? & ?)]; [by left|].
      right. split; [done|]. split; [done|]. by apply list_elem_of_further. }
    destruct (has (data s) attr) eqn:Hhas.
    { destruct (IH extra s) as (Hext & Herr & Hok). split; [done|]. split; [done|].
      intros extra' Hres Hinv. destruct (Hok extra' Hres Hinv) as [H1 H2].
      split; [done|]. intros k Hk. destruct (H2 k Hk) as [?|(? & ? & ?)]; [by left|].
      right. split; [done|]. split; [done|]. by apply list_elem_of_further. }
    apply has_false in Hhas.
    destruct (Hnew ByAttr attr s) as [Hext1 Herr1].
    destruct (new ByAttr attr s) as [[[|col]|e] s1]; simpl in Hext1, Herr1.
    + destruct (IH extra s1) as (Hext & Herr & Hok).
      split; [by eapply extends_trans|]. split; [done|].
      intros extra' Hres Hinv.
      destruct (Hok extra' Hres) as [H1 H2].
      { intros k c Hk. apply Hext1. by apply Hinv. }
      split; [done|]. intros k Hk. destruct (H2 k Hk) as [?|(Hn & ? & ?)]; [by left|].
      right. split; [|split; [done|by apply list_elem_of_further]].
      destruct (get (data s) k) eqn:E; [|done]. apply Hext1 in E. congruence.
    + set (s2 := {| data := set (data s1) attr col; raw := raw s1; loads := loads s1 |}).
      assert (extends T s s2) as Hext2.
      { destruct Hext1 as [Hd Hr]. split; simpl.
        - intros k c Hk. rewrite get_set_ne; [by apply Hd|]. intros ->. congruence.
        - done. }
      destruct (IH (set extra attr col) s2) as (Hext & Herr & Hok).
      split; [by eapply extends_trans|]. split; [done|].
      intros extra' Hres Hinv.
      destruct (Hok extra' Hres) as [H1 H2].
      { intros k c. rewrite get_set. simpl. rewrite get_set.
        case_bool_decide; [done|]. intros Hk. apply Hext1. by apply Hinv. }
      split; [done|]. intros k Hk. destruct (H2 k Hk) as [Hin|(Hn & ? & ?)].
      * rewrite columns_set in Hin. unfold add_name in Hin.
        case_bool_decide; [by left|].
        apply elem_of_app in Hin as [?|Hin]; [by left|].
        apply list_elem_of_singleton in Hin as ->.
        right. split; [done|]. split; [done|]. apply list_elem_of_here.
      * right. split; [|split; [done|by apply list_elem_of_further]].
        destruct (get (data s) k) eqn:E; [|done]. apply Hext2 in E. congruence.
    + split; [exact Hext1|]. split; [|intros extra' [=]].
      intros c [= ->]. by apply (Herr1 c).
Qed.

(** A call loads the raw table at most once. *)
Lemma call_loads_once (limit : nat) (st : Cache.store) :
  (loader_calls (__call__ T limit st) <= 1)%nat.
Proof.
  unfold __call__. destruct (_load_cached T st) as [df|e]; [|simpl; lia].
  destruct (_ =? _)%nat; [simpl; lia|].
  destruct (resolve_loop_spec (proxy T limit) (_fields T) []
              {| data := df; raw := None; loads := 0 |})
    as ([_ Hraw] & _ & _); [apply proxy_good|].
  simpl in Hraw.
  destruct (resolve_loop _ _ _ _) as [[extra|e] s]; simpl in *;
    destruct Hraw as [[_ ->]|[_ ->]]; lia.
Qed.

End transformer_facts.

(** ** The claims about the proxy and the transformer *)

(** C6. A call of the transformer calls the loader at most once, however
    many fields fall back to the raw table, and not at all when every
    field comes from the cache.  Inside the session, an access through
    the proxy calls the loader only while there is no raw table yet, and
    then once: a table that is there stays, and the count with it. *)
Theorem loader_called_at_most_once (T : Base.Transformer) (limit : nat) (st : Cache.store) :
  (Base.loader_calls (Base.__call__ T limit st) <= 1)%nat /\
  (forall df, Base._load_cached T st = Ok df ->
     length (Frame.columns df) = length (Base._fields T) ->
     Base.loader_calls (Base.__call__ T limit st) = 0%nat) /\
  (forall by_ item s t, Base.raw s = Some t ->
     Base.raw (Base.proxy T limit by_ item s).2 = Some t /\
     Base.loads (Base.proxy T limit by_ item s).2 = Base.loads s) /\
  (forall by_ item s, Base.raw s = None ->
     (Base.raw (Base.proxy T limit by_ item s).2 = None /\
      Base.loads (Base.proxy T limit by_ item s).2 = Base.loads s) \/
     (Base.raw (Base.proxy T limit by_ item s).2 = Some (Base._loader T) /\
      Base.loads (Base.proxy T limit by_ item s).2 = S (Base.loads s))).
Proof.
  split; [|split; [|split]].
  - apply call_loads_once.
  - intros df Hdf Hlen. unfold Base.__call__.
    by rewrite Hdf, (proj2 (Nat.eqb_eq _ _) Hlen).
  - intros by_ item s t Ht. destruct (proxy_good T limit by_ item s) as [[_ Hraw] _].
    by rewrite Ht in Hraw.
  - intros by_ item s Hnone. destruct (proxy_good T limit by_ item s) as [[_ Hraw] _].
    by rewrite Hnone in Hraw.
Qed.

(** Two fields that fall back to the raw table, one call of the loader. *)
Example two_fallbacks_one_load :
  Base.loader_calls (Base.__call__ (person_1985 ["weight"; "occupation_week"]) 10 ∅) = 1%nat.
Proof. vm_compute. reflexivity. Qed.

(** C7. [Cache.load] raises [CacheError(col)] for the first requested
    column that has no file; [_load_cached] catches it field by field and
    returns the frame of the fields that were found; and no call of the
    transformer ends in a [CacheError]. *)
Theorem cache_error_is_caught (T : Base.Transformer) (limit : nat) (st : Cache.store) :
  (forall year pre c post,
     Forall (fun x => is_Some (st !! Cache._path year x)) pre ->
     st !! Cache._path year c = None ->
     Cache.load year (pre ++ c :: post) st = Raise (CacheError c)) /\
  (exists df, Base._load_cached T st = Ok df /\
     forall k, Frame.get df k =
       if bool_decide (k ∈ Base._fields T) && cached T st k
       then st !! Cache._path (Base.year T) k else None) /\
  (forall c, Base.returned (Base.__call__ T limit st) <> Raise (CacheError c)).
Proof.
  split; [|split].
  - intros year pre c post. apply load_miss.
  - destruct (_load_cached_spec T st) as (df & Hdf & _ & Hget). by exists df.
  - intros c. unfold Base.__call__.
    destruct (_load_cached_spec T st) as (df & -> & _).
    destruct (_ =? _)%nat; [done|].
    destruct (resolve_loop_spec T (Base.proxy T limit) (Base._fields T) []
                {| Base.data := df; Base.raw := None; Base.loads := 0 |})
      as (_ & Herr & _); [apply proxy_good|].
    destruct (Base.resolve_loop _ _ _ _) as [[extra|e] s]; simpl in *; [done|].
    intros [= ->]. by apply (Herr c).
Qed.

(** C8. For a name that is no attribute of the transformer and no
    variable of the raw table, [_fallback] raises the exception it was
    given, whatever it is, and leaves the working frame as it was; so
    [df.item] ends in the [AttributeError] and [df[item]] in the
    [KeyError] of the first lookup. *)
Theorem unknown_name_reraises (T : Base.Transformer) (df : Base.access -> string -> Base.M Frame.pyobj)
    (item : string) (exc : exn) (s : Base.session) :
  Base.transformer_getattr T item = None ->
  default (Base._loader T) (Base.raw s) !! item = None ->
  (Base._fallback T df item exc s).1 = Raise exc /\
  Base.data (Base._fallback T df item exc s).2 = Base.data s /\
  (Frame.get (Base.data s) item = None ->
   forall n,
     (Base.proxy T (S n) Base.ByAttr item s).1 = Raise (AttributeError item) /\
     (Base.proxy T (S n) Base.ByItem item s).1 = Raise (KeyError item)).
Proof.
  intros Hattr Hraw.
  assert (forall df' exc', (Base._fallback T df' item exc' s).1 = Raise exc' /\
            Base.data (Base._fallback T df' item exc' s).2 = Base.data s) as Hfb.
  { intros df' exc'. unfold Base._fallback. rewrite Hattr.
    unfold Base.bind, Base.raw_table. destruct (Base.raw s) as [t|]; simpl in *;
      by rewrite Hraw. }
  split; [apply Hfb|]. split; [apply Hfb|].
  intros Hnone n. simpl. unfold Base.__getattr__, Base.__getitem__. rewrite Hnone.
  split; apply Hfb.
Qed.

Lemma unknown_name_reraises_witness :
  (Base.proxy (person_1985 ["nope"]) 2 Base.ByAttr "nope"
     {| Base.data := []; Base.raw := None; Base.loads := 0 |}).1
  = Raise (AttributeError "nope").
Proof.
  eapply (unknown_name_reraises (person_1985 ["nope"])
            (Base.proxy (person_1985 ["nope"]) 1) "nope" (AttributeError "nope")
            {| Base.data := []; Base.raw := None; Base.loads := 0 |});
    reflexivity.
Defined.

(** [year] is an attribute of the transformer, and no field method:
    reading it through the proxy calls an integer. *)
Example year_through_the_proxy :
  (Base.proxy (person_1985 []) 2 Base.ByAttr "year"
     {| Base.data := []; Base.raw := None; Base.loads := 0 |}).1
  = Raise (TypeError "object is not callable").
Proof. reflexivity. Qed.

Lemma filter_ext_in (P Q : string -> Prop) `{forall x, Decision (P x)} `{forall x, Decision (Q x)}
    (l : list string) :
  (forall x, x ∈ l -> (P x <-> Q x)) -> filter P l = filter Q l.
Proof.
  induction l as [|a l IH]; intros Hpq; [done|].
  rewrite !filter_cons. rewrite IH by (intros x Hx; apply Hpq; by apply list_elem_of_further).
  destruct (decide (P a)) as [Hp|Hp], (decide (Q a)) as [Hq|Hq]; try done.
  - destruct Hq. by apply (Hpq a); [apply list_elem_of_here|].
  - destruct Hp. by apply (Hpq a); [apply list_elem_of_here|].
Qed.

Lemma filter_all (P : string -> Prop) `{forall x, Decision (P x)} (l : list string) :
  Forall P l -> filter P l = l.
Proof.
  induction 1 as [|a l Ha _ IH]; [done|]. by rewrite filter_cons_True, IH.
Qed.

(** C9. The columns of the table a call returns are the requested
    fields that are columns of it, in the order of the request. *)
Theorem columns_in_requested_order (T : Base.Transformer) (limit : nat) (st : Cache.store)
    (out : Frame.frame) :
  Base.returned (Base.__call__ T limit st) = Ok out ->
  Frame.columns out = filter (fun c => c ∈ Frame.columns out) (Base._fields T).
Proof.
  unfold Base.__call__. destruct (Base._load_cached T st) as [df|e] eqn:Hdf; [|done].
  destruct (_ =? _)%nat eqn:Hlen.
  - simpl. intros [= <-]. apply Nat.eqb_eq in Hlen.
    destruct (fast_path_columns T st df Hdf Hlen) as [-> _].
    symmetry. apply filter_all. by apply Forall_forall.
  - destruct (Base.resolve_loop _ _ _ _) as [[extra|e] s]; simpl; [|done].
    intros [= <-].
    set (dfy := if bool_decide ("year" ∈ Base._fields T) then _ else _).
    assert (Frame.columns (Frame.select dfy (filter (fun c => Frame.has dfy c) (Base._fields T)))
            = filter (fun c => Frame.has dfy c) (Base._fields T)) as Hcols.
    { apply select_columns. apply Forall_forall. intros c Hc.
      apply list_elem_of_filter in Hc as [Hc _]. apply has_true. by destruct (Frame.has dfy c). }
    rewrite Hcols. apply filter_ext_in. intros c Hc.
    rewrite list_elem_of_filter. tauto.
Qed.

Lemma columns_in_requested_order_witness :
  Frame.columns
    [ ("occupation", Frame.Values [1; 2; 3]%float);
      ("weight", Frame.Values [10; nan; 3]%float);
      ("year", Frame.Broadcast (Frame.SNum 1985));
      ("occupation_week", Frame.Values [1; 2; 3]%float) ]
  = filter (fun c => c ∈ ["occupation"; "weight"; "year"; "occupation_week"])
      ["occupation"; "weight"; "year"; "occupation_week"].
Proof.
  apply (columns_in_requested_order
           (person_1985 ["occupation"; "weight"; "year"; "occupation_week"]) 10 ∅).
  vm_compute. reflexivity.
Defined.

(** What C2 says of an unavailable field fails for an income field:
    [income_retirement_other] exists from 1992 on only, and for 1985 the
    call returns a table with that column, filled with NaN. *)
Lemma unavailable_income_field_has_column :
  Utils.select_by_year 1985
    [ (Utils.Pair (Utils.Year 1992) Utils.Ellipsis, Utils.RawColumn "V1258");
      (Utils.Pair Utils.Ellipsis (Utils.Year 1990), Utils.Unavailable) ]
  = Ok Utils.Unavailable /\
  Base.returned (Base.__call__ (person_1985 ["income_retirement_other"]) 10 ∅)
  = Ok [("income_retirement_other", Frame.Broadcast (Frame.SNum nan))] /\
  ~ returns_without_column (person_1985 ["income_retirement_other"]) 10 ∅
      "income_retirement_other".
Proof.
  split; [by vm_compute|]. split; [by vm_compute|].
  intros (out & Hout & Hf). vm_compute in Hout. injection Hout as <-.
  apply Hf. apply list_elem_of_here.
Qed.

Lemma proxy_unavailable_field (T : Base.Transformer) (n : nat) (f : string)
    (fld : Base.Field) (D : list (Utils.key * Utils.outcome)) (s : Base.session) :
  Base.transformer_getattr T f = Some (Base.AField fld) ->
  Base.spec fld = Base.SpecYears D ->
  Utils.select_by_year (Base.year T) D = Ok Utils.Unavailable ->
  Frame.get (Base.data s) f = None ->
  Base.proxy T (S n) Base.ByAttr f s
  = (Ok Frame.ObjNone,
     {| Base.data := Frame.set (Base.data s) f (Frame.Broadcast Frame.SNone);
        Base.raw := Base.raw s; Base.loads := Base.loads s |}).
Proof.
  intros Hattr Hspec Hsel Hnone. cbn [Base.proxy]. unfold Base.__getattr__.
  rewrite Hnone. unfold Base._fallback. rewrite Hattr.
  unfold Base.bind, Base.call, Base.Field_transform. by rewrite Hspec, Hsel.
Qed.

Lemma proxy_unavailable_income_field (T : Base.Transformer) (n : nat) (f : string)
    (fld : Base.Field) (D : list (Utils.key * Utils.outcome)) (s : Base.session) :
  Base.transformer_getattr T f = Some (Base.AnIncomeField fld) ->
  Base.spec fld = Base.SpecYears D ->
  Utils.select_by_year (Base.year T) D = Ok Utils.Unavailable ->
  Frame.get (Base.data s) f = None ->
  Base.proxy T (S n) Base.ByAttr f s
  = (Ok (Frame.ObjCol (Frame.Broadcast (Frame.SNum nan))),
     {| Base.data := Frame.set (Base.data s) f (Frame.Broadcast (Frame.SNum nan));
        Base.raw := Base.raw s; Base.loads := Base.loads s |}).
Proof.
  intros Hattr Hspec Hsel Hnone. cbn [Base.proxy]. unfold Base.__getattr__.
  rewrite Hnone. unfold Base._fallback. rewrite Hattr.
  unfold Base.bind, Base.call, Base.IncomeField_transform, Base.bind, Base.Field_transform.
  by rewrite Hspec, Hsel.
Qed.

(** C2, amended. For a field declared by a [Field] or an [IncomeField]
    whose year specification gives [None] for the year, the call for that
    field alone raises no error.  For a [Field] nothing is written to the
    cache.  For an [IncomeField] the returned table has the column: the
    cached one, or else a column of NaN, which is written to the cache. *)
Theorem unavailable_field_no_error (T : Base.Transformer) (limit : nat) (st : Cache.store)
    (f : string) (fld : Base.Field) (D : list (Utils.key * Utils.outcome)) :
  Base._fields T = [f] ->
  (0 < limit)%nat ->
  Base.spec fld = Base.SpecYears D ->
  Utils.select_by_year (Base.year T) D = Ok Utils.Unavailable ->
  Base.transformer_getattr T f = Some (Base.AField fld) \/
  Base.transformer_getattr T f = Some (Base.AnIncomeField fld) ->
  is_ok (Base.returned (Base.__call__ T limit st)) = true /\
  (Base.transformer_getattr T f = Some (Base.AField fld) ->
     Base.cache (Base.__call__ T limit st) = st) /\
  (Base.transformer_getattr T f = Some (Base.AnIncomeField fld) ->
     exists c, Base.returned (Base.__call__ T limit st) = Ok [(f, c)] /\
       (forall v, st !! Cache._path (Base.year T) f = Some v -> c = v) /\
       (st !! Cache._path (Base.year T) f = None ->
          c = Frame.Broadcast (Frame.SNum nan) /\
          Base.cache (Base.__call__ T limit st) = <[Cache._path (Base.year T) f := c]> st)).
Proof.
  intros Hfields Hlimit Hspec Hsel Hattr.
  assert (f <> "year") as Hy.
  { intros ->. unfold Base.transformer_getattr in Hattr. simpl in Hattr.
    by destruct Hattr. }
  destruct limit as [|n]; [lia|].
  assert ("year" ∉ [f]) as Hny.
  { intros [?|[]%elem_of_nil]%elem_of_cons. done. }
  unfold Base.__call__, Base._load_cached. rewrite Hfields.
  cbn [Base.load_cached_loop]. rewrite (bool_decide_eq_false_2 (f = "year")) by done.
  rewrite load_single.
  destruct (st !! Cache._path (Base.year T) f) as [c|] eqn:Hst.
  - cbn [Frame.get]. rewrite (bool_decide_eq_true_2 (f = f)) by done.
    cbn. split; [done|]. split; [done|]. intros _. exists c. split; [done|].
    split; [by intros v [= ->]|done].
  - cbn [length Frame.columns map Nat.eqb Base.resolve_loop Base.data].
    rewrite (bool_decide_eq_false_2 (f = "year")) by done.
    rewrite (bool_decide_eq_false_2 ("year" ∈ [f])) by done.
    change (Base.data {| Base.data := []; Base.raw := None; Base.loads := 0 |}) with (@nil (string * Frame.column)).
    assert (Frame.has [] f = false) as -> by (by apply has_false).
    destruct Hattr as [Hattr|Hattr].
    + rewrite (proxy_unavailable_field T n f fld D _ Hattr Hspec Hsel) by done.
      cbn. split; [done|]. split; [done|]. intros Hattr'. congruence.
    + rewrite (proxy_unavailable_income_field T n f fld D _ Hattr Hspec Hsel) by done.
      cbn [Base.data Frame.set Base.ret Base.returned Base.cache].
      split; [done|]. split; [intros Hattr'; congruence|]. intros _.
      exists (Frame.Broadcast (Frame.SNum nan)). split; [|done].
      f_equal. rewrite (bool_decide_eq_true_2 (f = f)) by done.
      cbn [Frame.set]. rewrite filter_cons_True.
      * unfold Frame.select. csimpl. by rewrite (bool_decide_eq_true_2 (f = f)).
      * unfold Frame.has. cbn [Frame.get]. by rewrite (bool_decide_eq_true_2 (f = f)).
Qed.

(** ** The second call *)

Section second_call.
Import Frame Base.
Variable T : Transformer.

Lemma select_cons (df : frame) (name : string) (names : list string) :
  select df (name :: names) =
    match get df name with
    | Some c => (name, c) :: select df names
    | None => select df names
    end.
Proof. unfold select. csimpl. by destruct (get df name). Qed.

Lemma select_ext (df df' : frame) (names : list string) :
  (forall k, k ∈ names -> get df k = get df' k) ->
  select df names = select df' names.
Proof.
  induction names as [|name names IH]; intros Hget; [done|].
  rewrite !select_cons. rewrite (Hget name) by apply list_elem_of_here.
  rewrite IH; [done|]. intros k Hk. apply Hget. by apply list_elem_of_further.
Qed.

Lemma select_self (df : frame) : NoDup (columns df) -> select df (columns df) = df.
Proof.
  induction df as [|[k c] df IH]; [done|].
  change (columns ((k, c) :: df)) with (k :: columns df). intros [Hk Hnd]%NoDup_cons.
  rewrite select_cons. cbn [get]. rewrite (bool_decide_eq_true_2 (k = k)) by done.
  f_equal. transitivity (select df (columns df)); [|by apply IH]. apply select_ext.
  intros k' Hk'. cbn [get]. rewrite bool_decide_eq_false_2; [done|]. by intros ->.
Qed.

Lemma NoDup_foldl_add_name (acc l : list string) :
  NoDup acc -> NoDup (foldl add_name acc l).
Proof.
  revert acc. induction l as [|a l IH]; intros acc Hnd; simpl; [done|].
  apply IH. by apply NoDup_add_name.
Qed.

Lemma save_nil (st : Cache.store) : Cache.save (year T) (Cache.AFrame []) st = st.
Proof. done. Qed.

Lemma resolve_loop_nodup (new : access -> string -> M pyobj) (attrs : list string)
    (extra extra' : frame) (s : session) :
  NoDup (columns extra) ->
  (resolve_loop new attrs extra s).1 = Ok extra' ->
  NoDup (columns extra').
Proof.
  revert extra s. induction attrs as [|attr attrs IH]; intros extra s Hnd; cbn [resolve_loop].
  - by intros [= <-].
  - case_bool_decide; [by apply IH|].
    destruct (has (data s) attr); [by apply IH|].
    destruct (new ByAttr attr s) as [[[|col]|e] s1]; [by apply IH| |done].
    apply IH. by apply NoDup_columns_set.
Qed.

Lemma resolve_loop_present (new : access -> string -> M pyobj) (attrs : list string)
    (extra : frame) (s : session) :
  (forall a, a ∈ attrs -> a <> "year" -> has (data s) a = true) ->
  resolve_loop new attrs extra s = (Ok extra, s).
Proof.
  induction attrs as [|attr attrs IH]; intros Hall; cbn [resolve_loop]; [done|].
  case_bool_decide as Hy.
  - apply IH. intros a Ha. apply Hall. by apply list_elem_of_further.
  - rewrite Hall by (done || apply list_elem_of_here).
    apply IH. intros a Ha. apply Hall. by apply list_elem_of_further.
Qed.

Lemma cached_year (st : Cache.store) : cached T st "year" = false.
Proof. unfold cached. by rewrite bool_decide_eq_false_2 by (by intros []). Qed.



(** The calls of [__call__], by the path they take. *)
Lemma call_fast (limit : nat) (st : Cache.store) (df : frame) :
  _load_cached T st = Ok df ->
  length (columns df) = length (_fields T) ->
  __call__ T limit st = {| returned := Ok df; cache := st; loader_calls := 0 |}.
Proof.
  intros Hdf Hlen. unfold __call__. rewrite Hdf.
  by rewrite (proj2 (Nat.eqb_eq _ _) Hlen).
Qed.

Lemma call_slow (limit : nat) (st : Cache.store) (df extra : frame) (s : session) :
  _load_cached T st = Ok df ->
  length (columns df) <> length (_fields T) ->
  resolve_loop (proxy T limit) (_fields T) []
    {| data := df; raw := None; loads := 0 |} = (Ok extra, s) ->
  __call__ T limit st =
    {| returned := Ok (sliced T (data s));
       cache := Cache.save (year T) (Cache.AFrame extra) st;
       loader_calls := loads s |}.
Proof.
  intros Hdf Hlen Hres. unfold __call__. rewrite Hdf.
  rewrite (proj2 (Nat.eqb_neq _ _) Hlen). rewrite Hres.
  unfold sliced. f_equal. by destruct extra.
Qed.


End second_call.




(** Without that, the second call need not return what the first one
    returned: a field that was not cached is resolved again, in a working
    frame that now starts with the cached columns. *)
Example second_call_can_differ :
  Base.returned (Base.__call__ (looking_1985 ["a"; "b"]) 10 ∅)
  = Ok [ ("a", Frame.Broadcast Frame.SNone); ("b", Frame.Values [1; 2; 3]%float) ] /\
  Base.returned
    (Base.__call__ (looking_1985 ["a"; "b"]) 10
       (Base.cache (Base.__call__ (looking_1985 ["a"; "b"]) 10 ∅)))
  = Ok [ ("a", Frame.Values [1; 2; 3]%float); ("b", Frame.Values [1; 2; 3]%float) ].
Proof. split; vm_compute; reflexivity. Qed.

Lemma unavailable_field_no_error_witness :
  is_ok (Base.returned (Base.__call__ (person_1985 ["income_retirement_other"]) 10 ∅)) = true /\
  (Base.transformer_getattr (person_1985 ["income_retirement_other"]) "income_retirement_other"
     = Some (Base.AField (Base.Field_of (since_1992 "V1258"))) ->
   Base.cache (Base.__call__ (person_1985 ["income_retirement_other"]) 10 ∅) = ∅) /\
  (Base.transformer_getattr (person_1985 ["income_retirement_other"]) "income_retirement_other"
     = Some (Base.AnIncomeField (Base.Field_of (since_1992 "V1258"))) ->
   exists c,
     Base.returned (Base.__call__ (person_1985 ["income_retirement_other"]) 10 ∅)
       = Ok [("income_retirement_other", c)] /\
     (forall v, (∅ : Cache.store) !! Cache._path 1985 "income_retirement_other" = Some v ->
        c = v) /\
     ((∅ : Cache.store) !! Cache._path 1985 "income_retirement_other" = None ->
      c = Frame.Broadcast (Frame.SNum nan) /\
      Base.cache (Base.__call__ (person_1985 ["income_retirement_other"]) 10 ∅)
        = <[Cache._path 1985 "income_retirement_other" := c]> ∅)).
Proof.
  apply (unavailable_field_no_error (person_1985 ["income_retirement_other"]) 10 ∅
           "income_retirement_other" (Base.Field_of (since_1992 "V1258"))
           [ (Utils.Pair (Utils.Year 1992) Utils.Ellipsis, Utils.RawColumn "V1258");
             (Utils.Pair Utils.Ellipsis (Utils.Year 1990), Utils.Unavailable) ]).
  - reflexivity.
  - lia.
  - reflexivity.
  - vm_compute. reflexivity.
  - right. vm_compute. reflexivity.
Defined.

(** * Further properties of the code *)

(** ** The years of the survey *)

Section years_facts.
Import Utils Years.
Variable data_dir : list Z.

Lemma PNAD_YEARS_sorted : StronglySorted Z.le (PNAD_YEARS data_dir).
Proof. apply (StronglySorted_merge_sort Z.le); apply _. Qed.

Lemma PNAD_YEARS_perm : PNAD_YEARS data_dir ≡ₚ data_dir.
Proof. apply merge_sort_Permutation. Qed.

Lemma elem_of_PNAD_YEARS (y : Z) : y ∈ PNAD_YEARS data_dir <-> y ∈ data_dir.
Proof. by rewrite PNAD_YEARS_perm. Qed.

Lemma StronglySorted_filter (P : Z -> Prop) `{forall y, Decision (P y)} (l : list Z) :
  StronglySorted Z.le l -> StronglySorted Z.le (filter P l).
Proof.
  induction 1 as [|x l Hl IH Hx]; [constructor|].
  rewrite filter_cons. destruct (decide (P x)); [|done].
  constructor; [done|].
  apply Forall_forall. intros y [_ Hy]%list_elem_of_filter.
  rewrite Forall_forall in Hx. by apply Hx.
Qed.

Lemma contains_pair (y : Z) (a b : bound) (v : outcome) :
  contains y (normalize (Pair a b, v)) = true <->
  match a with Year a => a <= y | _ => True end /\
  match b with Year b => y <= b | _ => True end.
Proof.
  unfold contains, normalize, lo, hi, ext_leb. simpl.
  rewrite andb_true_iff, !orb_true_iff.
  destruct a, b; simpl; rewrite ?Z.ltb_lt, ?Z.eqb_eq; intuition (try lia; try done).
Qed.

Lemma filter_Forall_id {A} (P : A -> Prop) `{forall x, Decision (P x)} (l : list A) :
  Forall P l -> filter P l = l.
Proof.
  induction 1 as [|x l Hx Hl IH]; [done|].
  rewrite filter_cons, decide_True by done. by rewrite IH.
Qed.

Lemma in_range_contains (a b : bound) (v : outcome) :
  in_range data_dir a b
  = filter (fun y => contains y (normalize (Pair a b, v)) = true) (PNAD_YEARS data_dir).
Proof.
  unfold in_range.
  destruct a as [a| |], b as [b| |];
    try (apply list_filter_iff; intros y; rewrite contains_pair; tauto);
    symmetry; apply filter_Forall_id, Forall_forall; intros y _;
    by rewrite contains_pair.
Qed.

Lemma prepare_years_in_dir (args : prepare_args) (ys : list Z) :
  prepare_years data_dir args = Ok ys ->
  (forall y, args <> POneArg (SpecInt y)) ->
  Forall (fun y => y ∈ data_dir) ys.
Proof.
  assert (Forall (fun y => y ∈ data_dir) (PNAD_YEARS data_dir)) as Hall.
  { apply Forall_forall. intros y. by rewrite elem_of_PNAD_YEARS. }
  assert (forall l, Forall (fun y => y ∈ data_dir)
                      (filter (fun yy => yy ∈ PNAD_YEARS data_dir) l)) as Hfil.
  { intros l. apply Forall_forall. intros y [Hy _]%list_elem_of_filter.
    by apply elem_of_PNAD_YEARS. }
  intros Hok Hint. unfold prepare_years in Hok.
  destruct args as [|[| |y|items|l]|y1 y2 rest]; simpl in Hok.
  - by injection Hok as <-.
  - by injection Hok as <-.
  - by injection Hok as <-.
  - by destruct (Hint y).
  - unfold years in Hok. simpl in Hok.
    destruct items as [|a [|b [|c items]]]; simpl in Hok; try done.
    injection Hok as <-. rewrite (in_range_contains _ _ Unavailable).
    apply Forall_forall. intros y [_ Hy]%list_elem_of_filter.
    by apply elem_of_PNAD_YEARS.
  - injection Hok as <-. apply Hfil.
  - injection Hok as <-. apply Hfil.
Qed.

End years_facts.

(** X1. [years(a, b)] and [years((a, b))] list, in increasing order, the
    years of the data directory that lie in the range from [a] to [b],
    both ends included and [None] or [...] for an open end: the years
    for which [select_by_year] selects an entry with the key [(a, b)]. *)
Theorem years_of_a_range (data_dir : list Z) (a b : Utils.bound) :
  Years.years data_dir (Years.TwoArgs a b)
  = Ok (filter (fun y => Utils.contains y (Utils.normalize (Utils.Pair a b, Utils.Unavailable)) = true)
          (Years.PNAD_YEARS data_dir)) /\
  Years.years data_dir (Years.OneArg (Years.SpecTuple [a; b]))
  = Years.years data_dir (Years.TwoArgs a b) /\
  Years.PNAD_YEARS data_dir ≡ₚ data_dir /\
  StronglySorted Z.le (Years.PNAD_YEARS data_dir) /\
  StronglySorted Z.le
    (filter (fun y => Utils.contains y (Utils.normalize (Utils.Pair a b, Utils.Unavailable)) = true)
       (Years.PNAD_YEARS data_dir)).
Proof.
  split; [|split; [done|split; [apply PNAD_YEARS_perm|split]]].
  - unfold Years.years. simpl. f_equal. apply in_range_contains.
  - apply PNAD_YEARS_sorted.
  - apply StronglySorted_filter, PNAD_YEARS_sorted.
Qed.

(** X2. [years] returns for no argument, for [None], for a tuple or list
    of two items and for two arguments, and for nothing else: a single
    int or [...], a tuple or list of another length and more than two
    arguments raise. *)
Theorem years_accepts (data_dir : list Z) (args : Years.years_args) :
  is_ok (Years.years data_dir args) = true <->
  args = Years.NoArgs \/
  args = Years.OneArg Years.SpecNone \/
  (exists a b, args = Years.OneArg (Years.SpecTuple [a; b])) \/
  (exists a b, args = Years.OneArg (Years.SpecList [a; b])) \/
  (exists a b, args = Years.TwoArgs a b).
Proof.
  split.
  - destruct args as [|[| |y|[|a [|b [|c items]]]|[|a [|b [|c ys]]]]|a b|];
      simpl; try done; intros _; eauto 8.
  - intros [->|[->|[(a & b & ->)|[(a & b & ->)|(a & b & ->)]]]]; done.
Qed.

(** X3. Every year that [prepare_years] returns is a year of the data
    directory, except for a single int, which comes back unchecked: for
    a year that the directory does not have, [prepare_years(y)] is [[y]]
    and [prepare_years([y])] is empty.  A list, and two or more
    arguments, keep their valid years in the order given. *)
Theorem prepare_years_valid (data_dir : list Z) :
  (forall args ys,
     Years.prepare_years data_dir args = Ok ys ->
     (forall y, args <> Years.POneArg (Years.SpecInt y)) ->
     Forall (fun y => y ∈ data_dir) ys) /\
  (forall y, y ∉ data_dir ->
     Years.prepare_years data_dir (Years.POneArg (Years.SpecInt y)) = Ok [y] /\
     Years.prepare_years data_dir (Years.POneArg (Years.SpecList [y])) = Ok []) /\
  (forall y1 y2 rest,
     Years.prepare_years data_dir (Years.PManyArgs y1 y2 rest)
     = Ok (filter (fun y => y ∈ data_dir) (y1 :: y2 :: rest))).
Proof.
  assert (forall ys : list Z, filter (fun yy => yy ∈ Years.PNAD_YEARS data_dir) ys
                     = filter (fun y => y ∈ data_dir) ys) as Hfilter.
  { intros ys. apply list_filter_iff. intros y. apply elem_of_PNAD_YEARS. }
  split; [apply prepare_years_in_dir|split].
  - intros y Hy. split; [done|]. unfold Years.prepare_years. f_equal.
    rewrite Hfilter, filter_cons, decide_False by done. done.
  - intros y1 y2 rest. unfold Years.prepare_years. f_equal. apply Hfilter.
Qed.

(** X4. With a list or set [valid], every year that [filter_years]
    returns is in [valid], the years come in the order [prepare_years]
    gives them, and, unless the specification is a single int, filtering
    the result again returns it unchanged. *)
Theorem filter_years_valid (data_dir : list Z) (yrs : Years.years_spec) (valid ys : list Z) :
  Years.filter_years data_dir yrs (Some valid) = Ok ys ->
  Forall (fun y => y ∈ valid) ys /\
  (exists ys0, Years.prepare_years data_dir (Years.POneArg yrs) = Ok ys0 /\
     Years.filter_years data_dir yrs None = Ok ys0 /\
     ys = filter (fun y => y ∈ valid) ys0) /\
  ((forall y, yrs <> Years.SpecInt y) ->
   Years.filter_years data_dir (Years.SpecList ys) (Some valid) = Ok ys).
Proof.
  intros Hok. unfold Years.filter_years in *.
  destruct (Years.prepare_years data_dir (Years.POneArg yrs)) as [ys0|e] eqn:Hprep; [|done].
  injection Hok as <-.
  assert (Forall (fun y => y ∈ valid) (filter (fun y => y ∈ valid) ys0)) as Hvalid.
  { apply Forall_forall. by intros y [Hy _]%list_elem_of_filter. }
  split; [done|]. split; [by exists ys0|].
  intros Hint. simpl. f_equal.
  assert (Forall (fun y => y ∈ data_dir) ys0) as Hdir.
  { apply (prepare_years_in_dir data_dir (Years.POneArg yrs)); [done|].
    intros y [= ->]. by apply (Hint y). }
  rewrite (filter_Forall_id (fun yy => yy ∈ Years.PNAD_YEARS data_dir)).
  - by apply filter_Forall_id.
  - apply Forall_forall. intros y [_ Hy]%list_elem_of_filter.
    apply elem_of_PNAD_YEARS. rewrite Forall_forall in Hdir. by apply Hdir.
Qed.

Lemma filter_years_valid_witness :
  Forall (fun y => y ∈ [1977; 1979; 1990]) [1977; 1979] /\
  (exists ys0,
     Years.prepare_years [1979; 1985; 1976; 1977]
       (Years.POneArg (Years.SpecTuple [Utils.Ellipsis; Utils.Year 1980])) = Ok ys0 /\
     Years.filter_years [1979; 1985; 1976; 1977]
       (Years.SpecTuple [Utils.Ellipsis; Utils.Year 1980]) None = Ok ys0 /\
     [1977; 1979] = filter (fun y => y ∈ [1977; 1979; 1990]) ys0) /\
  ((forall y, Years.SpecTuple [Utils.Ellipsis; Utils.Year 1980] <> Years.SpecInt y) ->
   Years.filter_years [1979; 1985; 1976; 1977] (Years.SpecList [1977; 1979])
     (Some [1977; 1979; 1990]) = Ok [1977; 1979]).
Proof.
  apply (filter_years_valid [1979; 1985; 1976; 1977]
           (Years.SpecTuple [Utils.Ellipsis; Utils.Year 1980]) [1977; 1979; 1990] [1977; 1979]).
  vm_compute. reflexivity.
Defined.

(** ** The cache directory *)

Section cache_more.
Import Frame Cache.

Lemma foldl_save_keeps (year : Z) (l : frame) (st : store) (p : string) :
  is_Some (st !! p) ->
  is_Some (foldl (fun st '(name, col) => np_save (_path year name) col st) st l !! p).
Proof.
  revert st. induction l as [|[name col] l IH]; intros st Hp; simpl; [done|].
  apply IH. unfold np_save. rewrite lookup_insert_is_Some. 
  destruct (decide (_path year name = p)); auto.
Qed.

Lemma foldl_save_origin (year : Z) (l : frame) (st : store) (p : string) (v : column) :
  foldl (fun st '(name, col) => np_save (_path year name) col st) st l !! p = Some v ->
  st !! p = Some v \/ exists name, (name, v) ∈ l /\ p = _path year name.
Proof.
  revert st. induction l as [|[name col] l IH]; intros st Hp; simpl in *; [by left|].
  destruct (IH _ Hp) as [Hst|(name' & Hin & ->)].
  - unfold np_save in Hst. apply lookup_insert_Some in Hst as [[<- <-]|[_ Hst]].
    + right. exists name. split; [apply list_elem_of_here|done].
    + by left.
  - right. exists name'. split; [by apply list_elem_of_further|done].
Qed.

Lemma load_cases (year : Z) (cols : list string) (st : store) :
  Forall (fun c => is_Some (st !! _path year c)) cols \/
  exists pre c post, cols = pre ++ c :: post /\
    Forall (fun x => is_Some (st !! _path year x)) pre /\ st !! _path year c = None.
Proof.
  induction cols as [|c cols IH]; [by left|].
  destruct (st !! _path year c) as [v|] eqn:Hc.
  - destruct IH as [Hall|(pre & c' & post & -> & Hpre & Hc')].
    + left. constructor; [by eexists|done].
    + right. exists (c :: pre), c', post. split; [done|].
      split; [|done]. constructor; [by eexists|done].
  - right. by exists [], c, cols.
Qed.

Lemma present_values (year : Z) (cols : list string) (st : store) :
  Forall (fun c => is_Some (st !! _path year c)) cols ->
  exists vs, Forall2 (fun c v => st !! _path year c = Some v) cols vs.
Proof.
  induction 1 as [|c cols [v Hv] _ [vs IH]]; [by exists []|].
  exists (v :: vs). by constructor.
Qed.

Lemma get_zip_present (year : Z) (cols : list string) (vs : list column) (st : store) (c : string) :
  Forall2 (fun c v => st !! _path year c = Some v) cols vs ->
  c ∈ cols -> get (zip cols vs) c = st !! _path year c.
Proof.
  induction 1 as [|c' v cols vs Hv _ IH]; intros Hc; [by apply elem_of_nil in Hc|].
  simpl. case_bool_decide as Heq; [by subst|].
  apply elem_of_cons in Hc as [->|Hc]; [done|]. by apply IH.
Qed.

End cache_more.

(** X5. [Cache.save] removes no file: every file of the directory is
    still there afterwards, and a file that is there afterwards either
    was there with the same array or is the file of one of the columns
    saved, with that column's array.  A series is saved as the one
    column it is, and loads again. *)
Theorem cache_save_keeps_files (year : Z) (data : Cache.saved) (st : Cache.store) :
  (forall p, is_Some (st !! p) -> is_Some (Cache.save year data st !! p)) /\
  (forall p v, Cache.save year data st !! p = Some v ->
     st !! p = Some v \/
     exists name, (name, v) ∈ Cache.items data /\ p = Cache._path year name) /\
  (forall name c, data = Cache.ASeries name c ->
     Cache.load year [name] (Cache.save year data st) = Ok [(name, c)]).
Proof.
  split; [|split].
  - intros p. apply foldl_save_keeps.
  - intros p v. apply foldl_save_origin.
  - intros name c ->. apply (load_ok year [name] [c]).
    constructor; [|constructor]. unfold Cache.save. simpl. unfold Cache.np_save.
    apply lookup_insert_eq.
Qed.

(** X6. When the files of the columns asked for hold arrays of one
    length, [Cache.load] returns exactly when every column asked for has
    a file; the table then has these columns, in the order asked, each
    with the array of its file.  Asked for no column it returns the
    empty table. *)
Theorem cache_load_all_or_nothing (year : Z) (cols : list string) (st : Cache.store)
    (n : nat) :
  (forall c a, c ∈ cols -> st !! Cache._path year c = Some a -> has_rows n a) ->
  (is_ok (Cache.load year cols st) = true <->
   Forall (fun c => is_Some (st !! Cache._path year c)) cols) /\
  (forall df, Cache.load year cols st = Ok df ->
     Frame.columns df = cols /\
     forall c, c ∈ cols -> Frame.get df c = st !! Cache._path year c) /\
  Cache.load year [] st = Ok [].
Proof.
  intros _.
  assert (forall df, Cache.load year cols st = Ok df ->
            exists vs, Forall2 (fun c v => st !! Cache._path year c = Some v) cols vs /\
                       df = zip cols vs) as Hok.
  { intros df Hdf. destruct (load_cases year cols st) as [Hall|(pre & c & post & -> & Hpre & Hc)].
    - destruct (present_values year cols st Hall) as [vs Hvs]. exists vs. split; [done|].
      rewrite (load_ok year cols vs st Hvs) in Hdf. by injection Hdf as <-.
    - by rewrite (load_miss year pre c post st Hpre Hc) in Hdf. }
  split; [|split].
  - split.
    + destruct (Cache.load year cols st) as [df|e] eqn:Hdf; [|done]. intros _.
      destruct (Hok df eq_refl) as (vs & Hvs & _).
      eapply Forall2_Forall_l; [exact Hvs|]. apply Forall_true. intros c v Hv. by eexists.
    + intros Hall. destruct (present_values year cols st Hall) as [vs Hvs].
      by rewrite (load_ok year cols vs st Hvs).
  - intros df Hdf. destruct (Hok df Hdf) as (vs & Hvs & ->). split.
    + unfold Frame.columns. apply fst_zip. by rewrite (Forall2_length _ _ _ Hvs).
    + intros c Hc. by apply (get_zip_present year).
  - done.
Qed.

Lemma cache_load_all_or_nothing_witness :
  (is_ok (Cache.load 1985 ["weight"; "age"] (Cache.save 1985 (Cache.AFrame two_columns) ∅))
   = true <->
   Forall (fun c => is_Some (Cache.save 1985 (Cache.AFrame two_columns) ∅
                               !! Cache._path 1985 c)) ["weight"; "age"]) /\
  (forall df,
     Cache.load 1985 ["weight"; "age"] (Cache.save 1985 (Cache.AFrame two_columns) ∅) = Ok df ->
     Frame.columns df = ["weight"; "age"] /\
     forall c, c ∈ ["weight"; "age"] ->
       Frame.get df c = Cache.save 1985 (Cache.AFrame two_columns) ∅ !! Cache._path 1985 c) /\
  Cache.load 1985 [] (Cache.save 1985 (Cache.AFrame two_columns) ∅) = Ok [].
Proof.
  apply (cache_load_all_or_nothing 1985 ["weight"; "age"]
           (Cache.save 1985 (Cache.AFrame two_columns) ∅) 2).
  intros c a Hc Ha.
  apply elem_of_cons in Hc as [-> | Hc];
    [vm_compute in Ha; injection Ha as <-; eexists; split; reflexivity|].
  apply elem_of_cons in Hc as [-> | Hc];
    [vm_compute in Ha; injection Ha as <-; eexists; split; reflexivity|].
  by apply elem_of_nil in Hc.
Defined.

(** ** Cleaning *)

Section cleaning_facts.
Import Frame Base.

Lemma col_map_fold_scalar (values : list float) (x : float) :
  foldl (fun lst value => col_map (mask_value value) lst) (Broadcast (SNum x)) values
  = Broadcast (SNum (mask_all values x)).
Proof.
  revert x. induction values as [|v values IH]; intros x; simpl; [done|]. apply IH.
Qed.

Lemma remove_missing_numbers (c : column) :
  remove_missing c =
    match c with
    | Values a => Values (map (mask_all missing_values) a)
    | Broadcast (SNum x) => Broadcast (SNum (mask_all missing_values x))
    | Broadcast SNone => Broadcast (SNum nan)
    end.
Proof.
  unfold remove_missing. destruct c as [a|[|x]]; simpl asfarray.
  - apply col_map_fold.
  - by rewrite col_map_fold_scalar, mask_all_nan.
  - apply col_map_fold_scalar.
Qed.

Lemma mask_all_clean (x : float) :
  is_sentinel missing_values (mask_all missing_values x) = false.
Proof.
  rewrite mask_all_spec. by destruct (is_sentinel missing_values x) eqn:E.
Qed.

Lemma mask_all_idempotent (x : float) :
  mask_all missing_values (mask_all missing_values x) = mask_all missing_values x.
Proof.
  rewrite (mask_all_spec _ (mask_all _ _)). by rewrite mask_all_clean.
Qed.

Lemma remove_missing_clean (c : column) : no_sentinel (remove_missing c).
Proof.
  rewrite remove_missing_numbers. unfold no_sentinel.
  destruct c as [a|[|x]]; simpl.
  - apply Forall_forall. intros y (x & -> & _)%list_elem_of_fmap. apply mask_all_clean.
  - by repeat constructor.
  - repeat constructor. apply mask_all_clean.
Qed.

End cleaning_facts.

(** X7. [IncomeField.remove_missing] is idempotent, keeps the length of
    an array, leaves no number that is equal to a sentinel, and turns
    [None] into NaN. *)
Theorem remove_missing_idempotent (c : Frame.column) :
  Base.remove_missing (Base.remove_missing c) = Base.remove_missing c /\
  no_sentinel (Base.remove_missing c) /\
  length (numbers (Base.remove_missing c)) = length (numbers (Base.asfarray c)) /\
  Base.remove_missing (Frame.Broadcast Frame.SNone) = Frame.Broadcast (Frame.SNum nan).
Proof.
  split; [|split; [apply remove_missing_clean|split; [|done]]].
  - rewrite (remove_missing_numbers c).
    destruct c as [a|[|x]]; rewrite remove_missing_numbers.
    + f_equal. rewrite <- list_fmap_compose. apply list_fmap_ext.
      intros i x _. apply mask_all_idempotent.
    + by rewrite mask_all_nan.
    + by rewrite mask_all_idempotent.
  - rewrite remove_missing_numbers. destruct c as [a|[|x]]; simpl; [|done..].
    apply length_fmap.
Qed.

(** X8. Whatever its specification and the table it reads,
    [IncomeField.transform] never returns [None]: when it returns, it
    returns a column of numbers, none of them equal to a sentinel. *)
Theorem income_field_returns_clean_column (T : Base.Transformer)
    (df : Base.access -> string -> Base.M Frame.pyobj) (f : Base.Field)
    (s s' : Base.session) (v : Frame.pyobj) :
  Base.IncomeField_transform T df f s = (Ok v, s') ->
  exists c, v = Frame.ObjCol c /\ c <> Frame.Broadcast Frame.SNone /\ no_sentinel c.
Proof.
  unfold Base.IncomeField_transform, Base.bind.
  destruct (Base.Field_transform T df f s) as [[[|lst]|e] s1]; [| |done].
  - intros [= <- <-]. eexists. split; [done|]. split; [done|].
    unfold no_sentinel. simpl. by repeat constructor.
  - intros [= <- <-]. exists (Base.remove_missing lst). split; [done|].
    split; [|apply remove_missing_clean].
    rewrite remove_missing_numbers. by destruct lst as [a|[|x]].
Qed.

Lemma income_field_returns_clean_column_witness :
  exists c, Frame.ObjCol (Frame.Values [10; nan; 3]%float) = Frame.ObjCol c /\
    c <> Frame.Broadcast Frame.SNone /\ no_sentinel c.
Proof.
  apply (income_field_returns_clean_column (person_1985 []) (Base.proxy (person_1985 []) 3)
           (Base.Field_of (Base.SpecName "V9991"))
           {| Base.data := []; Base.raw := None; Base.loads := 0 |}
           {| Base.data := [("V9991", Frame.Values [10; -1; 3]%float)];
              Base.raw := Some raw_1985; Base.loads := 1 |}).
  vm_compute. reflexivity.
Defined.

(** ** The proxy *)

(** X9. The proxy memoises what is read by subscription: when
    [df[item]] returns, the working frame has the column [item], and
    reading [df[item]] again returns that column and changes nothing: no
    field is computed and the loader is not called. *)
Theorem proxy_memoises (T : Base.Transformer) (limit : nat) (item : string)
    (s s' : Base.session) (v : Frame.pyobj) :
  Base.proxy T limit Base.ByItem item s = (Ok v, s') ->
  exists c, Frame.get (Base.data s') item = Some c /\
    forall n, Base.proxy T (S n) Base.ByItem item s' = (Ok (Frame.ObjCol c), s').
Proof.
  intros Hv.
  assert (is_Some (Frame.get (Base.data s') item)) as [c Hget].
  { destruct limit as [|n]; [done|]. cbn [Base.proxy] in Hv. unfold Base.__getitem__ in Hv.
    destruct (Frame.get (Base.data s) item) as [c|] eqn:E.
    - injection Hv as <- <-. by eexists.
    - unfold Base._fallback, Base.bind in Hv.
      destruct (Base.transformer_getattr T item) as [fn|].
      + destruct (Base.call T (Base.proxy T n) fn s) as [[col|e] s1]; [|done].
        simpl in Hv. injection Hv as <- <-. simpl. rewrite get_set_eq. by eexists.
      + destruct (Base.raw_table T s) as [[t|e] s1]; [|done].
        destruct (t !! item) as [c|]; [|done].
        simpl in Hv. injection Hv as <- <-. simpl. rewrite get_set_eq. by eexists. }
  exists c. split; [done|]. intros n. cbn [Base.proxy]. unfold Base.__getitem__.
  by rewrite Hget.
Qed.

Lemma proxy_memoises_witness :
  exists c,
    Frame.get [("occupation_year", Frame.Broadcast Frame.SNone)] "occupation_year" = Some c /\
    forall n,
      Base.proxy (person_1985 []) (S n) Base.ByItem "occupation_year"
        {| Base.data := [("occupation_year", Frame.Broadcast Frame.SNone)];
           Base.raw := None; Base.loads := 0 |}
      = (Ok (Frame.ObjCol c),
         {| Base.data := [("occupation_year", Frame.Broadcast Frame.SNone)];
            Base.raw := None; Base.loads := 0 |}).
Proof.
  apply (proxy_memoises (person_1985 []) 3 "occupation_year"
           {| Base.data := []; Base.raw := None; Base.loads := 0 |}
           {| Base.data := [("occupation_year", Frame.Broadcast Frame.SNone)];
              Base.raw := None; Base.loads := 0 |} Frame.ObjNone).
  vm_compute. reflexivity.
Defined.

(** ** Calls of the transformer *)

Section call_facts.
Import Frame Base.
Variable T : Transformer.

Lemma call_cases (limit : nat) (st : Cache.store) :
  exists df, _load_cached T st = Ok df /\
    ((length (columns df) = length (_fields T) /\
      __call__ T limit st = {| returned := Ok df; cache := st; loader_calls := 0 |}) \/
     (length (columns df) <> length (_fields T) /\
      ((exists extra s,
          resolve_loop (proxy T limit) (_fields T) []
            {| data := df; raw := None; loads := 0 |} = (Ok extra, s) /\
          __call__ T limit st =
            {| returned := Ok (sliced T (data s));
               cache := Cache.save (year T) (Cache.AFrame extra) st;
               loader_calls := loads s |}) \/
       (exists e s,
          resolve_loop (proxy T limit) (_fields T) []
            {| data := df; raw := None; loads := 0 |} = (Raise e, s) /\
          __call__ T limit st =
            {| returned := Raise e; cache := st; loader_calls := loads s |})))).
Proof.
  destruct (_load_cached_spec T st) as (df & Hdf & _). exists df. split; [done|].
  destruct (decide (length (columns df) = length (_fields T))) as [Hlen|Hlen].
  - left. split; [done|]. by apply call_fast.
  - right. split; [done|].
    destruct (resolve_loop (proxy T limit) (_fields T) []
                {| data := df; raw := None; loads := 0 |}) as [[extra|e] s] eqn:Hres.
    + left. exists extra, s. split; [done|]. by apply (call_slow T limit st df extra s).
    + right. exists e, s. split; [done|]. unfold __call__.
      by rewrite Hdf, (proj2 (Nat.eqb_neq _ _) Hlen), Hres.
Qed.

Lemma loaded_get (st : Cache.store) (df : frame) (k : string) :
  _load_cached T st = Ok df ->
  get df k = if bool_decide (k ∈ _fields T) && cached T st k
             then st !! Cache._path (year T) k else None.
Proof.
  intros Hdf. destruct (_load_cached_spec T st) as (df' & Hdf' & _ & Hget).
  rewrite Hdf in Hdf'. injection Hdf' as <-. apply Hget.
Qed.

Lemma cached_false (st : Cache.store) (k : string) :
  k <> "year" -> cached T st k = false -> st !! Cache._path (year T) k = None.
Proof.
  intros Hy. unfold cached. rewrite bool_decide_eq_true_2 by done. simpl.
  intros Hc%bool_decide_eq_false. apply eq_None_not_Some. done.
Qed.

Lemma loaded_get_None (st : Cache.store) (df : frame) (k : string) :
  _load_cached T st = Ok df -> k ∈ _fields T -> k <> "year" ->
  get df k = st !! Cache._path (year T) k.
Proof.
  intros Hdf Hk Hy. rewrite (loaded_get st df k Hdf).
  rewrite bool_decide_eq_true_2 by done. simpl.
  destruct (cached T st k) eqn:E; [done|]. symmetry. by apply cached_false.
Qed.

(** What the loop of [__call__] leaves when it ends. *)
Lemma slow_facts (limit : nat) (df extra : frame) (s : session) :
  resolve_loop (proxy T limit) (_fields T) []
    {| data := df; raw := None; loads := 0 |} = (Ok extra, s) ->
  (forall k c, get df k = Some c -> get (data s) k = Some c) /\
  (forall k c, get extra k = Some c -> get (data s) k = Some c) /\
  (forall k, k ∈ columns extra -> get df k = None /\ k <> "year" /\ k ∈ _fields T) /\
  NoDup (columns extra).
Proof.
  intros Hres.
  destruct (resolve_loop_spec T (proxy T limit) (_fields T) []
              {| data := df; raw := None; loads := 0 |})
    as ([Hkeep _] & _ & Hok); [apply proxy_good|].
  rewrite Hres in Hkeep, Hok. simpl in Hkeep, Hok.
  destruct (Hok extra eq_refl) as [Hextra Horigin]; [done|].
  split; [done|]. split; [done|]. split.
  - intros k Hk. destruct (Horigin k Hk) as [Hnil|H]; [|done]. by apply elem_of_nil in Hnil.
  - eapply (resolve_loop_nodup (proxy T limit) (_fields T) []); [apply NoDup_nil_2|].
    by rewrite Hres.
Qed.


Lemma get_sliced_year (d : frame) :
  "year" ∈ _fields T ->
  get (sliced T d) "year" = Some (Broadcast (SNum (of_int (year T)))).
Proof.
  intros Hy. unfold sliced. rewrite bool_decide_eq_true_2 by done.
  rewrite get_select.
  - apply get_set_eq.
  - apply list_elem_of_filter. split; [|done].
    apply Is_true_true. unfold has. apply bool_decide_eq_true_2.
    rewrite get_set_eq. by eexists.
Qed.


Lemma saved_extra (st : Cache.store) (extra : frame) (k : string) :
  NoDup (columns extra) ->
  Cache.save (year T) (Cache.AFrame extra) st !! Cache._path (year T) k =
    match get extra k with
    | Some c => Some c
    | None => st !! Cache._path (year T) k
    end.
Proof.
  intros Hnd. destruct (get extra k) as [c|] eqn:E.
  - by apply save_in.
  - apply save_other. intros (k' & Heq & Hk')%list_elem_of_fmap.
    apply path_inj_col in Heq as <-. by apply get_None_columns in E.
Qed.

End call_facts.

(** X10. A call of the transformer removes and overwrites no file of the
    cache directory: a file that was there is there afterwards with the
    same array.  A new file is the file of a requested field other than
    [year], and when the call raises the directory is as it was. *)
Theorem call_keeps_cache (T : Base.Transformer) (limit : nat) (st : Cache.store) :
  (forall p v, st !! p = Some v -> Base.cache (Base.__call__ T limit st) !! p = Some v) /\
  (forall p, st !! p = None -> is_Some (Base.cache (Base.__call__ T limit st) !! p) ->
     exists f, f ∈ Base._fields T /\ f <> "year" /\ p = Cache._path (Base.year T) f) /\
  (forall e, Base.returned (Base.__call__ T limit st) = Raise e ->
     Base.cache (Base.__call__ T limit st) = st).
Proof.
  destruct (call_cases T limit st)
    as (df & Hdf & [[_ ->]|[_ [(extra & s & Hres & ->)|(e & s & _ & ->)]]]); simpl;
    try (split; [done|split; [|done]]; intros p Hp [v Hv]; congruence).
  destruct (slow_facts T limit df extra s Hres) as (_ & _ & Horigin & Hnd).
  assert (forall p, p ∈ map (Cache._path (Base.year T)) (Frame.columns extra) ->
            st !! p = None /\
            exists f, f ∈ Base._fields T /\ f <> "year" /\ p = Cache._path (Base.year T) f)
    as Hnew.
  { intros p (k & -> & Hk)%list_elem_of_fmap.
    destruct (Horigin k Hk) as (Hnone & Hy & Hin).
    split; [|by exists k]. by rewrite <- (loaded_get_None T st df k Hdf Hin Hy). }
  split; [|split; [|done]].
  - intros p v Hp.
    destruct (decide (p ∈ map (Cache._path (Base.year T)) (Frame.columns extra))) as [Hin|Hin].
    + destruct (Hnew p Hin) as [Hnone _]. congruence.
    + by rewrite save_other.
  - intros p Hp Hsome.
    destruct (decide (p ∈ map (Cache._path (Base.year T)) (Frame.columns extra))) as [Hin|Hin].
    + by destruct (Hnew p Hin) as [_ Hf].
    + rewrite save_other, Hp in Hsome by done. by destruct Hsome.
Qed.



(** X12. When every requested field has a file in the cache directory,
    and these files hold arrays of one length, a call of the transformer
    is [Cache.load] of the requested fields: it returns that table,
    writes nothing and does not call the loader. *)
Theorem call_all_cached (T : Base.Transformer) (limit : nat) (st : Cache.store) (n : nat) :
  Forall (fun f => cached T st f = true) (Base._fields T) ->
  (forall f c, f ∈ Base._fields T -> st !! Cache._path (Base.year T) f = Some c ->
     has_rows n c) ->
  Base.__call__ T limit st
  = {| Base.returned := Cache.load (Base.year T) (Base._fields T) st;
       Base.cache := st;
       Base.loader_calls := 0 |}.
Proof.
  intros Hall _.
  assert (Forall (fun f => f <> "year" /\ is_Some (st !! Cache._path (Base.year T) f))
            (Base._fields T)) as Hall'.
  { eapply Forall_impl; [exact Hall|]. intros f Hf. unfold cached in Hf.
    apply andb_true_iff in Hf as [Hy Hs]. split; [by apply bool_decide_eq_true in Hy|].
    by apply bool_decide_eq_true in Hs. }
  destruct (present_values (Base.year T) (Base._fields T) st) as [vs Hvs].
  { eapply Forall_impl; [exact Hall'|]. by intros f [_ Hf]. }
  rewrite (load_ok _ _ vs st Hvs).
  assert ("year" ∉ Base._fields T) as Hny.
  { intros Hin. rewrite Forall_forall in Hall'. by destruct (Hall' _ Hin). }
  destruct (call_cases T limit st) as (df & Hdf & Hcases).
  assert (Forall2 (fun name v => Frame.get df name = Some v) (Base._fields T) vs) as Hget.
  { assert (forall f, f ∈ Base._fields T ->
              Frame.get df f = st !! Cache._path (Base.year T) f) as Hdfget.
    { intros f Hf. apply (loaded_get_None T st df f Hdf Hf). by intros ->. }
    clear -Hvs Hdfget. induction Hvs as [|f v fs vs Hv _ IH]; constructor.
    - rewrite Hdfget by apply list_elem_of_here. done.
    - apply IH. intros f' Hf'. apply Hdfget. by apply list_elem_of_further. }
  destruct Hcases as [[Hlen ->]|[Hlen Hslow]].
  - f_equal. f_equal.
    destruct (fast_path_columns T st df Hdf Hlen) as [Hcols _].
    rewrite <- (select_self df) at 1.
    + rewrite Hcols. by apply select_all.
    + destruct (_load_cached_spec T st) as (df' & Hdf' & Hc & _).
      rewrite Hdf in Hdf'. injection Hdf' as <-. rewrite Hc.
      apply NoDup_foldl_add_name, NoDup_nil_2.
  - assert (Base.resolve_loop (Base.proxy T limit) (Base._fields T) []
              {| Base.data := df; Base.raw := None; Base.loads := 0 |}
            = (Ok [], {| Base.data := df; Base.raw := None; Base.loads := 0 |})) as Hres.
    { apply resolve_loop_present. intros a Ha _. simpl. unfold Frame.has.
      apply bool_decide_eq_true_2.
      rewrite (loaded_get_None T st df a Hdf Ha) by (by intros ->).
      rewrite Forall_forall in Hall'. by destruct (Hall' a Ha). }
    destruct Hslow as [(extra & s & Hres' & ->)|(e & s & Hres' & _)];
      rewrite Hres in Hres'; [|done].
    injection Hres' as <- <-. simpl. rewrite (save_nil T). f_equal. f_equal.
    unfold sliced. rewrite bool_decide_eq_false_2 by done.
    rewrite filter_all.
    + by apply select_all.
    + apply Forall_forall. intros f Hf. unfold Frame.has.
      apply Is_true_true, bool_decide_eq_true_2.
      rewrite (loaded_get_None T st df f Hdf Hf) by (by intros ->).
      rewrite Forall_forall in Hall'. by destruct (Hall' f Hf).
Qed.

Lemma call_all_cached_witness :
  Base.__call__ (person_1985 ["weight"; "age"]) 10
    (Cache.save 1985 (Cache.AFrame two_columns) ∅)
  = {| Base.returned :=
         Cache.load 1985 ["weight"; "age"] (Cache.save 1985 (Cache.AFrame two_columns) ∅);
       Base.cache := Cache.save 1985 (Cache.AFrame two_columns) ∅;
       Base.loader_calls := 0 |}.
Proof.
  apply (call_all_cached (person_1985 ["weight"; "age"]) 10
           (Cache.save 1985 (Cache.AFrame two_columns) ∅) 2).
  - repeat (apply Forall_cons_2; [vm_compute; reflexivity|]). apply Forall_nil_2.
  - intros f c Hf Hc.
    apply elem_of_cons in Hf as [-> | Hf];
      [vm_compute in Hc; injection Hc as <-; eexists; split; reflexivity|].
    apply elem_of_cons in Hf as [-> | Hf];
      [vm_compute in Hc; injection Hc as <-; eexists; split; reflexivity|].
    by apply elem_of_nil in Hf.
Defined.

Lemma call_year_column (T : Base.Transformer) (limit : nat) (st : Cache.store)
    (out : Frame.frame) :
  "year" ∈ Base._fields T ->
  Base.returned (Base.__call__ T limit st) = Ok out ->
  Frame.get out "year" = Some (Frame.Broadcast (Frame.SNum (Frame.of_int (Base.year T)))).
Proof.
  intros Hy.
  destruct (call_cases T limit st)
    as (df & Hdf & [[Hlen ->]|[_ [(extra & s & Hres & ->)|(e & s & _ & ->)]]]); simpl.
  - intros _. destruct (fast_path_columns T st df Hdf Hlen) as [_ Hcached].
    rewrite Forall_forall in Hcached. specialize (Hcached _ Hy).
    by rewrite cached_year in Hcached.
  - intros [= <-]. by apply get_sliced_year.
  - done.
Qed.

(** X13. When [year] is among the requested fields and the call returns,
    the table has the column [year] holding the transformer's year.  The
    column never comes from the cache directory and is never written to
    it: the file of [year] is after the call what it was before. *)
Theorem year_column (T : Base.Transformer) (limit : nat) (st : Cache.store) :
  Base.cache (Base.__call__ T limit st) !! Cache._path (Base.year T) "year"
  = st !! Cache._path (Base.year T) "year" /\
  forall out, "year" ∈ Base._fields T ->
    Base.returned (Base.__call__ T limit st) = Ok out ->
    Frame.get out "year"
    = Some (Frame.Broadcast (Frame.SNum (Frame.of_int (Base.year T)))).
Proof.
  split; [|intros out; apply call_year_column].
  destruct (call_cases T limit st)
    as (df & Hdf & [[Hlen ->]|[_ [(extra & s & Hres & ->)|(e & s & _ & ->)]]]); simpl;
    [done| |done].
  destruct (slow_facts T limit df extra s Hres) as (_ & _ & Horigin & Hnd).
  rewrite (saved_extra T st extra "year" Hnd).
  destruct (Frame.get extra "year") as [c|] eqn:E; [|done].
  apply get_Some_columns in E. by destruct (Horigin _ E) as (_ & Hy & _).
Qed.

(** ** Fields that cannot be resolved *)

Section dead_facts.
Import Frame Base.
Variable T : Transformer.
Variable dead : string -> Prop.
Hypothesis T_dead : dead_names T dead.

Section with_df.
Variable df : access -> string -> M pyobj.
Hypothesis df_keeps : forall by_ item s,
  unresolved T dead s -> unresolved T dead (df by_ item s).2.
Hypothesis df_fails : forall by_ item s,
  unresolved T dead s -> dead item -> is_ok (df by_ item s).1 = false.

Lemma run_keeps (p : prog) (s : session) :
  unresolved T dead s -> unresolved T dead (run df p s).2.
Proof.
  revert s. induction p as [v|e|by_ item k IH|item k IH]; intros s Hs; simpl; try done.
  - unfold bind. pose proof (df_keeps by_ item s Hs) as Hs'.
    destruct (df by_ item s) as [[v|e] s']; simpl in *; [by apply IH|done].
  - by apply IH.
Qed.

Lemma run_stuck (p : prog) (s : session) :
  stuck dead p -> unresolved T dead s -> is_ok (run df p s).1 = false.
Proof.
  intros Hp. revert s. induction Hp as [e|by_ item k Hitem|by_ item k _ IH|item k _ IH];
    intros s Hs; simpl; try done.
  - unfold bind. pose proof (df_fails by_ item s Hs Hitem) as Hf.
    by destruct (df by_ item s) as [[v|e] s'].
  - unfold bind. pose proof (df_keeps by_ item s Hs) as Hs'.
    destruct (df by_ item s) as [[v|e] s']; simpl in *; [by apply IH|done].
  - by apply IH.
Qed.

Lemma read_field_keeps (f : Field) (field : string) (s : session) :
  unresolved T dead s -> unresolved T dead (read_field df f field s).2.
Proof.
  intros Hs. unfold read_field. pose proof (df_keeps ByItem field s Hs) as Hs'.
  destruct (df ByItem field s) as [[v|[[]|]] s']; done.
Qed.

Lemma Field_transform_keeps (f : Field) (s : session) :
  unresolved T dead s -> unresolved T dead (Field_transform T df f s).2.
Proof.
  intros Hs. unfold Field_transform. destruct (spec f) as [field|D|]; [| |done].
  - by apply read_field_keeps.
  - destruct (Utils.select_by_year (year T) D) as [[|field|z]|e]; try done.
    by apply read_field_keeps.
Qed.

Lemma call_keeps (fn : attribute) (s : session) :
  unresolved T dead s -> unresolved T dead (call T df fn s).2.
Proof.
  intros Hs. destruct fn as [f|f|func|]; simpl; [| | |done].
  - by apply Field_transform_keeps.
  - unfold IncomeField_transform, bind.
    pose proof (Field_transform_keeps f s Hs) as Hs'.
    by destruct (Field_transform T df f s) as [[[|lst]|e] s'].
  - by apply run_keeps.
Qed.

Lemma unresolved_set (item : string) (c : column) (s : session) :
  unresolved T dead s -> ~ dead item ->
  unresolved T dead {| data := set (data s) item c; raw := raw s; loads := loads s |}.
Proof.
  intros [Hd Hr] Hitem. split; [|done]. simpl. intros x Hx.
  rewrite get_set_ne; [by apply Hd|]. by intros ->.
Qed.

Lemma fallback_dead (item : string) (exc : exn) (s : session) :
  unresolved T dead s ->
  unresolved T dead (_fallback T df item exc s).2 /\
  (dead item -> is_ok (_fallback T df item exc s).1 = false).
Proof.
  intros Hs. unfold _fallback.
  destruct (transformer_getattr T item) as [fn|] eqn:Hfn.
  - unfold bind. pose proof (call_keeps fn s Hs) as Hs'.
    assert (dead item -> is_ok (call T df fn s).1 = false) as Hfail.
    { intros Hitem. destruct (T_dead item Hitem) as [[Hn _]|[Hn|(func & Hn & Hstuck)]];
        rewrite Hn in Hfn; [done| |]; injection Hfn as <-; simpl; [done|].
      by apply run_stuck. }
    destruct (call T df fn s) as [[col|e] s1]; simpl in *; [|done].
    split; [|done]. apply (unresolved_set item (stored col) s1 Hs'). intros Hitem.
    by specialize (Hfail Hitem).
  - unfold bind, raw_table. destruct Hs as [Hd Hr].
    assert (exists s1, (match raw s with
                        | Some t => (Ok t, s)
                        | None => (Ok (_loader T),
                                   {| data := data s; raw := Some (_loader T);
                                      loads := S (loads s) |})
                        end) = (Ok (_loader T), s1) /\ unresolved T dead s1) as (s1 & -> & Hs1).
    { destruct Hr as [Hr|Hr]; rewrite Hr; eexists; (split; [done|]); split; simpl; auto. }
    destruct (_loader T !! item) as [c|] eqn:Hc; simpl.
    + assert (~ dead item) as Hitem.
      { intros Hitem. destruct (T_dead item Hitem) as [[_ Hn]|[Hn|(func & Hn & _)]]; congruence. }
      split; [|done]. by apply (unresolved_set item c s1).
    + done.
Qed.

End with_df.

Lemma proxy_dead (limit : nat) (by_ : access) (item : string) (s : session) :
  unresolved T dead s ->
  unresolved T dead (proxy T limit by_ item s).2 /\
  (dead item -> is_ok (proxy T limit by_ item s).1 = false).
Proof.
  revert by_ item s. induction limit as [|n IH]; intros by_ item s Hs; [done|].
  assert (forall exc : exn,
            unresolved T dead
              (match get (data s) item with
               | Some c => (Ok (ObjCol c), s)
               | None => _fallback T (proxy T n) item exc s
               end).2 /\
            (dead item ->
             is_ok (match get (data s) item with
                    | Some c => (Ok (ObjCol c), s)
                    | None => _fallback T (proxy T n) item exc s
                    end).1 = false)) as H.
  { intros exc. destruct (get (data s) item) as [c|] eqn:E.
    - split; [done|]. intros Hitem. destruct Hs as [Hd _]. rewrite (Hd item Hitem) in E. done.
    - apply fallback_dead; [| |done].
      + intros by' item' s' Hs'. by apply (IH by' item' s' Hs').
      + intros by' item' s' Hs' Hitem. by apply (IH by' item' s' Hs'). }
  destruct by_; apply H.
Qed.

Lemma resolve_loop_dead (limit : nat) (attrs : list string) (extra : frame)
    (s : session) (d : string) :
  unresolved T dead s -> dead d -> d <> "year" -> d ∈ attrs ->
  is_ok (resolve_loop (proxy T limit) attrs extra s).1 = false.
Proof.
  intros Hs Hd Hy. revert extra s Hs.
  induction attrs as [|attr attrs IH]; intros extra s Hs Hin; [by apply elem_of_nil in Hin|].
  cbn [resolve_loop]. case_bool_decide as Hattr.
  - apply IH; [done|]. apply elem_of_cons in Hin as [->|Hin]; done.
  - destruct (has (data s) attr) eqn:Hhas.
    + apply IH; [done|]. apply elem_of_cons in Hin as [->|Hin]; [|done].
      destruct Hs as [Hdata _]. apply has_true in Hhas.
      by apply (get_None_columns (data s) attr) in Hhas; [|apply Hdata].
    + destruct (proxy_dead limit ByAttr attr s Hs) as [Hs' Hfail].
      destruct (proxy T limit ByAttr attr s) as [[[|col]|e] s'] eqn:E; simpl in *; [| |done].
      * apply IH; [done|]. apply elem_of_cons in Hin as [->|Hin]; [|done].
        by specialize (Hfail Hd).
      * apply IH.
        -- apply (unresolved_set attr col s' Hs'). intros Ha. by specialize (Hfail Ha).
        -- apply elem_of_cons in Hin as [->|Hin]; [|done]. by specialize (Hfail Hd).
Qed.

Lemma dead_request_fails (limit : nat) (st : Cache.store) (d : string) :
  dead d -> d <> "year" -> d ∈ _fields T ->
  (forall x, dead x -> st !! Cache._path (year T) x = None) ->
  is_ok (returned (__call__ T limit st)) = false.
Proof.
  intros Hd Hy Hin Hst.
  destruct (call_cases T limit st)
    as (df & Hdf & [[Hlen ->]|[_ [(extra & s & Hres & ->)|(e & s & _ & ->)]]]); simpl; [| |done].
  - destruct (fast_path_columns T st df Hdf Hlen) as [_ Hcached].
    rewrite Forall_forall in Hcached. specialize (Hcached _ Hin).
    unfold cached in Hcached. apply andb_true_iff in Hcached as [_ Hs].
    apply bool_decide_eq_true in Hs. rewrite (Hst d Hd) in Hs. by destruct Hs.
  - assert (unresolved T dead {| data := df; raw := None; loads := 0 |}) as Hs.
    { split; [|by left]. simpl. intros x Hx. rewrite (loaded_get T st df x Hdf).
      destruct (bool_decide (x ∈ _fields T) && cached T st x); [by apply Hst|done]. }
    pose proof (resolve_loop_dead limit (_fields T) [] _ d Hs Hd Hy Hin) as Hfail.
    by rewrite Hres in Hfail.
Qed.

End dead_facts.

Lemma resolve_loop_skip (new : Base.access -> string -> Base.M Frame.pyobj)
    (pre attrs : list string) (extra : Frame.frame) (s : Base.session) :
  Forall (fun a => a = "year" \/ Frame.has (Base.data s) a = true) pre ->
  Base.resolve_loop new (pre ++ attrs) extra s = Base.resolve_loop new attrs extra s.
Proof.
  induction 1 as [|a pre Ha _ IH]; [done|].
  simpl. case_bool_decide as Hy; [done|].
  destruct Ha as [Ha|Ha]; [done|]. by rewrite Ha.
Qed.

Lemma uncached_slow (T : Base.Transformer) (st : Cache.store) (df : Frame.frame) (f : string) :
  Base._load_cached T st = Ok df -> f ∈ Base._fields T ->
  st !! Cache._path (Base.year T) f = None ->
  length (Frame.columns df) <> length (Base._fields T) /\ Frame.get df f = None.
Proof.
  intros Hdf Hf Hnone. split.
  - intros Hlen. destruct (fast_path_columns T st df Hdf Hlen) as [_ Hcached].
    rewrite Forall_forall in Hcached. specialize (Hcached _ Hf).
    unfold cached in Hcached. apply andb_true_iff in Hcached as [_ Hs].
    apply bool_decide_eq_true in Hs. rewrite Hnone in Hs. by destruct Hs.
  - rewrite (loaded_get T st df f Hdf).
    by destruct (bool_decide (f ∈ Base._fields T) && cached T st f).
Qed.

Lemma cached_has (T : Base.Transformer) (st : Cache.store) (df : Frame.frame) (pre : list string) :
  Base._load_cached T st = Ok df ->
  pre ⊆ Base._fields T ->
  Forall (fun a => a = "year" \/ cached T st a = true) pre ->
  Forall (fun a => a = "year" \/ Frame.has df a = true) pre.
Proof.
  intros Hdf Hsub Hpre. apply Forall_forall. intros a Ha.
  rewrite Forall_forall in Hpre. destruct (Hpre a Ha) as [->|Hc]; [by left|right].
  unfold Frame.has. apply bool_decide_eq_true_2.
  rewrite (loaded_get T st df a Hdf), bool_decide_eq_true_2, Hc by by apply Hsub.
  simpl. unfold cached in Hc. apply andb_true_iff in Hc as [_ Hc].
  by apply bool_decide_eq_true in Hc.
Qed.

(** X14. An exception of [select_by_year] in a field is the exception of
    the call.  When the first requested field that has no file in the
    cache directory is a [Field] or [IncomeField] whose year
    specification raises for the transformer's year (the [ValueError] of
    a year without range), the call raises that exception, writes
    nothing and does not call the loader. *)
Theorem field_error_is_raised (T : Base.Transformer) (limit : nat) (st : Cache.store)
    (pre rest : list string) (f : string) (fld : Base.Field)
    (D : list (Utils.key * Utils.outcome)) (e : exn) :
  Base._fields T = pre ++ f :: rest ->
  Forall (fun a => a = "year" \/ cached T st a = true) pre ->
  st !! Cache._path (Base.year T) f = None ->
  (0 < limit)%nat ->
  Base.transformer_getattr T f = Some (Base.AField fld) \/
  Base.transformer_getattr T f = Some (Base.AnIncomeField fld) ->
  Base.spec fld = Base.SpecYears D ->
  Utils.select_by_year (Base.year T) D = Raise e ->
  Base.__call__ T limit st
  = {| Base.returned := Raise e; Base.cache := st; Base.loader_calls := 0 |}.
Proof.
  intros Hfields Hpre Hnone Hlimit Hattr Hspec Hsel.
  destruct (_load_cached_spec T st) as (df & Hdf & _).
  assert (f ∈ Base._fields T) as Hf.
  { rewrite Hfields. apply elem_of_app. right. apply list_elem_of_here. }
  destruct (uncached_slow T st df f Hdf Hf Hnone) as [Hlen Hget].
  assert (f <> "year") as Hy.
  { intros ->. unfold Base.transformer_getattr in Hattr. simpl in Hattr.
    by destruct Hattr. }
  unfold Base.__call__. rewrite Hdf, (proj2 (Nat.eqb_neq _ _) Hlen).
  rewrite Hfields, resolve_loop_skip.
  2:{ apply (cached_has T st df pre Hdf); [|done]. rewrite Hfields.
      intros a Ha. apply elem_of_app. by left. }
  cbn [Base.resolve_loop]. rewrite bool_decide_eq_false_2 by done.
  cbn [Base.data]. rewrite (proj2 (has_false df f) Hget).
  destruct limit as [|n]; [lia|]. cbn [Base.proxy]. unfold Base.__getattr__.
  cbn [Base.data]. rewrite Hget. unfold Base._fallback.
  destruct Hattr as [-> | ->]; unfold Base.bind; simpl;
    unfold Base.IncomeField_transform, Base.bind, Base.Field_transform;
    by rewrite Hspec, Hsel.
Qed.

Lemma field_error_is_raised_witness :
  Base.__call__ (person_1980 ["year"; "weight"; "occupation"]) 10 ∅
  = {| Base.returned := Raise (ValueError "no valid range for year");
       Base.cache := ∅; Base.loader_calls := 0 |}.
Proof.
  apply (field_error_is_raised (person_1980 ["year"; "weight"; "occupation"]) 10 ∅
           ["year"] ["occupation"] "weight"
           (Base.Field_of (Base.SpecYears weight_years)) weight_years
           (ValueError "no valid range for year")).
  - reflexivity.
  - apply Forall_cons_2; [by left|apply Forall_nil_2].
  - reflexivity.
  - lia.
  - left. vm_compute. reflexivity.
  - reflexivity.
  - vm_compute. reflexivity.
Defined.

(** X15. A requested name of a raw variable ([V] and digits) that is
    neither a field of the transformer nor a column of the raw table,
    and has no file in the cache directory, makes the call raise,
    wherever it stands among the requested fields.  When it is the first
    field without a file, the call raises the [AttributeError] of that
    name, after loading the raw table once, and writes nothing. *)
Theorem unknown_field_fails (T : Base.Transformer) (limit : nat) (st : Cache.store)
    (item : string) :
  raw_name item = true ->
  item ∈ Base._fields T ->
  Base.transformer_getattr T item = None ->
  Base._loader T !! item = None ->
  st !! Cache._path (Base.year T) item = None ->
  is_ok (Base.returned (Base.__call__ T limit st)) = false /\
  (forall pre rest,
     Base._fields T = pre ++ item :: rest ->
     Forall (fun a => a = "year" \/ cached T st a = true) pre ->
     (0 < limit)%nat ->
     Base.__call__ T limit st
     = {| Base.returned := Raise (AttributeError item);
          Base.cache := st; Base.loader_calls := 1 |}).
Proof.
  intros _ Hin Hattr Hraw Hnone.
  assert (item <> "year") as Hy.
  { intros ->. by unfold Base.transformer_getattr in Hattr. }
  split.
  - apply (dead_request_fails T (fun x => x = item)) with (d := item); try done.
    + intros x ->. by left.
    + by intros x ->.
  - intros pre rest Hfields Hpre Hlimit.
    destruct (_load_cached_spec T st) as (df & Hdf & _).
    destruct (uncached_slow T st df item Hdf Hin Hnone) as [Hlen Hget].
    unfold Base.__call__. rewrite Hdf, (proj2 (Nat.eqb_neq _ _) Hlen).
    rewrite Hfields, resolve_loop_skip.
    2:{ apply (cached_has T st df pre Hdf); [|done]. rewrite Hfields.
        intros a Ha. apply elem_of_app. by left. }
    cbn [Base.resolve_loop]. rewrite bool_decide_eq_false_2 by done.
    cbn [Base.data]. rewrite (proj2 (has_false df item) Hget).
    destruct limit as [|n]; [lia|]. cbn [Base.proxy]. unfold Base.__getattr__.
    cbn [Base.data]. rewrite Hget. unfold Base._fallback. rewrite Hattr.
    unfold Base.bind, Base.raw_table. simpl. by rewrite Hraw.
Qed.

Lemma unknown_field_fails_witness :
  is_ok (Base.returned (Base.__call__ (person_1985 ["weight"; "V0000"]) 10 ∅)) = false /\
  (forall pre rest,
     ["weight"; "V0000"] = pre ++ "V0000" :: rest ->
     Forall (fun a => a = "year" \/ cached (person_1985 ["weight"; "V0000"]) ∅ a = true) pre ->
     (0 < 10)%nat ->
     Base.__call__ (person_1985 ["weight"; "V0000"]) 10 ∅
     = {| Base.returned := Raise (AttributeError "V0000");
          Base.cache := ∅; Base.loader_calls := 1 |}).
Proof.
  apply (unknown_field_fails (person_1985 ["weight"; "V0000"]) 10 ∅ "V0000").
  - reflexivity.
  - apply list_elem_of_further, list_elem_of_here.
  - reflexivity.
  - reflexivity.
  - reflexivity.
Defined.

(** ** Year specifications whose ranges do not overlap *)

Section select_by_year_more.
Import Utils.

Lemma comparable_spec (l : list triple) :
  comparable l = true <-> forall x y, x ∈ l -> y ∈ l -> is_Some (tuple_lt x y).
Proof.
  unfold comparable. rewrite forallb_forall. split.
  - intros H x y Hx Hy. apply list_elem_of_In in Hx, Hy.
    specialize (H x Hx). rewrite forallb_forall in H.
    specialize (H y Hy). by apply bool_decide_eq_true in H.
  - intros H x Hx. apply forallb_forall. intros y Hy.
    apply list_elem_of_In in Hx, Hy. apply bool_decide_eq_true_2. by apply H.
Qed.

Lemma comparable_perm (l l' : list triple) :
  l ≡ₚ l' -> comparable l = true -> comparable l' = true.
Proof.
  intros Hp. rewrite !comparable_spec. intros H x y Hx Hy.
  apply H; by rewrite Hp.
Qed.

(** The outcome of [select_by_year], by the entries that contain the year. *)
Lemma select_by_year_cases (year : Z) (D : list (key * outcome)) :
  comparable (map normalize D) = true ->
  (exists entry, entry ∈ D /\ contains year (normalize entry) = true /\
                 select_by_year year D = Ok entry.2) \/
  ((forall entry, entry ∈ D -> contains year (normalize entry) = false) /\
   select_by_year year D = Raise (ValueError "no valid range for year")).
Proof.
  intros Hc. unfold select_by_year, list_sort. rewrite Hc, first_match_find.
  destruct (find (contains year) (sorted_spec (map normalize D))) as [t|] eqn:E.
  - left. apply find_some in E as [Hin Ht]. apply list_elem_of_In in Hin.
    rewrite sorted_spec_perm in Hin. apply list_elem_of_fmap in Hin as (entry & -> & Hin).
    exists entry. split; [done|]. split; [done|]. by destruct entry as [[]].
  - right. split; [|done]. intros entry Hin.
    apply (find_none _ _ E). apply list_elem_of_In. rewrite sorted_spec_perm.
    apply list_elem_of_fmap. by exists entry.
Qed.

End select_by_year_more.

(** X16. For a specification that can be sorted and in which the entries
    that contain the year agree on the outcome (as when no two ranges
    overlap), [select_by_year] returns the outcome of any entry that
    contains the year, raises the [ValueError] when none does, and does
    not depend on the order in which the entries are given. *)
Theorem select_by_year_any_order (year : Z) (D : list (Utils.key * Utils.outcome)) :
  Utils.comparable (map Utils.normalize D) = true ->
  (forall e e', e ∈ D -> e' ∈ D ->
     Utils.contains year (Utils.normalize e) = true ->
     Utils.contains year (Utils.normalize e') = true -> e.2 = e'.2) ->
  (forall entry, entry ∈ D -> Utils.contains year (Utils.normalize entry) = true ->
     Utils.select_by_year year D = Ok entry.2) /\
  ((forall entry, entry ∈ D -> Utils.contains year (Utils.normalize entry) = false) ->
   Utils.select_by_year year D = Raise (ValueError "no valid range for year")) /\
  (forall D', D' ≡ₚ D -> Utils.select_by_year year D' = Utils.select_by_year year D).
Proof.
  intros Hc Hagree.
  assert (forall entry, entry ∈ D -> Utils.contains year (Utils.normalize entry) = true ->
            Utils.select_by_year year D = Ok entry.2) as Hany.
  { intros entry Hin Hyes.
    destruct (select_by_year_cases year D Hc) as [(e & He & Hce & ->)|[Hno _]].
    - f_equal. by apply Hagree.
    - rewrite (Hno entry Hin) in Hyes. done. }
  split; [done|]. split.
  - intros Hno. destruct (select_by_year_cases year D Hc) as [(e & He & Hce & _)|[_ Hr]]; [|done].
    rewrite (Hno e He) in Hce. done.
  - intros D' Hp.
    assert (Utils.comparable (map Utils.normalize D') = true) as Hc'.
    { apply (comparable_perm (map Utils.normalize D)); [|done]. by rewrite Hp. }
    destruct (select_by_year_cases year D' Hc') as [(e & He & Hce & ->)|[Hno ->]].
    + symmetry. apply Hany; [|done]. by rewrite <- Hp.
    + destruct (select_by_year_cases year D Hc) as [(e & He & Hce & _)|[_ Hr]]; [|done].
      rewrite Hno in Hce; [done|]. by rewrite Hp.
Qed.

Lemma select_by_year_any_order_witness :
  (forall entry, entry ∈ doctest_spec -> Utils.contains 1999 (Utils.normalize entry) = true ->
     Utils.select_by_year 1999 doctest_spec = Ok entry.2) /\
  ((forall entry, entry ∈ doctest_spec -> Utils.contains 1999 (Utils.normalize entry) = false) ->
   Utils.select_by_year 1999 doctest_spec = Raise (ValueError "no valid range for year")) /\
  (forall D', D' ≡ₚ doctest_spec ->
     Utils.select_by_year 1999 D' = Utils.select_by_year 1999 doctest_spec).
Proof.
  apply (select_by_year_any_order 1999 doctest_spec).
  - vm_compute. reflexivity.
  - intros e e' He He' Hc Hc'.
    repeat (apply elem_of_cons in He as [->|He]; [|]); try (by apply elem_of_nil in He);
      try (by vm_compute in Hc);
      repeat (apply elem_of_cons in He' as [->|He']; [|]); try (by apply elem_of_nil in He');
      try (by vm_compute in Hc'); reflexivity.
Defined.

(** ** A new transformer *)

Section init_facts.
Import Base Init.

#[local] Instance alphabetical_total : Total alphabetical.
Proof. intros a b. apply String.leb_total. Qed.

Lemma elem_of_all_fields (declared : gmap string attribute) (f : string) :
  f ∈ _all_fields declared <->
  (f = "year" \/ is_Some (declared !! f)) /\ startswith_underscore f = false.
Proof.
  unfold _all_fields. rewrite list_elem_of_filter, merge_sort_Permutation.
  rewrite elem_of_elements, elem_of_union, elem_of_singleton, elem_of_dom. tauto.
Qed.

Lemma NoDup_all_fields (declared : gmap string attribute) : NoDup (_all_fields declared).
Proof.
  unfold _all_fields. apply NoDup_filter. rewrite merge_sort_Permutation.
  apply NoDup_elements.
Qed.

Lemma Sorted_filter_total {A} (R : relation A) (P : A -> Prop) `{forall x, Decision (P x)}
    (l : list A) :
  Transitive R -> Sorted R l -> Sorted R (filter P l).
Proof.
  intros HR Hl. apply Sorted_StronglySorted in Hl; [|done].
  apply StronglySorted_Sorted.
  induction Hl as [|x l Hl IH Hx]; [constructor|].
  rewrite filter_cons. destruct (decide (P x)); [|done].
  constructor; [done|].
  apply Forall_forall. intros y [_ Hy]%list_elem_of_filter.
  rewrite Forall_forall in Hx. by apply Hx.
Qed.

Lemma ascii_compare_lt (a b : ascii) :
  Ascii.compare a b = Lt <-> (N_of_ascii a < N_of_ascii b)%N.
Proof. unfold Ascii.compare. apply N.compare_lt_iff. Qed.

Lemma ascii_compare_eq (a b : ascii) : Ascii.compare a b = Eq <-> a = b.
Proof.
  split; [apply Ascii.compare_eq_iff|]. intros ->. unfold Ascii.compare. apply N.compare_refl.
Qed.

Lemma string_compare_trans (s1 s2 s3 : string) :
  String.compare s1 s2 <> Gt -> String.compare s2 s3 <> Gt -> String.compare s1 s3 <> Gt.
Proof.
  revert s2 s3. induction s1 as [|a s1 IH]; intros [|b s2] [|c s3]; simpl; try done.
  destruct (Ascii.compare a b) eqn:Hab; [| |done].
  - apply ascii_compare_eq in Hab as ->.
    destruct (Ascii.compare b c) eqn:Hbc; [|done..]. apply IH.
  - intros _. destruct (Ascii.compare b c) eqn:Hbc; [| |done]; intros _.
    + apply ascii_compare_eq in Hbc as <-. by rewrite Hab.
    + apply ascii_compare_lt in Hab, Hbc.
      assert (Ascii.compare a c = Lt) as ->; [|done].
      apply ascii_compare_lt. by etrans.
Qed.

#[local] Instance alphabetical_trans : Transitive alphabetical.
Proof.
  intros s1 s2 s3. unfold alphabetical, String.leb. intros H12 H23.
  pose proof (string_compare_trans s1 s2 s3) as H.
  destruct (String.compare s1 s2); [| |done];
    destruct (String.compare s2 s3); try done;
    destruct (String.compare s1 s3); try done; by destruct H.
Qed.

Lemma Sorted_all_fields (declared : gmap string attribute) :
  Sorted alphabetical (_all_fields declared).
Proof.
  unfold _all_fields. apply Sorted_filter_total; [apply _|].
  apply (Sorted_merge_sort alphabetical).
Qed.

End init_facts.

(** X17. A transformer made without a field list, or with an empty one,
    requests [year] and every field its class declares whose name does
    not start with an underscore, each once and in alphabetical order;
    so whenever a call of it returns, the table has the column [year]. *)
Theorem default_fields (declared : gmap string Base.attribute) (year : Z)
    (loader : Base.table) :
  Init.__init__ declared year (Some []) loader = Init.__init__ declared year None loader /\
  NoDup (Base._fields (Init.__init__ declared year None loader)) /\
  Sorted Init.alphabetical (Base._fields (Init.__init__ declared year None loader)) /\
  (forall f, f ∈ Base._fields (Init.__init__ declared year None loader) <->
     (f = "year" \/ is_Some (declared !! f)) /\ Init.startswith_underscore f = false) /\
  (forall limit st out,
     Base.returned (Base.__call__ (Init.__init__ declared year None loader) limit st) = Ok out ->
     Frame.get out "year" = Some (Frame.Broadcast (Frame.SNum (Frame.of_int year)))).
Proof.
  split; [done|]. split; [apply NoDup_all_fields|]. split; [apply Sorted_all_fields|].
  split; [apply elem_of_all_fields|].
  intros limit st out Hout.
  apply (call_year_column (Init.__init__ declared year None loader) limit st out); [|done].
  apply elem_of_all_fields. split; [by left|done].
Qed.

Example default_fields_of_person :
  Base._fields (Init.__init__ person_fields 1985 None raw_1985)
  = ["income_retirement_other"; "occupation"; "occupation_week"; "occupation_year";
     "weight"; "weight_family"; "year"].
Proof. vm_compute. reflexivity. Qed.

(** ** The loaders *)

(** X18. [load_household] raises the [KeyError] of ['household'] for
    every year and field list, whatever the data directory holds: its
    table of transformer classes has the person transformer only.
    [load_raw] itself does read the household file of the year. *)
Theorem load_household_raises (data_path : string) (files : gmap string Base.table)
    (PersonTransformer : Z -> option (list string) -> result Base.table -> result Frame.frame)
    (year : Z) (fields : option (list string)) :
  Loader.load_household data_path files PersonTransformer year fields
  = Raise (KeyError "household") /\
  Loader.load data_path files PersonTransformer year fields
  = PersonTransformer year fields (Loader.load_raw data_path files year "person") /\
  Loader.load_raw data_path files year "household"
  = match files !! (data_path +:+ "/" +:+ pretty year +:+ "/dom" +:+ pretty year +:+ ".pnad") with
    | Some t => Ok t
    | None => Raise (FileNotFoundError
                       (data_path +:+ "/" +:+ pretty year +:+ "/dom" +:+ pretty year +:+ ".pnad"))
    end.
Proof.
  split; [done|]. split; [done|].
  unfold Loader.load_raw, Loader.name, Loader.raw_file. simpl.
  assert (forall s : string, "/" +:+ "dom" +:+ s = "/dom" +:+ s) as Heq by done.
  by rewrite Heq.
Qed.

(** ** The catalog *)

Section income_facts.
Import Frame Base.
Variable T : Transformer.
Hypothesis T_income : Catalog.IncomeDataMixin ⊆ declared T.
Hypothesis T_no_attr : declared T !! "income_investiments" = None.
Hypothesis T_no_column : _loader T !! "income_investiments" = None.

Lemma income_getattr (name : string) (a : attribute) :
  Catalog.IncomeDataMixin !! name = Some a -> transformer_getattr T name = Some a.
Proof.
  intros Ha. unfold transformer_getattr. case_bool_decide as Hy.
  - subst. by vm_compute in Ha.
  - by apply (lookup_weaken _ _ _ _ Ha).
Qed.

Lemma income_dead_names : dead_names T income_dead.
Proof.
  intros x [-> | [-> | ->]].
  - left. split; [|done]. unfold transformer_getattr. by rewrite bool_decide_eq_false_2.
  - right. right. exists Catalog.income_capital. split; [by apply income_getattr|].
    unfold Catalog.income_capital. simpl.
    apply stuck_get. intros v. apply stuck_dead. by left.
  - right. right. eexists. split; [by apply income_getattr|]. simpl.
    apply stuck_get. intros v1. apply stuck_get. intros v2. apply stuck_dead. right. by left.
Qed.

End income_facts.


(** X19. [income_capital] reads [df.income_investiments], a name that no
    field has (the field is [income_investments]), and [income] reads
    [df.income_capital].  So for a transformer whose class has the
    fields of [IncomeDataMixin], with no attribute and no raw column of
    that name, a call that requests [income_capital] or [income] raises,
    for every year, unless the cache directory has files for them; and
    so does a call of a transformer made without a field list. *)
Theorem income_is_never_computed (T : Base.Transformer) (limit : nat) (st : Cache.store) :
  Catalog.IncomeDataMixin ⊆ Base.declared T ->
  Base.declared T !! "income_investiments" = None ->
  Base._loader T !! "income_investiments" = None ->
  (forall x, income_dead x -> st !! Cache._path (Base.year T) x = None) ->
  ("income_capital" ∈ Base._fields T \/ "income" ∈ Base._fields T ->
   is_ok (Base.returned (Base.__call__ T limit st)) = false) /\
  is_ok (Base.returned
           (Base.__call__ (Init.__init__ (Base.declared T) (Base.year T) None (Base._loader T))
              limit st)) = false.
Proof.
  intros Hsub Hattr Hraw Hst.
  pose proof (income_dead_names T Hsub Hattr Hraw) as Hdead.
  assert (income_dead "income_capital") as Hcap by (right; by left).
  assert (income_dead "income") as Hinc by (right; by right).
  split.
  - intros [Hin|Hin].
    + exact (dead_request_fails T income_dead Hdead limit st "income_capital"
               Hcap ltac:(discriminate) Hin Hst).
    + exact (dead_request_fails T income_dead Hdead limit st "income"
               Hinc ltac:(discriminate) Hin Hst).
  - set (T' := Init.__init__ (Base.declared T) (Base.year T) None (Base._loader T)).
    assert ("income" ∈ Base._fields T') as Hin.
    { apply elem_of_all_fields. split; [|reflexivity]. right.
      assert (Catalog.IncomeDataMixin !! "income"
              = Some (Catalog.sum_of ["income_work"; "income_social"; "income_capital";
                                      "income_misc"])) as Hl by (vm_compute; reflexivity).
      exists (Catalog.sum_of ["income_work"; "income_social"; "income_capital"; "income_misc"]).
      exact (lookup_weaken _ _ _ _ Hl Hsub). }
    exact (dead_request_fails T' income_dead (income_dead_names T' Hsub Hattr Hraw)
             limit st "income" Hinc ltac:(discriminate) Hin Hst).
Qed.

Lemma income_is_never_computed_witness :
  ("income_capital" ∈ ["weight"; "income"] \/ "income" ∈ ["weight"; "income"] ->
   is_ok (Base.returned (Base.__call__ (income_1985 ["weight"; "income"]) 10 ∅)) = false) /\
  is_ok (Base.returned
           (Base.__call__ (Init.__init__ Catalog.IncomeDataMixin 1985 None raw_1985) 10 ∅))
  = false.
Proof.
  apply (income_is_never_computed (income_1985 ["weight"; "income"]) 10 ∅).
  - reflexivity.
  - vm_compute. reflexivity.
  - vm_compute. reflexivity.
  - intros x _. apply lookup_empty.
Defined.

Example income_capital_of_1985 :
  Base.__call__ (income_1985 ["income_rent"; "income_capital"]) 10 ∅
  = {| Base.returned := Raise (AttributeError "income_investiments");
       Base.cache := ∅; Base.loader_calls := 1 |}.
Proof. vm_compute. reflexivity. Qed.

Section catalog_facts.
Import Utils.

Lemma catalog_checked :
  forallb (fun na : string * Base.attribute =>
             match year_spec na.2 with
             | Some D => covers_the_surveys D
             | None => true
             end) (map_to_list catalog) = true.
Proof. vm_compute. reflexivity. Qed.

Lemma catalog_covers (name : string) (a : Base.attribute) (D : list (key * outcome)) :
  catalog !! name = Some a -> year_spec a = Some D -> covers_the_surveys D = true.
Proof.
  intros Ha HD. pose proof catalog_checked as H. rewrite forallb_forall in H.
  specialize (H (name, a)). cbn [snd] in H. rewrite HD in H. apply H.
  apply (proj1 (list_elem_of_In (map_to_list catalog) (name, a))).
  apply elem_of_map_to_list. exact Ha.
Qed.

Lemma ext_leb_Fin (a b : Z) : ext_leb (Fin a) (Fin b) = true <-> a <= b.
Proof.
  unfold ext_leb, ext_ltb, ext_eqb. rewrite orb_true_iff, Z.ltb_lt, Z.eqb_eq. lia.
Qed.

Lemma contains_since (year : Z) (t : triple) :
  ext_leb (lo t) (Fin 1992) = true -> ext_eqb (hi t) PosInf = true -> 1992 <= year ->
  contains year t = true.
Proof.
  intros Hlo Hhi Hy. unfold contains. apply andb_true_iff. split.
  - apply (ext_leb_trans _ (Fin 1992)); [done|]. by apply ext_leb_Fin.
  - apply ext_eqb_eq in Hhi. by rewrite Hhi.
Qed.

End catalog_facts.

(** X20. Every year specification of the catalog (the fields of
    economy.py and the weights of person.py) can be sorted, so that
    [select_by_year] raises nothing but the [ValueError] of a year
    without range on it, and it selects an entry for every year from
    1981 to 1990 and from 1992 on. *)
Theorem catalog_specs_resolve (name : string) (a : Base.attribute)
    (D : list (Utils.key * Utils.outcome)) (year : Z) :
  catalog !! name = Some a ->
  year_spec a = Some D ->
  Utils.comparable (map Utils.normalize D) = true /\
  (1981 <= year <= 1990 \/ 1992 <= year -> is_ok (Utils.select_by_year year D) = true) /\
  (is_ok (Utils.select_by_year year D) = false ->
   Utils.select_by_year year D = Raise (ValueError "no valid range for year")).
Proof.
  intros Ha HD. pose proof (catalog_covers name a D Ha HD) as Hc.
  unfold covers_the_surveys in Hc.
  apply andb_true_iff in Hc as [Hc Hlate]. apply andb_true_iff in Hc as [Hsort Hmid].
  split; [done|]. split.
  - intros [Hy|Hy].
    + rewrite forallb_forall in Hmid. apply Hmid. apply list_elem_of_In, elem_of_seqZ. lia.
    + apply existsb_exists in Hlate as (t & Ht & Hcheck).
      apply andb_true_iff in Hcheck as [Hlo Hhi].
      apply list_elem_of_In, list_elem_of_fmap in Ht as (entry & -> & Hentry).
      destruct (select_by_year_cases year D Hsort) as [(e & _ & _ & ->)|[Hno _]]; [done|].
      specialize (Hno entry Hentry).
      by rewrite (contains_since year _ Hlo Hhi Hy) in Hno.
  - intros Hfail.
    destruct (select_by_year_cases year D Hsort) as [(e & _ & _ & Hok)|[_ Hr]]; [|done].
    by rewrite Hok in Hfail.
Qed.

Lemma catalog_specs_resolve_witness :
  Utils.comparable (map Utils.normalize weight_years) = true /\
  (1981 <= 1985 <= 1990 \/ 1992 <= 1985 ->
   is_ok (Utils.select_by_year 1985 weight_years) = true) /\
  (is_ok (Utils.select_by_year 1985 weight_years) = false ->
   Utils.select_by_year 1985 weight_years = Raise (ValueError "no valid range for year")).
Proof.
  apply (catalog_specs_resolve "weight" (Catalog.field weight_years) weight_years 1985).
  - vm_compute. reflexivity.
  - reflexivity.
Defined.


(** Whether an entry contains a year, in arithmetic. *)
Lemma contains_iff (year : Z) (t : Utils.triple) :
  Utils.contains year t = true <->
  match Utils.lo t with
  | Utils.NegInf => True
  | Utils.Fin a => a <= year
  | Utils.PosInf => False
  end /\
  match Utils.hi t with
  | Utils.NegInf => False
  | Utils.Fin b => year <= b
  | Utils.PosInf => True
  end.
Proof.
  unfold Utils.contains. rewrite andb_true_iff.
  destruct (Utils.lo t) as [|a|], (Utils.hi t) as [|b|];
    rewrite ?ext_leb_Fin; unfold Utils.ext_leb; simpl; intuition (try done).
Qed.

Ltac first_match_cases :=
  cbn [Utils.first_match];
  repeat match goal with
         | |- context [Utils.contains ?y ?t] =>
             let E := fresh "E" in
             destruct (Utils.contains y t) eqn:E;
             [ apply contains_iff in E
             | apply not_true_iff_false in E; rewrite contains_iff in E ];
             cbn [Utils.lo Utils.hi Utils.value fst snd] in E;
             try (exfalso; lia); try (exfalso; tauto)
         end.

Lemma income_investments_sorted :
  Utils.list_sort (map Utils.normalize income_investments_years)
  = Ok [ (Utils.NegInf, Utils.Fin 1990, Utils.Unavailable);
         (Utils.Fin 1976, Utils.Fin 1976, Utils.Unavailable);
         (Utils.Fin 1977, Utils.Fin 1977, Utils.RawColumn "V95");
         (Utils.Fin 1978, Utils.Fin 1978, Utils.RawColumn "V2483");
         (Utils.Fin 1979, Utils.Fin 1979, Utils.RawColumn "V2361");
         (Utils.Fin 1992, Utils.PosInf, Utils.RawColumn "V1273") ].
Proof. vm_compute. reflexivity. Qed.

(** X21. The year specification of [income_investments] has the range
    [(..., 1990)] for [None] besides the single years 1976 to 1979;
    sorted, that range comes first, so that [select_by_year] selects
    [None] for every year up to 1990, the columns named for 1977, 1978
    and 1979 are never selected, and the proxy resolves the field to a
    column of NaN without reading the raw table. *)
Theorem income_investments_before_1992 (year : Z) :
  Catalog.IncomeDataMixin !! "income_investments"
  = Some (Catalog.income_field income_investments_years) /\
  (year <= 1990 -> Utils.select_by_year year income_investments_years = Ok Utils.Unavailable) /\
  (year = 1991 ->
   Utils.select_by_year year income_investments_years
   = Raise (ValueError "no valid range for year")) /\
  (1992 <= year ->
   Utils.select_by_year year income_investments_years = Ok (Utils.RawColumn "V1273")) /\
  (forall T n s,
     Catalog.IncomeDataMixin ⊆ Base.declared T -> Base.year T = year -> year <= 1990 ->
     Frame.get (Base.data s) "income_investments" = None ->
     Base.proxy T (S n) Base.ByAttr "income_investments" s
     = (Ok (Frame.ObjCol (Frame.Broadcast (Frame.SNum nan))),
        {| Base.data := Frame.set (Base.data s) "income_investments"
                          (Frame.Broadcast (Frame.SNum nan));
           Base.raw := Base.raw s; Base.loads := Base.loads s |})).
Proof.
  assert (year <= 1990 ->
          Utils.select_by_year year income_investments_years = Ok Utils.Unavailable) as Hearly.
  { intros Hy. unfold Utils.select_by_year. rewrite income_investments_sorted.
    first_match_cases. reflexivity. }
  split; [vm_compute; reflexivity|]. split; [exact Hearly|].
  split; [intros ->; vm_compute; reflexivity|]. split.
  - intros Hy. unfold Utils.select_by_year. rewrite income_investments_sorted.
    first_match_cases. reflexivity.
  - intros T n s Hsub <- Hy Hget.
    apply (proxy_unavailable_income_field T n "income_investments"
             (Base.Field_of (Base.SpecYears income_investments_years))
             income_investments_years s).
    + apply (income_getattr T Hsub). vm_compute. reflexivity.
    + reflexivity.
    + by apply Hearly.
    + exact Hget.
Qed.


Section education_facts.
Import Frame Base Catalog.

Lemma negative_to_nan_spec (y : float) : PrimFloat.ltb (negative_to_nan y) 0 = false.
Proof. unfold negative_to_nan. by destruct (PrimFloat.ltb y 0) eqn:E. Qed.

Lemma never_negative_col_map (f : float -> float) (c : column) :
  (forall x, PrimFloat.ltb (f x) 0 = false) -> never_negative (col_map f c).
Proof.
  intros Hf. unfold never_negative. destruct c as [a|[|x]]; simpl.
  - apply Forall_forall. by intros y (x & -> & _)%list_elem_of_fmap.
  - constructor.
  - by repeat constructor.
Qed.

Lemma edu_1977_never_10 (x : float) : PrimFloat.eqb (edu_1977 x) 10 = false.
Proof.
  unfold edu_1977, negative_to_nan.
  destruct (PrimFloat.eqb x 9) eqn:E9; [by vm_compute|].
  destruct (PrimFloat.eqb x 10) eqn:E10; [by vm_compute|].
  by destruct (PrimFloat.ltb x 0).
Qed.

Lemma education_before_1992_sorted :
  Utils.list_sort (map Utils.normalize
    [ (between 1976 1978, Utils.RawColumn "V2511");
      (only 1979, Utils.RawColumn "V2507");
      (since 1981, Utils.RawColumn "V318") ])
  = Ok [ (Utils.Fin 1976, Utils.Fin 1978, Utils.RawColumn "V2511");
         (Utils.Fin 1979, Utils.Fin 1979, Utils.RawColumn "V2507");
         (Utils.Fin 1981, Utils.PosInf, Utils.RawColumn "V318") ].
Proof. vm_compute. reflexivity. Qed.

Lemma education_no_range (year : Z) :
  year < 1976 \/ year = 1980 ->
  Utils.select_by_year year
    [ (between 1976 1978, Utils.RawColumn "V2511");
      (only 1979, Utils.RawColumn "V2507");
      (since 1981, Utils.RawColumn "V318") ]
  = Raise (ValueError "no valid range for year").
Proof.
  intros Hy. unfold Utils.select_by_year. rewrite education_before_1992_sorted.
  first_match_cases. reflexivity.
Qed.

Variable df : access -> string -> M pyobj.

Lemma column_of_returns (selected : result Utils.outcome) (f : float -> float)
    (s s' : session) (v : pyobj) :
  (forall x, PrimFloat.ltb (f x) 0 = false) ->
  run df (column_of selected (fun v =>
            code v (fun data => Return (ObjCol (col_map f data))))) s = (Ok v, s') ->
  exists c, v = ObjCol c /\ never_negative c.
Proof.
  intros Hf. destruct selected as [[|field|z]|[e|c]]; simpl; try done.
  unfold bind. destruct (df ByItem field s) as [[v0|e] s0]; [|done].
  unfold code. destruct (stored v0) as [a|[|x]] eqn:E; simpl; [|done|].
  - intros [= <- <-]. eexists. split; [done|]. by apply (never_negative_col_map f (Values a)).
  - intros [= <- <-]. eexists. split; [done|].
    by apply (never_negative_col_map f (Broadcast (SNum x))).
Qed.

Lemma education_years_returns (year : Z) (s s' : session) (v : pyobj) :
  run df (education_years year) s = (Ok v, s') ->
  exists c, v = ObjCol c /\ never_negative c.
Proof.
  unfold education_years. destruct (year =? 1977).
  - simpl. unfold bind. destruct (df ByAttr "V136" s) as [[v0|e] s0]; [|done].
    intros [= <- <-]. eexists. split; [done|].
    apply never_negative_col_map. intros x. apply negative_to_nan_spec.
  - destruct (year <? 1992); apply column_of_returns; intros x; apply negative_to_nan_spec.
Qed.

End education_facts.

(** X22. [education_years] never returns a negative number: whenever it
    returns, it returns a column whose numbers are not below zero.  For
    the years before 1976 and for 1980 it raises the [ValueError] of a
    year without range before it reads the table.  For 1977 the codes 9
    and 10 both give 12 years: the replacement of 9 by 10 is followed by
    the replacement of 10 by 12, and no number returned is 10. *)
Theorem education_years_range (year : Z) (df : Base.access -> string -> Base.M Frame.pyobj)
    (s : Base.session) :
  (year < 1976 \/ year = 1980 ->
   Base.run df (Catalog.education_years year) s
   = (Raise (ValueError "no valid range for year"), s)) /\
  (forall v s', Base.run df (Catalog.education_years year) s = (Ok v, s') ->
     exists c, v = Frame.ObjCol c /\ never_negative c) /\
  (forall a s', df Base.ByAttr "V136" s = (Ok (Frame.ObjCol (Frame.Values a)), s') ->
     Base.run df (Catalog.education_years 1977) s
     = (Ok (Frame.ObjCol (Frame.Values (map Catalog.edu_1977 a))), s')) /\
  (forall x, PrimFloat.eqb (Catalog.edu_1977 x) 10 = false) /\
  Catalog.edu_1977 9 = 12%float /\ Catalog.edu_1977 10 = 12%float.
Proof.
  split; [|split; [|split; [|split; [apply edu_1977_never_10|by vm_compute]]]].
  - intros Hy. unfold Catalog.education_years.
    rewrite (proj2 (Z.eqb_neq year 1977)) by lia.
    rewrite (proj2 (Z.ltb_lt year 1992)) by lia.
    by rewrite (education_no_range year Hy).
  - intros v s'. apply education_years_returns.
  - intros a s' Hdf. unfold Catalog.education_years. simpl. unfold Base.bind.
    by rewrite Hdf.
Qed.

Example education_years_of_1977 :
  (Base.proxy
     {| Base.year := 1977; Base._fields := [];
        Base.declared := {["education_years" := Base.AFunction Catalog.education_years]};
        Base._loader := {["V136" := Frame.Values [0; 4; 9; 10; 11; -1]%float]} |}
     3 Base.ByAttr "education_years"
     {| Base.data := []; Base.raw := None; Base.loads := 0 |}).1
  = Ok (Frame.ObjCol (Frame.Values [0; 4; 12; 12; 11; nan]%float)).
Proof. vm_compute. reflexivity. Qed.


(** ** The codes of the states *)

Section convert_facts.
Import Person.

Lemma convert_row (x : float) (map : list (Z * Enums.State)) (found : option Enums.State) :
  foldl (row_step x) (from_option Enums.State_value 0 found, bool_decide (is_Some found)) map
  = (from_option Enums.State_value 0
       (foldl (fun found '(prev, final) =>
                 if PrimFloat.eqb x (Frame.of_int prev) then Some final else found)
              found map),
     bool_decide (is_Some
       (foldl (fun found '(prev, final) =>
                 if PrimFloat.eqb x (Frame.of_int prev) then Some final else found)
              found map))).
Proof.
  revert found. induction map as [|[prev final] map IH]; intros found; [done|].
  cbn [foldl]. rewrite <- IH. f_equal. unfold row_step. cbn [fst snd].
  destruct (PrimFloat.eqb x (Frame.of_int prev)).
  - by rewrite orb_true_r.
  - by rewrite orb_false_r.
Qed.

Lemma convert_step_rows (data : list float) (rows : list (Z * bool)) (entry : Z * Enums.State) :
  length rows = length data ->
  convert_step data (rows.*1, rows.*2) entry
  = ((zip_with (fun x row => row_step x row entry) data rows).*1,
     (zip_with (fun x row => row_step x row entry) data rows).*2).
Proof.
  destruct entry as [prev final]. unfold convert_step, row_step. cbn [fst snd].
  intros Hlen. f_equal.
  - revert data Hlen. induction rows as [|r rows IH]; intros [|x data] Hlen; try done.
    simpl. f_equal. apply IH. simpl in Hlen. lia.
  - revert data Hlen. induction rows as [|r rows IH]; intros [|x data] Hlen; try done.
    simpl. f_equal. apply IH. simpl in Hlen. lia.
Qed.

Lemma convert_loop (data : list float) (map : list (Z * Enums.State))
    (rows : list (Z * bool)) :
  length rows = length data ->
  foldl (convert_step data) (rows.*1, rows.*2) map
  = ((zip_with (fun x row => foldl (row_step x) row map) data rows).*1,
     (zip_with (fun x row => foldl (row_step x) row map) data rows).*2).
Proof.
  revert rows. induction map as [|entry map IH]; intros rows Hlen.
  - simpl. assert (zip_with (fun (_ : float) (row : Z * bool) => row) data rows = rows) as ->; [|done].
    revert data Hlen. induction rows as [|r rows IH]; intros [|x data] Hlen; try done.
    simpl. f_equal. apply IH. simpl in Hlen. lia.
  - cbn [foldl]. rewrite convert_step_rows by done. rewrite IH.
    + assert (zip_with (fun x row => foldl (row_step x) row map) data
                (zip_with (fun x row => row_step x row entry) data rows)
              = zip_with (fun x row => foldl (row_step x) (row_step x row entry) map) data rows)
        as ->; [|done].
      clear. revert rows. induction data as [|x data IH]; intros [|r rows]; try done.
      simpl. f_equal. apply IH.
    + rewrite length_zip_with. lia.
Qed.

Lemma convert_spec (data : list float) (map : list (Z * Enums.State)) :
  convert data map =
    if forallb (fun x => bool_decide (is_Some (state_of map x))) data
    then Out (List.map (fun x => from_option Enums.State_value 0 (state_of map x)) data)
    else NameError "count".
Proof.
  unfold convert.
  pose proof (convert_loop data map (replicate (length data) (0, false))) as H.
  rewrite !fmap_replicate in H. cbn [fst snd] in H. rewrite H by apply length_replicate. clear H.
  assert (zip_with (fun x row => foldl (row_step x) row map) data
            (replicate (length data) (0, false))
          = List.map (fun x => (from_option Enums.State_value 0 (state_of map x),
                                bool_decide (is_Some (state_of map x)))) data) as ->.
  { induction data as [|x data IH]; [done|]. simpl. f_equal; [|apply IH].
    apply (convert_row x map None). }
  assert (forall l : list float,
            forallb id (List.map (fun x => (from_option Enums.State_value 0 (state_of map x),
                                            bool_decide (is_Some (state_of map x)))) l).*2
            = forallb (fun x => bool_decide (is_Some (state_of map x))) l) as Hmask.
  { induction l as [|x l IH]; [done|]. simpl. rewrite <- IH. reflexivity. }
  assert (forall l : list float,
            (List.map (fun x => (from_option Enums.State_value 0 (state_of map x),
                                 bool_decide (is_Some (state_of map x)))) l).*1
            = List.map (fun x => from_option Enums.State_value 0 (state_of map x)) l) as Hout.
  { induction l as [|x l IH]; [done|]. simpl. rewrite <- IH. reflexivity. }
  rewrite Hmask, Hout. by destruct (forallb _ data).
Qed.

End convert_facts.

(** X23. [convert] returns an array exactly when every code of [data] is
    equal to a key of the dict.  The array then has, row by row, the
    value of the member the dict has for the code.  Otherwise the call
    raises a [NameError]: the function [count] that it calls before
    raising its [ValueError] is not defined. *)
Theorem convert_codes (data : list float) (map : list (Z * Enums.State)) :
  (Forall (fun x => is_Some (state_of map x)) data ->
   Person.convert data map
   = Person.Out (List.map (fun x => from_option Enums.State_value 0 (state_of map x)) data)) /\
  (~ Forall (fun x => is_Some (state_of map x)) data ->
   Person.convert data map = Person.NameError "count") /\
  (forall out, Person.convert data map = Person.Out out ->
     length out = length data /\
     forall i x, data !! i = Some x ->
       exists final, state_of map x = Some final /\
                     out !! i = Some (Enums.State_value final)).
Proof.
  assert (forallb (fun x => bool_decide (is_Some (state_of map x))) data = true <->
          Forall (fun x => is_Some (state_of map x)) data) as Hall.
  { rewrite forallb_forall, Forall_forall. split.
    - intros H x Hx. apply (proj1 (list_elem_of_In data x)) in Hx.
      exact (bool_decide_eq_true_1 _ (H x Hx)).
    - intros H x Hx. apply (proj2 (list_elem_of_In data x)) in Hx.
      exact (bool_decide_eq_true_2 _ (H x Hx)). }
  rewrite convert_spec. split; [|split].
  - intros H. by rewrite (proj2 Hall H).
  - intros H. destruct (forallb _ data); [|reflexivity].
    destruct H. exact (proj1 Hall eq_refl).
  - intros out. destruct (forallb _ data); [|discriminate]. intros [= <-].
    split; [apply length_map|]. intros i x Hx.
    pose proof (proj1 Hall eq_refl) as E. rewrite Forall_forall in E.
    destruct (E x) as [final Hfinal]; [by eapply list_elem_of_lookup_2|].
    exists final. split; [done|]. rewrite list_lookup_fmap, Hx. simpl. by rewrite Hfinal.
Qed.

Example convert_of_codes :
  Person.convert [43; 41; 43]%float [(41, Enums.PR); (42, Enums.SC); (43, Enums.RS)]
  = Person.Out [9; 12; 9] /\
  Person.convert [43; 44]%float [(41, Enums.PR); (42, Enums.SC); (43, Enums.RS)]
  = Person.NameError "count".
Proof. split; vm_compute; reflexivity. Qed.

(** ** Categories *)

Section category_facts.
Import Enums.

Lemma insert_by_value_perm (x : string * Z) (l : list (string * Z)) :
  insert_by_value x l ≡ₚ x :: l.
Proof.
  induction l as [|y l IH]; simpl; [done|].
  destruct (x.2 <? y.2); [done|]. rewrite IH. apply Permutation_swap.
Qed.

Lemma sort_by_value_perm (l : list (string * Z)) : sort_by_value l ≡ₚ l.
Proof.
  unfold sort_by_value. rewrite <- (app_nil_r l) at 2. generalize (@nil (string * Z)).
  induction l as [|x l IH]; intros acc; simpl; [done|].
  rewrite IH, insert_by_value_perm. by rewrite Permutation_middle.
Qed.

Lemma insert_by_value_sorted (x : string * Z) (l : list (string * Z)) :
  Sorted (fun a b : string * Z => a.2 <= b.2) l ->
  Sorted (fun a b : string * Z => a.2 <= b.2) (insert_by_value x l).
Proof.
  induction 1 as [|y l Hl IH Hhd]; simpl; [by repeat constructor|].
  destruct (Z.ltb_spec x.2 y.2).
  - constructor; [by constructor|]. constructor. lia.
  - constructor; [done|]. destruct l as [|z l]; simpl.
    + constructor. lia.
    + inversion Hhd; subst. destruct (x.2 <? z.2); constructor; lia.
Qed.

Lemma sort_by_value_sorted (l : list (string * Z)) :
  Sorted (fun a b : string * Z => a.2 <= b.2) (sort_by_value l).
Proof.
  unfold sort_by_value.
  assert (Sorted (fun a b : string * Z => a.2 <= b.2) []) as Hnil by constructor.
  revert Hnil. generalize (@nil (string * Z)).
  induction l as [|x l IH]; intros acc Hacc; simpl; [done|].
  apply IH. by apply insert_by_value_sorted.
Qed.

Lemma NoDup_fst_functional (l : list (string * Z)) (x : string) (y1 y2 : Z) :
  NoDup l.*1 -> (x, y1) ∈ l -> (x, y2) ∈ l -> y1 = y2.
Proof.
  induction l as [|[a b] l IH]; intros Hnd H1 H2; [by apply elem_of_nil in H1|].
  simpl in Hnd. apply NoDup_cons in Hnd as [Ha Hnd].
  apply elem_of_cons in H1 as [H1|H1]; apply elem_of_cons in H2 as [H2|H2].
  - congruence.
  - injection H1 as -> ->. destruct Ha. apply list_elem_of_fmap. by exists (a, y2).
  - injection H2 as -> ->. destruct Ha. apply list_elem_of_fmap. by exists (a, y1).
  - by apply IH.
Qed.

Variable cls : list (string * Z).

Lemma elem_of_items (name : string) (v : Z) :
  (name, v) ∈ items cls <-> (count_ones v <= 1)%nat /\ (name, v) ∈ cls.
Proof. unfold items. rewrite sort_by_value_perm, list_elem_of_filter. done. Qed.

Lemma to_cat_origin (l : list (string * Z)) (m : gmap Z string) (v : Z) (name : string) :
  foldl (fun m '(x, y) => <[y := x]> m) m l !! v = Some name ->
  (name, v) ∈ l \/ m !! v = Some name.
Proof.
  revert m. induction l as [|[x y] l IH]; intros m Hv; simpl in *; [by right|].
  destruct (IH _ Hv) as [Hin|Hm].
  - left. by apply list_elem_of_further.
  - apply lookup_insert_Some in Hm as [[<- <-]|[_ Hm]]; [|by right].
    left. apply list_elem_of_here.
Qed.

Lemma from_cat_lookup (l : list (string * Z)) (m : gmap string Z) (name : string) (v : Z) :
  NoDup l.*1 -> (name, v) ∈ l ->
  foldl (fun m '(x, y) => <[x := y]> m) m l !! name = Some v.
Proof.
  revert m. induction l as [|[x y] l IH]; intros m Hnd Hin; [by apply elem_of_nil in Hin|].
  simpl in *. apply NoDup_cons in Hnd as [Hx Hnd].
  apply elem_of_cons in Hin as [[= -> ->]|Hin]; [|by apply IH].
  clear IH. revert m. induction l as [|[x' y'] l IH]; intros m; simpl.
  - apply lookup_insert_eq.
  - simpl in Hx. apply not_elem_of_cons in Hx as [Hne Hx].
    apply NoDup_cons in Hnd as [_ Hnd].
    rewrite insert_insert_ne by done. by apply IH.
Qed.

End category_facts.

(** X24. [with_category] gives a category to values with at most one
    binary digit 1 only: when [to_category] returns a name, the class
    has a member of that name and value and the value has at most one
    such digit; the categories are in the order of their values; and
    when the names of the members differ, [from_category] returns the
    value [to_category] was given.  Each of the 27 states has two such
    digits, so that whatever the iteration of [State] yields, no state
    has a category: [to_category] is [None] for it. *)
Theorem categories_have_one_bit (cls : list (string * Z)) :
  (forall v name, Enums.to_category cls v = Some name ->
     (Enums.count_ones v <= 1)%nat /\ (name, v) ∈ cls /\
     (NoDup cls.*1 -> Enums.from_category cls name = Ok v)) /\
  Sorted (fun a b : string * Z => a.2 <= b.2) (Enums.items cls) /\
  Enums.categories cls = (Enums.items cls).*1 /\
  (forall s, s ∈ Enums.states ->
     Enums.count_ones (Enums.State_value s) = 2%nat /\
     Enums.to_category cls (Enums.State_value s) = None).
Proof.
  assert (forall v name, Enums.to_category cls v = Some name -> (name, v) ∈ Enums.items cls)
    as Hitems.
  { intros v name Hv. unfold Enums.to_category, Enums.to_cat in Hv.
    by destruct (to_cat_origin _ _ _ _ Hv) as [Hin|Hm]. }
  split; [|split; [apply sort_by_value_sorted|split; [done|]]].
  - intros v name Hv. pose proof (Hitems v name Hv) as Hin.
    apply elem_of_items in Hin as [Hones Hcls]. split; [done|]. split; [done|].
    intros Hnd. unfold Enums.from_category, Enums.from_cat.
    rewrite (from_cat_lookup (Enums.items cls) ∅ name v); [done| |by apply elem_of_items].
    unfold Enums.items. rewrite sort_by_value_perm.
    apply (NoDup_fmap_fst (filter _ cls)).
    + intros x y1 y2 [_ H1]%list_elem_of_filter [_ H2]%list_elem_of_filter.
      exact (NoDup_fst_functional cls x y1 y2 Hnd H1 H2).
    + apply NoDup_filter. eapply NoDup_fmap_1. exact Hnd.
  - intros s Hs.
    assert (Enums.count_ones (Enums.State_value s) = 2%nat) as Htwo.
    { revert s Hs. apply Forall_forall. unfold Enums.states.
      repeat (apply Forall_cons_2; [vm_compute; reflexivity|]). apply Forall_nil_2. }
    split; [done|].
    destruct (Enums.to_category cls (Enums.State_value s)) as [name|] eqn:E; [|done].
    apply Hitems, elem_of_items in E as [Hones _]. lia.
Qed.

Example categories_of_flags :
  Enums.categories
    [ ("UNKNOWN", 0); ("MALE", 1); ("FEMALE", 2); ("OTHER", 4);
      ("NON_MALE", 6); ("NON_FEMALE", 5); ("NON_UNDEFINED", 3); ("KNOWN", 7) ]
  = ["UNKNOWN"; "MALE"; "FEMALE"; "OTHER"].
Proof. vm_compute. reflexivity. Qed.

(** X25. The values of the states do not all carry the bit of their
    region.  The bit of Sul, of Sudeste and of Centro-Oeste is set in
    the states of that region and in no other state.  Of the states of Nordeste only PB
    has the bit of [NORDESTE], and of the states of Norte only RR has
    the bit of [NORTE]: for the others [state & region] is zero. *)
Theorem states_and_regions :
  (forall region state,
     region ∈ [Enums.SUL; Enums.SUDESTE; Enums.CENTRO_OESTE] ->
     state ∈ Enums.states ->
     in_region state region = bool_decide (state ∈ states_of region)) /\
  (forall state, state ∈ states_of Enums.NORDESTE ->
     in_region state Enums.NORDESTE = bool_decide (state = Enums.PB)) /\
  (forall state, state ∈ states_of Enums.NORTE ->
     in_region state Enums.NORTE = bool_decide (state = Enums.RR)) /\
  Enums.states ≡ₚ
    states_of Enums.SUL ++ states_of Enums.SUDESTE ++ states_of Enums.CENTRO_OESTE ++
    states_of Enums.NORDESTE ++ states_of Enums.NORTE.
Proof.
  split; [|split; [|split]].
  - intros region state Hr. revert state. apply Forall_forall.
    repeat (apply elem_of_cons in Hr as [->|Hr]; [|]); try (by apply elem_of_nil in Hr);
      unfold Enums.states;
      repeat (apply Forall_cons_2; [vm_compute; reflexivity|]); apply Forall_nil_2.
  - apply Forall_forall. unfold states_of.
    repeat (apply Forall_cons_2; [vm_compute; reflexivity|]). apply Forall_nil_2.
  - apply Forall_forall. unfold states_of.
    repeat (apply Forall_cons_2; [vm_compute; reflexivity|]). apply Forall_nil_2.
  - apply (bool_decide_unpack _). vm_compute. reflexivity.
Qed.
